(** * Wisdom Vault backend: the insight-acquisition pipeline of server/server.js

    A shallow embedding of the request handler [app.post('/process-insight')]
    and of the functions it calls, followed by the properties the
    specification states about them.

    JavaScript strings are sequences of UTF-16 code units, numbers that the
    code only compares, adds or subtracts are integers, and the one place where
    the code divides and multiplies ([(timestampSeconds / 60) * 150]) is
    computed in IEEE-754 binary64 with the executable specification of the
    standard library. *)

From Stdlib Require Import ZArith NArith List Bool String Ascii Lia.
From Stdlib Require Import Floats.SpecFloat.
From stdpp Require Import base option list gmap.
From Stdlib Require Import Sorting.Sorted.

Open Scope Z_scope.

(** ** JavaScript strings *)

(** A string is the list of its UTF-16 code units. *)
Abbreviation jsstring := (list N).

(** [js "..."] is the string with the given ASCII text. *)
Definition js (s : string) : jsstring :=
  List.map N_of_ascii (list_ascii_of_string s).

(** WhiteSpace and LineTerminator code points: what [String.prototype.trim]
    removes and what [\s] matches. *)
Definition isWhiteSpace (c : N) : bool :=
  existsb (N.eqb c)
    [9; 10; 11; 12; 13; 32; 160; 5760; 8232; 8233; 8239; 8287; 12288; 65279]%N
  || ((8192 <=? c) && (c <=? 8202))%N.

(** [\d] *)
Definition isDigit (c : N) : bool := ((48 <=? c) && (c <=? 57))%N.

Fixpoint dropWhile {A} (p : A -> bool) (l : list A) : list A :=
  match l with
  | [] => []
  | x :: r => if p x then dropWhile p r else l
  end.

Fixpoint takeWhile {A} (p : A -> bool) (l : list A) : list A :=
  match l with
  | [] => []
  | x :: r => if p x then x :: takeWhile p r else []
  end.

Definition trimStart (s : jsstring) : jsstring := dropWhile isWhiteSpace s.
Definition trimEnd (s : jsstring) : jsstring := rev (dropWhile isWhiteSpace (rev s)).

(** [s.trim()] *)
Definition trim (s : jsstring) : jsstring := trimEnd (trimStart s).

(** [s.split(c)] for a separator of one code unit: the pieces between the
    occurrences of [c], empty pieces included; never the empty list. *)
Fixpoint split (c : N) (s : jsstring) : list jsstring :=
  match s with
  | [] => [[]]
  | x :: r =>
      if N.eqb x c then [] :: split c r
      else match split c r with
           | [] => [[x]]
           | w :: ws => (x :: w) :: ws
           end
  end.

(** [l.join(sep)] *)
Fixpoint join (sep : jsstring) (l : list jsstring) : jsstring :=
  match l with
  | [] => []
  | [x] => x
  | x :: r => x ++ sep ++ join sep r
  end.

(** [l.slice(s, e)] with integer arguments: a negative index counts from the
    end, both are clamped to the length, and an empty range gives []. *)
Definition slice {A} (l : list A) (s e : Z) : list A :=
  let len := Z.of_nat (length l) in
  let k := if s <? 0 then Z.max (len + s) 0 else Z.min s len in
  let f := if e <? 0 then Z.max (len + e) 0 else Z.min e len in
  take (Z.to_nat (f - k)) (drop (Z.to_nat k) l).

(** [s.includes(t)] *)
Fixpoint isPrefix (t s : jsstring) : bool :=
  match t, s with
  | [], _ => true
  | _ :: _, [] => false
  | a :: t', b :: s' => N.eqb a b && isPrefix t' s'
  end.

Fixpoint includes (s t : jsstring) : bool :=
  isPrefix t s ||
  match s with
  | [] => false
  | _ :: r => includes r t
  end.

(** [s.toLowerCase()], on the letters A to Z; other code units are kept. *)
Definition toLowerCase (s : jsstring) : jsstring :=
  List.map (fun c => if ((65 <=? c) && (c <=? 90))%N then (c + 32)%N else c) s.

(** ** JavaScript numbers *)

(** binary64 *)
Definition double_of_Z (z : Z) : spec_float := binary_normalize 53 1024 z 0 false.
Definition fdiv : spec_float -> spec_float -> spec_float := SFdiv 53 1024.
Definition fmul : spec_float -> spec_float -> spec_float := SFmul 53 1024.

(** [Math.floor] of a finite double; [None] for an infinity or NaN, which
    [Math.floor] returns unchanged. *)
Definition Math_floor (x : spec_float) : option Z :=
  match x with
  | S754_zero _ => Some 0
  | S754_finite s m e =>
      let n := if s then Z.neg m else Z.pos m in
      Some (if e <? 0 then n / 2 ^ (- e) else n * 2 ^ e)
  | _ => None
  end.

(** Decimal digits of a natural number, most significant first. *)
Fixpoint digitsFuel (fuel : nat) (n : N) (acc : jsstring) : jsstring :=
  match fuel with
  | O => acc
  | S f =>
      let acc' := (48 + n mod 10)%N :: acc in
      if (n <? 10)%N then acc' else digitsFuel f (n / 10)%N acc'
  end.

Definition decimal (n : N) : jsstring := digitsFuel (S (N.to_nat (N.log2 n))) n [].

(** [String(z)] for an integer-valued number (below 10^21 in magnitude, where
    JavaScript prints all the digits). *)
Definition numberToString (z : Z) : jsstring :=
  match z with
  | Z0 => js "0"
  | Zpos p => decimal (Npos p)
  | Zneg p => 45%N :: decimal (Npos p)
  end.

(** ** JavaScript values of a JSON request body

    The scalar values: a missing key, null, a boolean, a whole number, a
    string. Arrays and objects are not among them, so a field whose
    conversion to a string or a number would throw is outside this
    development. *)

Inductive jsval :=
  | JUndefined
  | JNull
  | JBool (b : bool)
  | JNum (z : Z)
  | JStr (s : jsstring).

(** ToBoolean *)
Definition truthy (v : jsval) : bool :=
  match v with
  | JUndefined | JNull => false
  | JBool b => b
  | JNum z => negb (z =? 0)
  | JStr s => match s with [] => false | _ => true end
  end.

(** [a || b] *)
Definition jsor (a b : jsval) : jsval := if truthy a then a else b.

(** ToString *)
Definition ToString (v : jsval) : jsstring :=
  match v with
  | JUndefined => js "undefined"
  | JNull => js "null"
  | JBool true => js "true"
  | JBool false => js "false"
  | JNum z => numberToString z
  | JStr s => s
  end.

(** Value of a digit in the given radix, if it is one. *)
Definition digitValue (radix : N) (c : N) : option N :=
  let v :=
    if ((48 <=? c) && (c <=? 57))%N then Some (c - 48)%N
    else if ((97 <=? c) && (c <=? 122))%N then Some (c - 87)%N
    else if ((65 <=? c) && (c <=? 90))%N then Some (c - 55)%N
    else None in
  match v with
  | Some d => if (d <? radix)%N then Some d else None
  | None => None
  end.

(** The longest prefix of digits, read in the radix: [None] when there is no
    digit at all. *)
Fixpoint parseDigits (radix : N) (s : jsstring) (acc : option N) : option N :=
  match s with
  | [] => acc
  | c :: r =>
      match digitValue radix c with
      | Some d => parseDigits radix r (Some (match acc with
                                             | Some a => a * radix + d
                                             | None => d
                                             end)%N)
      | None => acc
      end
  end.

(** [parseInt(v)] without a radix argument; [None] is NaN. The result is the
    exact integer the digits denote; the code returns the double nearest to
    it, which is the same number up to 2^53 in magnitude. *)
Definition parseInt (v : jsval) : option Z :=
  let s := trimStart (ToString v) in
  let '(neg, s1) :=
    match s with
    | 45%N :: r => (true, r)
    | 43%N :: r => (false, r)
    | _ => (false, s)
    end in
  let '(radix, s2) :=
    match s1 with
    | 48%N :: 120%N :: r => (16%N, r)
    | 48%N :: 88%N :: r => (16%N, r)
    | _ => (10%N, s1)
    end in
  match parseDigits radix s2 None with
  | None => None
  | Some n => Some (if neg then - Z.of_N n else Z.of_N n)
  end.

(** [parseInt(v) || 0] *)
Definition parseIntOrZero (v : jsval) : Z :=
  match parseInt v with
  | None => 0
  | Some z => z
  end.

(** ** Transcript payloads *)

(** One element of a time-coded transcript; every field may be missing. *)
Record segment := {
  seg_start_time : option Z;
  seg_start : option Z;
  seg_end_time : option Z;
  seg_end : option Z;
  seg_text : option jsstring;
  seg_words : option jsstring
}.

(** The shapes [extractTranscriptSegment] tells apart. *)
Inductive payload :=
  | PString (s : jsstring)
  | PArray (segs : list segment)
  | POther.

(** [a || b] on numbers that may be missing. *)
Definition numOr (a : option Z) (b : Z) : Z :=
  match a with
  | Some z => if z =? 0 then b else z
  | None => b
  end.

(** [a || b] on strings that may be missing. *)
Definition strOr (a : option jsstring) (b : jsstring) : jsstring :=
  match a with
  | Some (c :: r) => c :: r
  | _ => b
  end.

Definition segStart (seg : segment) : Z :=
  numOr (seg_start_time seg) (numOr (seg_start seg) 0).

Definition segEnd (seg : segment) : Z :=
  numOr (seg_end_time seg) (numOr (seg_end seg) (segStart seg + 5)).

Definition segText (seg : segment) : jsstring :=
  strOr (seg_text seg) (strOr (seg_words seg) []).

(** The filter of the structured branch. *)
Definition relevant (timestampSeconds duration : Z) (seg : segment) : bool :=
  (segStart seg >=? timestampSeconds - 5) &&
  (segEnd seg <=? timestampSeconds + duration + 5).

(** [Math.floor((timestampSeconds / 60) * 150)] *)
Definition approximateWordIndex (timestampSeconds : Z) : option Z :=
  Math_floor (fmul (fdiv (double_of_Z timestampSeconds) (double_of_Z 60))
                   (double_of_Z 150)).

Definition SPACE : jsstring := [32%N].

(** [extractTranscriptSegment(transcript, timestampSeconds, duration)];
    [None] is null. *)
Definition extractTranscriptSegment (transcript : payload)
    (timestampSeconds duration : Z) : option jsstring :=
  match transcript with
  | PString s =>
      let words := split 32 s in
      match approximateWordIndex timestampSeconds with
      | Some idx =>
          let startIndex := Z.max 0 (idx - 25) in
          let endIndex := Z.min (Z.of_nat (length words)) (idx + 75) in
          Some (join SPACE (slice words startIndex endIndex))
      | None =>
          (* the index is an infinity: the slice is empty *)
          Some []
      end
  | PArray segs =>
      let relevantSegments := List.filter (relevant timestampSeconds duration) segs in
      Some (join SPACE (List.map segText relevantSegments))
  | POther => None
  end.

(** ** The summarizer's parser *)

(** The characters of the class [[-‚Ä¢*]] as the source file spells it:
    hyphen, U+201A, U+00C4, U+00A2 and asterisk. *)
Definition isBulletMarker (c : N) : bool :=
  existsb (N.eqb c) [45; 8218; 196; 162; 42]%N.

(** [/^[-‚Ä¢*]\s/] *)
Definition matchBullet (s : jsstring) : bool :=
  match s with
  | c :: w :: _ => isBulletMarker c && isWhiteSpace w
  | _ => false
  end.

(** [/^\d+\.\s/] *)
Definition matchNumbered (s : jsstring) : bool :=
  match takeWhile isDigit s, dropWhile isDigit s with
  | _ :: _, 46%N :: w :: _ => isWhiteSpace w
  | _, _ => false
  end.

(** The predicate of the first [filter]. *)
Definition isBulletLine (line : jsstring) : bool :=
  matchBullet (trim line) || matchNumbered (trim line).

(** [line.replace(/^[-‚Ä¢*\d.]\s*/, '')] *)
Definition stripMarker (line : jsstring) : jsstring :=
  match line with
  | c :: r =>
      if isBulletMarker c || isDigit c || N.eqb c 46 then dropWhile isWhiteSpace r
      else line
  | [] => []
  end.

Definition nonEmpty (s : jsstring) : bool :=
  match s with [] => false | _ => true end.

(** The parsing of the model's answer in [summarizeTranscript]. *)
Definition parseBullets (content : jsstring) : list jsstring :=
  let bullets :=
    take 3 (List.filter nonEmpty
              (List.map (fun line => trim (stripMarker line))
                 (List.filter isBulletLine (split 10 content)))) in
  match bullets with
  | [] => [trim content]
  | _ => bullets
  end.

(** ** The world of one request *)

(** The subprocesses the server starts with [execAsync]. *)
Inductive command :=
  | Curl (audioUrl output : jsstring)
  | Ffmpeg (startTime totalDuration : Z) (input output : jsstring)
  | YtDlp (startTime totalDuration : Z) (output audioUrl : jsstring).

(** The file a subprocess writes. *)
Definition outputOf (c : command) : jsstring :=
  match c with
  | Curl _ o => o
  | Ffmpeg _ _ _ o => o
  | YtDlp _ _ o _ => o
  end.

(** How a subprocess ends: its exit (a failure rejects the promise with a
    message) and the size of the output file it leaves behind, if any. *)
Inductive exit := Exit0 | ExitError (message : jsstring).
Record execResult := { exitOf : exit; written : option N }.

(** An HTTP call through axios either rejects or delivers the part of the
    response the caller reads. *)
Inductive http (A : Type) :=
  | HttpError (detail : jsstring)
  | HttpOk (data : A).
Arguments HttpError {A} detail.
Arguments HttpOk {A} data.

(** One result of the Listen Notes search. *)
Record rawEpisode := {
  raw_id : jsstring;
  raw_title_original : option jsstring;
  raw_podcast_title_original : option jsstring;
  raw_audio : option jsstring;
  raw_thumbnail : option jsstring;
  raw_description_original : option jsstring;
  raw_transcript : option payload
}.

(** Everything outside the process: the clock, the subprocesses and the
    remote services. Each is a function of the arguments of the call. *)
Record env := {
  dirname : jsstring;
  now : N;
  exec : command -> execResult;
  listenNotesSearch : jsstring -> http (option (list rawEpisode));
  listenNotesEpisode : jsstring -> http (option payload);
  whisper : jsstring -> http jsstring;
  chatCompletion : jsstring -> jsval -> http jsstring
}.

(** The calls that leave the process, in the order they are made. *)
Inductive event :=
  | EvSearch (query : jsstring)
  | EvEpisode (id : jsstring)
  | EvExec (c : command)
  | EvTranscribe (audioPath : jsstring)
  | EvSummarize (transcript : jsstring) (title : jsval)
  | EvLog (title showName : jsval) (timestamp : Z) (spotifyUrl : jsval).

(** The temporary directory (path to size in bytes), the calls made so far,
    and the handler's variable [audioPath]. *)
Record state := {
  files : gmap (list N) N;
  trace : list event;
  audioPath : option jsstring
}.

Definition setFiles (f : gmap (list N) N) (st : state) : state :=
  {| files := f; trace := trace st; audioPath := audioPath st |}.
Definition emit (ev : event) (st : state) : state :=
  {| files := files st; trace := trace st ++ [ev]; audioPath := audioPath st |}.
Definition setAudioPath (p : option jsstring) (st : state) : state :=
  {| files := files st; trace := trace st; audioPath := p |}.

(** ** Computations that may throw *)

Inductive outcome (A : Type) :=
  | Returned (a : A)
  | Thrown (message : jsstring).
Arguments Returned {A} a.
Arguments Thrown {A} message.

Definition M (A : Type) : Type := state -> outcome A * state.

Definition ret {A} (a : A) : M A := fun st => (Returned a, st).
Definition throw {A} (message : jsstring) : M A := fun st => (Thrown message, st).

Definition bind {A B} (m : M A) (k : A -> M B) : M B :=
  fun st =>
    match m st with
    | (Returned a, st') => k a st'
    | (Thrown message, st') => (Thrown message, st')
    end.

(** [try { m } catch (error) { handler(error.message) }] *)
Definition tryCatch {A} (m : M A) (handler : jsstring -> M A) : M A :=
  fun st =>
    match m st with
    | (Returned a, st') => (Returned a, st')
    | (Thrown message, st') => handler message st'
    end.

(** [try { m } finally { cleanup }], for a cleanup that does not throw. *)
Definition finally {A} (m : M A) (cleanup : M unit) : M A :=
  fun st =>
    let '(r, st') := m st in
    (r, snd (cleanup st')).

Definition modify (f : state -> state) : M unit := fun st => (Returned tt, f st).
Definition get : M state := fun st => (Returned st, st).

Notation "'let*' x ':=' m 'in' k" := (bind m (fun x => k))
  (at level 10, x name, m at level 100, k at level 200).
Notation "'run' m 'in' k" := (bind m (fun _ => k))
  (at level 10, m at level 100, k at level 200).

(** ** File operations *)

(** The message of Node's error for a missing file: the system call that
    failed, then the path or paths it was given, in quotes. *)
Definition quoted (path : jsstring) : jsstring := js "'" ++ path ++ js "'".

Definition ENOENT (syscall : string) (paths : jsstring) : jsstring :=
  js "ENOENT: no such file or directory, " ++ js syscall ++ js " " ++ paths.

(** [fs.unlink(path)] *)
Definition unlink (path : jsstring) : M unit :=
  fun st =>
    match files st !! path with
    | Some _ => (Returned tt, setFiles (delete path (files st)) st)
    | None => (Thrown (ENOENT "unlink" (quoted path)), st)
    end.

(** [(await fs.stat(path)).size] *)
Definition statSize (path : jsstring) : M N :=
  fun st =>
    match files st !! path with
    | Some n => (Returned n, st)
    | None => (Thrown (ENOENT "stat" (quoted path)), st)
    end.

(** [fs.rename(from, to)] *)
Definition rename (from to : jsstring) : M unit :=
  fun st =>
    match files st !! from with
    | Some n => (Returned tt, setFiles (<[to := n]> (delete from (files st))) st)
    | None => (Thrown (ENOENT "rename" (quoted from ++ js " -> " ++ quoted to)), st)
    end.

(** [cleanupTempFiles(files)]: a failed deletion is logged and skipped. *)
Fixpoint cleanupTempFiles (paths : list jsstring) : M unit :=
  match paths with
  | [] => ret tt
  | file :: rest =>
      run tryCatch (unlink file) (fun _ => ret tt) in
      cleanupTempFiles rest
  end.

(** [execAsync(cmd, ...)]: the subprocess runs, leaves its output file if it
    wrote one, and the promise rejects on a failing exit. *)
Definition execAsync (e : env) (c : command) : M unit :=
  fun st =>
    let r := exec e c in
    let st1 := emit (EvExec c) st in
    let st2 :=
      match written r with
      | Some n => setFiles (<[outputOf c := n]> (files st1)) st1
      | None => st1
      end in
    match exitOf r with
    | Exit0 => (Returned tt, st2)
    | ExitError message => (Thrown message, st2)
    end.

(** [path.join(__dirname, 'temp')] *)
Definition TEMP_DIR (e : env) : jsstring := dirname e ++ js "/temp".

Definition fullAudioPath (e : env) : jsstring :=
  TEMP_DIR e ++ js "/full_" ++ decimal (now e) ++ js ".mp3".
Definition snippetPath (e : env) : jsstring :=
  TEMP_DIR e ++ js "/snippet_" ++ decimal (now e) ++ js ".mp3".

(** ** The stages *)

(** What [searchListenNotes] returns for a match. *)
Record episode := {
  ep_id : jsstring;
  ep_title : option jsstring;
  ep_showName : jsval;
  ep_audioUrl : option jsstring;
  ep_thumbnail : option jsstring;
  ep_description : option jsstring;
  ep_hasTranscript : bool;
  ep_transcript : option payload
}.

(** Truthiness of a transcript field. *)
Definition payloadTruthy (p : option payload) : bool :=
  match p with
  | None => false
  | Some (PString s) => nonEmpty s
  | Some _ => true
  end.

Definition optTruthy (s : option jsstring) : bool :=
  match s with
  | Some (_ :: _) => true
  | _ => false
  end.

(** The object built from the chosen search result. *)
Definition toEpisode (r : rawEpisode) (showName : jsval) : episode :=
  {| ep_id := raw_id r;
     ep_title := raw_title_original r;
     ep_showName :=
       if optTruthy (raw_podcast_title_original r)
       then JStr (strOr (raw_podcast_title_original r) [])
       else showName;
     ep_audioUrl := raw_audio r;
     ep_thumbnail := raw_thumbnail r;
     ep_description := raw_description_original r;
     ep_hasTranscript := payloadTruthy (raw_transcript r);
     ep_transcript := if payloadTruthy (raw_transcript r) then raw_transcript r else None |}.

Definition QUOTE : jsstring := [34%N].

Definition httpGet {A} (ev : event) (r : http A) : M A :=
  fun st =>
    match r with
    | HttpOk a => (Returned a, emit ev st)
    | HttpError detail => (Thrown detail, emit ev st)
    end.

(** The show-name test of [results.find]. *)
Definition showMatches (showNameLower : jsstring) (ep : rawEpisode) : bool :=
  let podcastName := toLowerCase (strOr (raw_podcast_title_original ep) []) in
  includes podcastName showNameLower || includes showNameLower podcastName.

(** The query: the show name in quotes, then the title. *)
Definition searchQuery (title showName : jsval) : jsstring :=
  if truthy showName
  then QUOTE ++ ToString showName ++ QUOTE ++ SPACE ++ ToString title
  else ToString title.

(** [searchListenNotes(title, showName)]; [None] is null. *)
Definition searchListenNotes (e : env) (title showName : jsval) : M (option episode) :=
  tryCatch
    (let query := searchQuery title showName in
     let* results := httpGet (EvSearch query) (listenNotesSearch e query) in
     match results with
     | Some (first :: rest) =>
         if truthy showName then
           match showName with
           | JStr s =>
               let showNameLower := toLowerCase s in
               match List.find (showMatches showNameLower) (first :: rest) with
               | Some matchingEpisode => ret (Some (toEpisode matchingEpisode showName))
               | None => ret (Some (toEpisode first showName))
               end
           | _ => throw (js "showName.toLowerCase is not a function")
           end
         else ret (Some (toEpisode first showName))
     | _ => ret None
     end)
    (fun _ => throw (js "Failed to search for podcast episode")).

(** [getEpisodeTranscript(episodeId)]; [None] is null. *)
Definition getEpisodeTranscript (e : env) (episodeId : jsstring) : M (option payload) :=
  tryCatch
    (let* transcript := httpGet (EvEpisode episodeId) (listenNotesEpisode e episodeId) in
     if payloadTruthy transcript then ret transcript else ret None)
    (fun _ => ret None).

(** [extractAudioSnippet(audioUrl, timestampSeconds, duration)] *)
Definition extractAudioSnippet (e : env) (audioUrl : jsstring)
    (timestampSeconds duration : Z) : M jsstring :=
  tryCatch
    (let startTime := Z.max 0 (timestampSeconds - 5) in
     let totalDuration := duration + 10 in
     run execAsync e (Curl audioUrl (fullAudioPath e)) in
     let* downloadSize := statSize (fullAudioPath e) in
     if (downloadSize <? 10000)%N then throw (js "Downloaded file too small") else
     run execAsync e (Ffmpeg startTime totalDuration (fullAudioPath e) (snippetPath e)) in
     run tryCatch (unlink (fullAudioPath e)) (fun _ => ret tt) in
     let* size := statSize (snippetPath e) in
     if (size <? 1000)%N
     then throw (js "Audio snippet too small - extraction may have failed")
     else ret (snippetPath e))
    (fun message =>
       run cleanupTempFiles [fullAudioPath e; snippetPath e] in
       throw (js "Failed to extract audio snippet: " ++ message)).

(** [transcribeWithWhisper(audioPath)] *)
Definition transcribeWithWhisper (e : env) (path : jsstring) : M jsstring :=
  tryCatch
    (run statSize path in
     httpGet (EvTranscribe path) (whisper e path))
    (fun detail => throw (js "Failed to transcribe audio: " ++ detail)).

(** [summarizeTranscript(transcript, title)] *)
Definition summarizeTranscript (e : env) (transcript : jsstring) (title : jsval)
    : M (list jsstring) :=
  tryCatch
    (let* content := httpGet (EvSummarize transcript title) (chatCompletion e transcript title) in
     ret (parseBullets content))
    (fun detail => throw (js "Failed to summarize transcript: " ++ detail)).

(** [logToSupabase(data)], not awaited and never throwing. *)
Definition logToSupabase (title showName : jsval) (timestamp : Z) (spotifyUrl : jsval)
    : M unit :=
  modify (emit (EvLog title showName timestamp spotifyUrl)).

(** ** The handler of POST /process-insight *)

(** [req.body] *)
Record request := {
  title : jsval;
  showName : jsval;
  timestamp : jsval;
  spotifyUrl : jsval
}.

(** The [data] object of a successful response; [None] is null or an absent
    key. *)
Record insight := {
  episodeTitle : jsval;
  insightShowName : jsval;
  thumbnail : option jsstring;
  transcriptText : option jsstring;
  summary : option (list jsstring);
  timestampSeconds : Z;
  manualMode : option bool;
  note : option jsstring
}.

(** [{ success: false, message }] or [{ success: true, data }] *)
Inductive body :=
  | Failure (message : jsstring)
  | Success (data : insight).

Record response := { status : Z; payloadOf : body }.

Definition success (r : response) : bool :=
  match payloadOf r with
  | Success _ => true
  | Failure _ => false
  end.

(** [!transcript || transcript.trim().length === 0] *)
Definition isBlank (transcript : option jsstring) : bool :=
  match transcript with
  | None => true
  | Some s => negb (nonEmpty s) || (length (trim s) =? 0)%nat
  end.

(** The response of the manual mode. *)
Definition manualResponse (req : request) (ts : Z) : response :=
  {| status := 200;
     payloadOf := Success
       {| episodeTitle := title req;
          insightShowName := jsor (showName req) (JStr (js "Unknown Show"));
          thumbnail := None;
          transcriptText := None;
          summary := None;
          timestampSeconds := ts;
          manualMode := Some true;
          note := Some (js "Podcast not found in database. You can add your own notes!") |} |}.

(** The response with the processed data: title and show as the caller gave
    them, the show of the search result only when the caller gave none. *)
Definition insightResponse (req : request) (ts : Z) (ep : episode)
    (transcript : option jsstring) (bullets : list jsstring) : response :=
  {| status := 200;
     payloadOf := Success
       {| episodeTitle := title req;
          insightShowName := jsor (showName req) (ep_showName ep);
          thumbnail := ep_thumbnail ep;
          transcriptText := transcript;
          summary := Some bullets;
          timestampSeconds := ts;
          manualMode := None;
          note := None |} |}.

(** Step 2: the transcript of the search service, if it has one. *)
Definition existingTranscript (e : env) (ts : Z) (ep : episode)
    : M (option jsstring) :=
  if ep_hasTranscript ep then
    let* fullTranscript := getEpisodeTranscript e (ep_id ep) in
    match fullTranscript with
    | Some p => ret (extractTranscriptSegment p ts 30)
    | None => ret None
    end
  else ret None.

(** Step 3: without a transcript, the audio path. [inl] is a response
    returned from inside the step. *)
Definition audioFallback (e : env) (ts : Z) (ep : episode)
    (transcript : option jsstring) : M (response + option jsstring) :=
  if negb (optTruthy transcript) then
    match optTruthy (ep_audioUrl ep), ep_audioUrl ep with
    | true, Some audioUrl =>
        let* path := extractAudioSnippet e audioUrl ts 30 in
        run modify (setAudioPath (Some path)) in
        let* text := transcribeWithWhisper e path in
        ret (inr (Some text))
    | _, _ =>
        ret (inl {| status := 404;
                    payloadOf := Failure (js "No audio URL available for this episode") |})
    end
  else ret (inr transcript).

(** Steps 2 and 3. *)
Definition acquireTranscript (e : env) (ts : Z) (ep : episode)
    : M (response + option jsstring) :=
  let* transcript := existingTranscript e ts ep in
  audioFallback e ts ep transcript.

(** The check before step 4, step 4 and the response. *)
Definition summarizeAndRespond (e : env) (req : request) (ts : Z) (ep : episode)
    (transcript : option jsstring) : M response :=
  if isBlank transcript then
    ret {| status := 500;
           payloadOf := Failure (js "Failed to get transcript for this segment") |}
  else
    let text := default [] transcript in
    let* bullets := summarizeTranscript e text (title req) in
    run logToSupabase (title req) (showName req) ts (spotifyUrl req) in
    ret (insightResponse req ts ep transcript bullets).

(** The body of the [try] block. *)
Definition tryBody (e : env) (req : request) (ts : Z) : M response :=
  let* found := searchListenNotes e (title req) (jsor (showName req) (JStr [])) in
  match found with
  | None =>
      run logToSupabase (title req) (showName req) ts (spotifyUrl req) in
      ret (manualResponse req ts)
  | Some ep =>
      let* r := acquireTranscript e ts ep in
      match r with
      | inl early => ret early
      | inr transcript => summarizeAndRespond e req ts ep transcript
      end
  end.

(** The [catch] block. *)
Definition onError (message : jsstring) : M response :=
  ret {| status := 500;
         payloadOf := Failure (if nonEmpty message then message
                               else js "Failed to process insight") |}.

(** The [finally] block. *)
Definition releaseAudio : M unit :=
  let* st := get in
  match audioPath st with
  | Some path => if nonEmpty path then cleanupTempFiles [path] else ret tt
  | None => ret tt
  end.

(** The handler once [timestampSeconds] is known. *)
Definition pipeline (e : env) (req : request) (ts : Z) : M response :=
  run modify (setAudioPath None) in
  finally (tryCatch (tryBody e req ts) onError) releaseAudio.

(** [app.post('/process-insight', ...)] *)
Definition processInsight (e : env) (req : request) : M response :=
  if negb (truthy (title req)) then
    ret {| status := 400; payloadOf := Failure (js "Title is required") |}
  else
    pipeline e req (parseIntOrZero (timestamp req)).

(** One request against a temporary directory with the given content. *)
Definition initial (fs : gmap (list N) N) : state :=
  {| files := fs; trace := []; audioPath := None |}.

Definition handle (e : env) (req : request) (fs : gmap (list N) N)
    : outcome response * state :=
  processInsight e req (initial fs).

(** The value of the variable [transcript] when control reaches the check
    before step 4, if it does. *)
Definition transcriptAtCheck (e : env) (req : request) (fs : gmap (list N) N)
    : option (option jsstring) :=
  if negb (truthy (title req)) then None else
  let ts := parseIntOrZero (timestamp req) in
  match searchListenNotes e (title req) (jsor (showName req) (JStr []))
          (setAudioPath None (initial fs)) with
  | (Returned (Some ep), st1) =>
      match acquireTranscript e ts ep st1 with
      | (Returned (inr transcript), _) => Some transcript
      | _ => None
      end
  | _ => None
  end.

(** The episode the search resolves for a request, if any. *)
Definition resolved (e : env) (req : request) : option episode :=
  match searchListenNotes e (title req) (jsor (showName req) (JStr []))
          (initial ∅) with
  | (Returned found, _) => found
  | _ => None
  end.

(** The output files of the subprocesses that left a file behind. *)
Definition createdFiles (e : env) (tr : list event) : list jsstring :=
  flat_map (fun ev =>
              match ev with
              | EvExec c => match written (exec e c) with
                            | Some _ => [outputOf c]
                            | None => []
                            end
              | _ => []
              end) tr.

(** ** The wording of the specification, for comparison *)

(** A segment's interval [start, end) meets the window
    [timestampSeconds - 5, timestampSeconds + duration + 5]. *)
Definition overlapsWindow (timestampSeconds duration : Z) (seg : segment) : bool :=
  (segStart seg <=? timestampSeconds + duration + 5) &&
  (timestampSeconds - 5 <? segEnd seg).

(** The structured branch as the specification words it. *)
Definition extractOverlapping (segs : list segment) (timestampSeconds duration : Z)
    : option jsstring :=
  Some (join SPACE (List.map segText
                      (List.filter (overlapsWindow timestampSeconds duration) segs))).

(** The whitespace-delimited tokens of a string. *)
Fixpoint tokensFrom (s : jsstring) (current : jsstring) : list jsstring :=
  match s with
  | [] => if nonEmpty current then [rev current] else []
  | c :: r =>
      if isWhiteSpace c
      then (if nonEmpty current then rev current :: tokensFrom r [] else tokensFrom r [])
      else tokensFrom r (c :: current)
  end.

Definition whitespaceTokens (s : jsstring) : list jsstring := tokensFrom s [].

(** The flat branch as the specification words it: the tokens from
    max(0, floor(t/60*150) - 25) to min(count, floor(t/60*150) + 75). *)
Definition claimedFlatSegment (s : jsstring) (t : Z) : jsstring :=
  let tokens := whitespaceTokens s in
  let wordIndex := t * 150 / 60 in
  join SPACE (slice tokens (Z.max 0 (wordIndex - 25))
                (Z.min (Z.of_nat (length tokens)) (wordIndex + 75))).

(** A model answer of several lines. *)
Definition lines (l : list jsstring) : jsstring := join [10%N] l.

(** ** The earlier revision of the server

    The source file also holds the earlier revision of the same functions.
    The definitions that differ are given here, under the same names. *)
Module Rev1.

Definition searchQuery (title showName : jsval) : jsstring :=
  trim (ToString title ++ SPACE ++ ToString showName).

(** The first result is taken. *)
Definition searchListenNotes (e : env) (title showName : jsval) : M (option episode) :=
  let query := searchQuery title showName in
  tryCatch
    (let* results := httpGet (EvSearch query) (listenNotesSearch e query) in
     match results with
     | Some (first :: rest) => ret (Some (toEpisode first showName))
     | _ => ret None
     end)
    (fun _ => throw (js "Failed to search for podcast episode")).

Definition tempAudioPath (e : env) : jsstring :=
  TEMP_DIR e ++ js "/audio_" ++ decimal (now e) ++ js ".mp3".

(** yt-dlp first; when it fails, curl and ffmpeg. No size is checked. *)
Definition extractAudioSnippet (e : env) (audioUrl : jsstring)
    (timestampSeconds duration : Z) : M jsstring :=
  tryCatch
    (let startTime := Z.max 0 (timestampSeconds - 5) in
     let totalDuration := duration + 10 in
     let* fallback :=
       tryCatch
         (run execAsync e (YtDlp startTime totalDuration (tempAudioPath e) audioUrl) in
          ret None)
         (fun _ =>
            run execAsync e (Curl audioUrl (tempAudioPath e)) in
            run execAsync e (Ffmpeg startTime totalDuration (tempAudioPath e) (snippetPath e)) in
            run tryCatch (unlink (tempAudioPath e)) (fun _ => ret tt) in
            ret (Some (snippetPath e))) in
     match fallback with
     | Some path => ret path
     | None =>
         run rename (tempAudioPath e) (snippetPath e) in
         ret (snippetPath e)
     end)
    (fun _ =>
       run cleanupTempFiles [tempAudioPath e; snippetPath e] in
       throw (js "Failed to extract audio snippet")).

Definition transcribeWithWhisper (e : env) (path : jsstring) : M jsstring :=
  tryCatch
    (httpGet (EvTranscribe path) (whisper e path))
    (fun _ => throw (js "Failed to transcribe audio")).

(** Empty bullets are not dropped. *)
Definition parseBullets (content : jsstring) : list jsstring :=
  let bullets :=
    take 3 (List.map (fun line => trim (stripMarker line))
              (List.filter isBulletLine (split 10 content))) in
  match bullets with
  | [] => [trim content]
  | _ => bullets
  end.

Definition summarizeTranscript (e : env) (transcript : jsstring) (title : jsval)
    : M (list jsstring) :=
  tryCatch
    (let* content := httpGet (EvSummarize transcript title) (chatCompletion e transcript title) in
     ret (parseBullets content))
    (fun _ => throw (js "Failed to summarize transcript")).

Definition audioFallback (e : env) (ts : Z) (ep : episode)
    (transcript : option jsstring) : M (response + option jsstring) :=
  if negb (optTruthy transcript) then
    match optTruthy (ep_audioUrl ep), ep_audioUrl ep with
    | true, Some audioUrl =>
        let* path := extractAudioSnippet e audioUrl ts 30 in
        run modify (setAudioPath (Some path)) in
        let* text := transcribeWithWhisper e path in
        ret (inr (Some text))
    | _, _ =>
        ret (inl {| status := 404;
                    payloadOf := Failure (js "No audio URL available for this episode") |})
    end
  else ret (inr transcript).

Definition acquireTranscript (e : env) (ts : Z) (ep : episode)
    : M (response + option jsstring) :=
  let* transcript := existingTranscript e ts ep in
  audioFallback e ts ep transcript.

Definition optVal (s : option jsstring) : jsval :=
  match s with
  | Some x => JStr x
  | None => JUndefined
  end.

(** The response carries the title and show the search resolved. *)
Definition summarizeAndRespond (e : env) (req : request) (ts : Z) (ep : episode)
    (transcript : option jsstring) : M response :=
  if isBlank transcript then
    ret {| status := 500;
           payloadOf := Failure (js "Failed to get transcript for this segment") |}
  else
    let text := default [] transcript in
    let* bullets := summarizeTranscript e text (title req) in
    run logToSupabase (title req) (showName req) ts (spotifyUrl req) in
    ret {| status := 200;
           payloadOf := Success
             {| episodeTitle := optVal (ep_title ep);
                insightShowName := ep_showName ep;
                thumbnail := ep_thumbnail ep;
                transcriptText := transcript;
                summary := Some bullets;
                timestampSeconds := ts;
                manualMode := None;
                note := None |} |}.

(** No match is an error response here. *)
Definition tryBody (e : env) (req : request) (ts : Z) : M response :=
  let* found := searchListenNotes e (title req) (jsor (showName req) (JStr [])) in
  match found with
  | None =>
      ret {| status := 404;
             payloadOf := Failure (js "Could not find podcast episode in Listen Notes") |}
  | Some ep =>
      let* r := acquireTranscript e ts ep in
      match r with
      | inl early => ret early
      | inr transcript => summarizeAndRespond e req ts ep transcript
      end
  end.

Definition pipeline (e : env) (req : request) (ts : Z) : M response :=
  run modify (setAudioPath None) in
  finally (tryCatch (tryBody e req ts) onError) releaseAudio.

Definition processInsight (e : env) (req : request) : M response :=
  if negb (truthy (title req)) then
    ret {| status := 400; payloadOf := Failure (js "Title is required") |}
  else
    pipeline e req (parseIntOrZero (timestamp req)).

Definition handle (e : env) (req : request) (fs : gmap (list N) N)
    : outcome response * state :=
  processInsight e req (initial fs).

End Rev1.

(** ** Vocabulary of the proofs *)

(** A double that is not below zero (an infinity or NaN counts). *)
Definition notNegative (x : spec_float) : Prop :=
  match x with
  | S754_finite s _ _ => s = false
  | _ => True
  end.

(** The index is floor(5t/2) or one less. *)
Definition indexWithinOne (t : Z) : bool :=
  match approximateWordIndex t with
  | Some i => (5 * t / 2 - 1 <=? i) && (i <=? 5 * t / 2)
  | None => false
  end.

(** The check of the first [n] seconds, one after the other. *)
Definition checkUpTo (n : N) : Z * bool :=
  N.iter n (fun p => (fst p + 1, snd p && indexWithinOne (fst p))) (0, true).

(** A segment from second 0 to second 100. *)
Definition longSegment : segment :=
  {| seg_start_time := None; seg_start := Some 0;
     seg_end_time := None; seg_end := Some 100;
     seg_text := Some (js "x"); seg_words := None |}.

(** The search answers with no result: the list is missing or empty. *)
Definition noCandidates (r : http (option (list rawEpisode))) : Prop :=
  r = HttpOk None \/ r = HttpOk (Some []).

(** Every run of [m] relates the state before to the state after. *)
Definition respects (R : state -> state -> Prop) {A} (m : M A) : Prop :=
  forall st r st', m st = (r, st') -> R st st'.

(** What happens between two states: the calls made all satisfy [P]; the
    temporary directory is the same if [keepFiles] is set, the variable
    [audioPath] is the same if [keepAudio] is set. *)
Definition during (keepFiles keepAudio : bool) (P : event -> Prop)
    (st st' : state) : Prop :=
  (keepFiles = true -> files st' = files st) /\
  (keepAudio = true -> audioPath st' = audioPath st) /\
  exists evs, trace st' = trace st ++ evs /\ Forall P evs.

Definition notSummarize (ev : event) : Prop :=
  match ev with
  | EvSummarize _ _ => False
  | _ => True
  end.

(** A subprocess, if the event is one, writes one of the given paths. *)
Definition writesOnly (paths : list jsstring) (ev : event) : Prop :=
  match ev with
  | EvExec c => In (outputOf c) paths
  | _ => True
  end.

(** Every file the run created is gone, or is the one [audioPath] names. *)
Definition released (e : env) (st : state) : Prop :=
  forall p, In p (createdFiles e (trace st)) ->
            files st !! p = None \/ (audioPath st = Some p /\ nonEmpty p = true).

(** ** Sample requests and environments *)

Definition sampleResult : rawEpisode :=
  {| raw_id := js "ep1";
     raw_title_original := Some (js "Resolved title");
     raw_podcast_title_original := Some (js "Resolved show");
     raw_audio := Some (js "http://host/episode.mp3");
     raw_thumbnail := Some (js "http://host/cover.png");
     raw_description_original := None;
     raw_transcript := None |}.

(** Download and trimming succeed with the given sizes; the transcription
    and the model answer with the given texts. *)
Definition sampleEnv (results : list rawEpisode) (downloaded : N)
    (heard answer : jsstring) : env :=
  {| dirname := js "/srv";
     now := 1700000000000%N;
     exec := fun c =>
               match c with
               | Curl _ _ => {| exitOf := Exit0; written := Some downloaded |}
               | _ => {| exitOf := Exit0; written := Some 5000%N |}
               end;
     listenNotesSearch := fun _ => HttpOk (Some results);
     listenNotesEpisode := fun _ => HttpOk None;
     whisper := fun _ => HttpOk heard;
     chatCompletion := fun _ _ => HttpOk answer |}.

(** Every subprocess exits with success and leaves a file of 12 bytes. *)
Definition tinyEnv : env :=
  {| dirname := js "/srv";
     now := 1700000000000%N;
     exec := fun _ => {| exitOf := Exit0; written := Some 12%N |};
     listenNotesSearch := fun _ => HttpOk (Some [sampleResult]);
     listenNotesEpisode := fun _ => HttpOk None;
     whisper := fun _ => HttpOk (js "hello world");
     chatCompletion := fun _ _ => HttpOk (js "- one") |}.

Definition goodEnv : env :=
  sampleEnv [sampleResult] 50000 (js "hello world")
    (lines [js "- one"; js "- two"; js "- three"]).

Definition sampleRequest (ts : jsval) : request :=
  {| title := JStr (js "My title");
     showName := JStr (js "My show");
     timestamp := ts;
     spotifyUrl := JUndefined |}.

Definition untitledRequest : request :=
  {| title := JStr [];
     showName := JStr (js "My show");
     timestamp := JNum 12;
     spotifyUrl := JUndefined |}.

(** A decimal digit. *)
Definition digitChar (c : N) : Prop := (48 <= c <= 57)%N.

(** The place of a call in the pipeline. *)
Definition stageNumber (ev : event) : nat :=
  match ev with
  | EvSearch _ => 0
  | EvEpisode _ => 1
  | EvExec (Curl _ _) => 2
  | EvExec (YtDlp _ _ _ _) => 2
  | EvExec (Ffmpeg _ _ _ _) => 3
  | EvTranscribe _ => 4
  | EvSummarize _ _ => 5
  | EvLog _ _ _ _ => 6
  end.

(** Calls in strictly increasing pipeline order, all from [lo] up to but
    not including [hi]. *)
Definition inOrder (lo hi : nat) (evs : list event) : Prop :=
  StronglySorted lt (List.map stageNumber evs) /\
  Forall (fun ev => (lo <= stageNumber ev < hi)%nat) evs.

(** Every run of [m] adds such calls to the list, and nothing else. *)
Definition emitsInOrder (lo hi : nat) {A} (m : M A) : Prop :=
  forall st r st', m st = (r, st') ->
    exists evs, trace st' = trace st ++ evs /\ inOrder lo hi evs.

Definition notLog (ev : event) : Prop :=
  match ev with
  | EvLog _ _ _ _ => False
  | _ => True
  end.

(** Neither a subprocess nor a transcription. *)
Definition notAudio (ev : event) : Prop :=
  match ev with
  | EvExec _ | EvTranscribe _ => False
  | _ => True
  end.

Definition noEvent (ev : event) : Prop := False.

(** ** Saving to Notion: POST /save-to-notion and its helper *)

(** [s.padStart(2, '0')] *)
Definition padStart2 (s : jsstring) : jsstring :=
  List.repeat 48%N (2 - length s) ++ s.

(** [formatTime(seconds)] for a whole number of seconds, or for a missing
    argument ([None]). The minutes are the floor of the binary64 quotient,
    the seconds the remainder with the sign of the dividend; numbers are
    printed with all their digits (below 10^21). *)
Definition formatTime (seconds : option Z) : jsstring :=
  match seconds with
  | None => js "NaN:NaN"
  | Some s =>
      let d := double_of_Z s in
      match Math_floor (fdiv d (double_of_Z 60)), Math_floor d with
      | Some mins, Some whole =>
          numberToString mins ++ js ":" ++ padStart2 (numberToString (Z.rem whole 60))
      | _, _ =>
          (if s <? 0 then js "-Infinity" else js "Infinity") ++ js ":NaN"
      end
  end.

(** The [summary] of a request body: absent, a string, or an array of
    strings. *)
Inductive summaryValue :=
  | NoSummary
  | SummaryText (s : jsstring)
  | SummaryList (l : list jsstring).

(** The body of POST /save-to-notion; [timestampSeconds] is a whole number or
    left out. *)
Record saveRequest := {
  save_title : jsval;
  save_showName : jsval;
  save_transcript : jsval;
  save_summary : summaryValue;
  save_spotifyUrl : jsval;
  save_thumbnail : jsval;
  save_timestampSeconds : option Z;
  save_manualMode : jsval
}.

(** The blocks of a Notion page the handler builds. *)
Inductive block :=
  | Heading2 (content : jsstring)
  | Paragraph (content : jsstring)
  | Divider
  | Callout (emoji content : jsstring).

(** The argument of [notion.pages.create]. *)
Record page := {
  page_database_id : jsstring;
  page_icon : jsstring;
  page_cover : option jsval;
  page_name : jsstring;
  page_show : jsval;
  page_spotify_url : jsval;
  page_timestamp : Z;
  page_saved : jsstring;
  page_children : list block
}.

(** The environment of the handler: the configured database, the clock and
    the Notion service. *)
Record notionEnv := {
  NOTION_DATABASE_ID : option jsstring;
  isoNow : jsstring;
  pagesCreate : page -> http (jsstring * jsstring)
}.

(** The string literals of the handler, as the source file spells them. *)
Definition BULLET_PREFIX : jsstring := [8218; 196; 162; 32]%N.
Definition KEY_TAKEAWAYS : jsstring :=
  [8218; 250; 174]%N ++ js " Key Takeaways".
Definition TRANSCRIPT_HEADING : jsstring :=
  [63743; 252; 236; 249]%N ++ js " Transcript".
Definition YOUR_NOTES : jsstring :=
  [63743; 252; 236; 249]%N ++ js " Your Notes".
Definition NOTES_PLACEHOLDER : jsstring :=
  js "(Podcast not found in database - add your own notes here!)".
Definition HEADPHONES : jsstring := [63743; 252; 233; 223]%N.
Definition PENCIL : jsstring := [8218; 250; 232; 212; 8719; 232]%N.
Definition LIGHT_BULB : jsstring := [63743; 252; 237; 176]%N.

(** [Array.isArray(summary) ? summary.map(s => `<bullet> ${s}`).join('\n')
    : summary]; [None] when it is not a string. *)
Definition summaryText (summary : summaryValue) : option jsstring :=
  match summary with
  | SummaryList l => Some (join [10%N] (List.map (fun s => BULLET_PREFIX ++ s) l))
  | SummaryText s => Some s
  | NoSummary => None
  end.

(** [summary && summary.length > 0] *)
Definition hasSummary (summary : summaryValue) : bool :=
  match summary with
  | NoSummary => false
  | SummaryText s => nonEmpty s
  | SummaryList l => match l with [] => false | _ => true end
  end.

(** [v.substring(0, n)]; a value that is not a string has no such method. *)
Definition substring0 (name : string) (v : jsval) (n : nat) : outcome jsstring :=
  match v with
  | JStr s => Returned (take n s)
  | _ => Thrown (js name ++ js ".substring is not a function")
  end.

(** The blocks of the page, in the order they are pushed. *)
Definition pageChildren (req : saveRequest) : outcome (list block) :=
  let summaryBlocks :=
    if hasSummary (save_summary req)
    then [Heading2 KEY_TAKEAWAYS;
          Paragraph (default [] (summaryText (save_summary req)));
          Divider]
    else [] in
  let callout :=
    Callout HEADPHONES
      (js "From " ++ QUOTE
         ++ ToString (jsor (save_showName req) (JStr (js "Unknown Show")))
         ++ QUOTE ++ js " at " ++ formatTime (save_timestampSeconds req)) in
  if truthy (save_transcript req) then
    match substring0 "transcript" (save_transcript req) 2000 with
    | Returned text =>
        Returned (summaryBlocks
                    ++ [Heading2 TRANSCRIPT_HEADING; Paragraph text] ++ [callout])
    | Thrown message => Thrown message
    end
  else
    Returned (summaryBlocks
                ++ [Heading2 YOUR_NOTES; Paragraph NOTES_PLACEHOLDER] ++ [callout]).

(** [timestampSeconds || 0] *)
Definition timestampOrZero (seconds : option Z) : Z := default 0 seconds.

(** The [try] block up to the call: the page to create, or what is thrown
    before the call. *)
Definition buildPage (ne : notionEnv) (req : saveRequest) : outcome page :=
  match NOTION_DATABASE_ID ne with
  | Some (c :: id) =>
      match pageChildren req with
      | Returned children =>
          match substring0 "title" (save_title req) 100 with
          | Returned name =>
              Returned
                {| page_database_id := c :: id;
                   page_icon := if truthy (save_manualMode req) then PENCIL else LIGHT_BULB;
                   page_cover := if truthy (save_thumbnail req)
                                 then Some (save_thumbnail req) else None;
                   page_name := name;
                   page_show := jsor (save_showName req) (JStr (js "Unknown Show"));
                   page_spotify_url := jsor (save_spotifyUrl req) JNull;
                   page_timestamp := timestampOrZero (save_timestampSeconds req);
                   page_saved := isoNow ne;
                   page_children := children |}
          | Thrown message => Thrown message
          end
      | Thrown message => Thrown message
      end
  | _ => Thrown (js "Notion database ID not configured")
  end.

(** The body of a response of /save-to-notion. *)
Inductive saveBody :=
  | SaveFailure (message : jsstring)
  | Saved (notionPageId notionUrl : jsstring).

Record saveResponse := { saveStatus : Z; saveBodyOf : saveBody }.

(** [error.message || 'Failed to save to Notion'] *)
Definition saveError (message : jsstring) : saveResponse :=
  {| saveStatus := 500;
     saveBodyOf := SaveFailure (if nonEmpty message then message
                                else js "Failed to save to Notion") |}.

(** [app.post('/save-to-notion', ...)]: the response and the pages handed
    to [notion.pages.create]. *)
Definition saveToNotion (ne : notionEnv) (req : saveRequest)
    : saveResponse * list page :=
  if negb (truthy (save_title req)) then
    ({| saveStatus := 400; saveBodyOf := SaveFailure (js "Title is required") |}, [])
  else
    match buildPage ne req with
    | Thrown message => (saveError message, [])
    | Returned pg =>
        match pagesCreate ne pg with
        | HttpOk (id, url) =>
            ({| saveStatus := 200; saveBodyOf := Saved id url |}, [pg])
        | HttpError detail => (saveError detail, [pg])
        end
    end.

(** ** The extension: what it sends and what it keeps *)

(** A JavaScript number as far as this development determines it: a whole
    number up to 2^53 in magnitude (which a double holds exactly), NaN, or a
    value that is not determined here. Not determined are: a literal with a
    fraction or an exponent, an infinity, a whole number beyond 2^53, and
    every result of arithmetic with such a value; it may be any number, an
    infinity or NaN (the sum of two infinities of opposite sign is NaN). *)
Inductive number :=
  | Whole (z : Z)
  | NaN
  | Undetermined.

Definition exactNumber (z : Z) : number :=
  if Z.abs z <=? 2 ^ 53 then Whole z else Undetermined.

(** All the characters are digits of the radix, and there is one at least. *)
Definition digitsOnly (radix : N) (s : jsstring) : option N :=
  if forallb (fun c => match digitValue radix c with Some _ => true | None => false end) s
  then parseDigits radix s None
  else None.

Definition exactOrNaN (n : option N) : number :=
  match n with
  | Some v => exactNumber (Z.of_N v)
  | None => NaN
  end.

(** The part of a decimal literal after its integer digits: an optional
    fraction and an optional exponent, then the end. [seen] says whether a
    digit was read before. *)
Definition decimalTail (seen : bool) (rest : jsstring) : bool :=
  let '(seen1, afterFraction) :=
    match rest with
    | 46%N :: r => (seen || nonEmpty (takeWhile isDigit r), dropWhile isDigit r)
    | _ => (seen, rest)
    end in
  seen1 &&
  match afterFraction with
  | [] => true
  | c :: r =>
      if N.eqb c 101 || N.eqb c 69 then
        let digits :=
          match r with
          | 43%N :: r' => r'
          | 45%N :: r' => r'
          | _ => r
          end in
        nonEmpty digits && forallb isDigit digits
      else false
  end.

(** A decimal literal with its sign, or [Infinity]. *)
Definition decimalLiteral (t : jsstring) : number :=
  let '(neg, u) :=
    match t with
    | 45%N :: r => (true, r)
    | 43%N :: r => (false, r)
    | _ => (false, t)
    end in
  if bool_decide (u = js "Infinity") then Undetermined
  else
    let digits := takeWhile isDigit u in
    let rest := dropWhile isDigit u in
    match rest with
    | [] =>
        match parseDigits 10 digits None with
        | Some v => exactNumber (if neg then - Z.of_N v else Z.of_N v)
        | None => NaN
        end
    | _ => if decimalTail (nonEmpty digits) rest then Undetermined else NaN
    end.

(** [Number(s)] for a string: nothing but white space is 0, then the
    literals of radix 16, 8 and 2, and the decimal ones. *)
Definition Number_ (s : jsstring) : number :=
  match trim s with
  | [] => Whole 0
  | 48%N :: 120%N :: r => exactOrNaN (digitsOnly 16 r)
  | 48%N :: 88%N :: r => exactOrNaN (digitsOnly 16 r)
  | 48%N :: 111%N :: r => exactOrNaN (digitsOnly 8 r)
  | 48%N :: 79%N :: r => exactOrNaN (digitsOnly 8 r)
  | 48%N :: 98%N :: r => exactOrNaN (digitsOnly 2 r)
  | 48%N :: 66%N :: r => exactOrNaN (digitsOnly 2 r)
  | t => decimalLiteral t
  end.

(** [a * k] for a whole [k] that is not 0, and [a + b]: NaN when an operand
    is NaN, the exact result of two whole numbers when a double holds it, and
    not determined otherwise. *)
Definition times (a : number) (k : Z) : number :=
  match a with
  | Whole x => exactNumber (x * k)
  | other => other
  end.

Definition plus (a b : number) : number :=
  match a, b with
  | NaN, _ | _, NaN => NaN
  | Whole x, Whole y => exactNumber (x + y)
  | _, _ => Undetermined
  end.

(** [parseTimestamp(timeString)] of the content script; [None] is a missing
    text. *)
Definition parseTimestamp (timeString : option jsstring) : number :=
  match timeString with
  | None | Some [] => Whole 0
  | Some s =>
      match List.map Number_ (split 58 s) with
      | [h; m; sec] => plus (plus (times h 3600) (times m 60)) sec
      | [m; sec] => plus (times m 60) sec
      | [sec] => sec
      | _ => Whole 0
      end
  end.

(** [formatTimestamp(seconds)] of the popup, for a whole number of seconds:
    both parts padded to two characters. *)
Definition formatTimestamp (seconds : Z) : jsstring :=
  let d := double_of_Z seconds in
  match Math_floor (fdiv d (double_of_Z 60)), Math_floor d with
  | Some mins, Some whole =>
      padStart2 (numberToString mins) ++ js ":"
        ++ padStart2 (numberToString (Z.rem whole 60))
  | _, _ =>
      (if seconds <? 0 then js "-Infinity" else js "Infinity") ++ js ":NaN"
  end.

(** The [data] of [getSpotifyData()], which the popup and the background
    worker send to the server: three texts, the playback position (here a
    whole number of seconds) and a flag. *)
Record spotifyData := {
  sd_title : jsstring;
  sd_showName : jsstring;
  sd_timestamp : Z;
  sd_spotifyUrl : jsstring;
  sd_isPodcast : bool
}.

(** The request body the server reads from it. *)
Definition toRequest (data : spotifyData) : request :=
  {| title := JStr (sd_title data);
     showName := JStr (sd_showName data);
     timestamp := JNum (sd_timestamp data);
     spotifyUrl := JStr (sd_spotifyUrl data) |}.

(** An entry of [recentInsights]: the fields of the data sent, then those of
    the server's answer, and [timestamp] overwritten by the time of
    saving. *)
Record recentInsight := {
  entry_title : jsstring;
  entry_showName : jsstring;
  entry_spotifyUrl : jsstring;
  entry_isPodcast : bool;
  entry_result : body;
  entry_timestamp : jsstring
}.

Definition entryOf (isoNow : jsstring) (data : spotifyData) (r : response)
    : recentInsight :=
  {| entry_title := sd_title data;
     entry_showName := sd_showName data;
     entry_spotifyUrl := sd_spotifyUrl data;
     entry_isPodcast := sd_isPodcast data;
     entry_result := payloadOf r;
     entry_timestamp := isoNow |}.

(** [recentInsights.unshift(entry)], then the cut to ten entries. *)
Definition remember {A} (entry : A) (recentInsights : list A) : list A :=
  let l := entry :: recentInsights in
  if (10 <? length l)%nat then slice l 0 10 else l.

(** [response.ok] *)
Definition responseOk (r : response) : bool :=
  (200 <=? status r) && (status r <=? 299).

(** [error.message || fallback] for the body of a response that is not
    ok. *)
Definition errorMessage (b : body) (fallback : jsstring) : jsstring :=
  match b with
  | Failure (c :: message) => c :: message
  | _ => fallback
  end.

(** [handleProcessInsight(spotifyData)] of the background worker, given the
    server's response and the time: what it resolves or rejects with, and
    the list it keeps. *)
Definition handleProcessInsight (isoNow : jsstring) (data : spotifyData)
    (r : response) (recentInsights : list recentInsight)
    : outcome body * list recentInsight :=
  if responseOk r then
    (Returned (payloadOf r), remember (entryOf isoNow data r) recentInsights)
  else
    (Thrown (errorMessage (payloadOf r) (js "Failed to process insight")),
     recentInsights).

(** The list after a series of calls, each with its time, data and
    response. *)
Definition afterCalls (calls : list (jsstring * spotifyData * response))
    : list recentInsight :=
  foldl (fun l call => snd (handleProcessInsight call.1.1 call.1.2 call.2 l)) [] calls.

(** A text field of the processed data as a value; null and a missing key
    are both taken for false by /save-to-notion. *)
Definition textValue (o : option jsstring) : jsval :=
  match o with
  | Some s => JStr s
  | None => JNull
  end.

(** The body the popup's [handleSaveInsight] sends to /save-to-notion after a
    response of /process-insight that is ok. *)
Definition saveRequestOf (data : spotifyData) (b : body) : saveRequest :=
  match b with
  | Success d =>
      {| save_title := jsor (episodeTitle d) (JStr (sd_title data));
         save_showName := jsor (insightShowName d) (JStr (sd_showName data));
         save_transcript := textValue (transcriptText d);
         save_summary := match summary d with
                         | Some l => SummaryList l
                         | None => NoSummary
                         end;
         save_spotifyUrl := JStr (sd_spotifyUrl data);
         save_thumbnail := textValue (thumbnail d);
         save_timestampSeconds :=
           Some (if timestampSeconds d =? 0 then sd_timestamp data
                 else timestampSeconds d);
         save_manualMode :=
           JBool (match manualMode d with Some true => true | _ => false end) |}
  | Failure _ =>
      {| save_title := JStr (sd_title data);
         save_showName := JStr (sd_showName data);
         save_transcript := JUndefined;
         save_summary := NoSummary;
         save_spotifyUrl := JStr (sd_spotifyUrl data);
         save_thumbnail := JUndefined;
         save_timestampSeconds := Some (sd_timestamp data);
         save_manualMode := JBool false |}
  end.

(** The popup's [handleSaveInsight] from the response of /process-insight
    on: the error it shows, or the response of /save-to-notion; and the
    pages handed to Notion. *)
Definition handleSaveInsight (ne : notionEnv) (data : spotifyData) (r : response)
    : outcome saveResponse * list page :=
  if responseOk r then
    let saved := saveToNotion ne (saveRequestOf data (payloadOf r)) in
    if (200 <=? saveStatus saved.1) && (saveStatus saved.1 <=? 299)
    then (Returned saved.1, saved.2)
    else (Thrown (match saveBodyOf saved.1 with
                  | SaveFailure (c :: message) => c :: message
                  | _ => js "Failed to save to Notion"
                  end), saved.2)
  else
    (Thrown (errorMessage (payloadOf r) (js "Failed to process insight")), []).

(** What a line of the model's answer gives to the summary: for a bullet
    line, what the replacement of the marker and the trimming leave of it,
    unless that is empty. *)
Definition bulletOf (line : jsstring) : option jsstring :=
  if isBulletLine line then
    let bullet := trim (stripMarker line) in
    if nonEmpty bullet then Some bullet else None
  else None.

(** Only code units below 128; on such strings [toLowerCase] of the code
    changes the letters A to Z and nothing else. *)
Definition ascii (s : jsstring) : bool := forallb (fun c => (c <? 128)%N) s.

(** Sample values. *)
Definition otherResult : rawEpisode :=
  {| raw_id := js "ep0";
     raw_title_original := Some (js "Other title");
     raw_podcast_title_original := Some (js "Elsewhere");
     raw_audio := None;
     raw_thumbnail := None;
     raw_description_original := None;
     raw_transcript := None |}.

Definition laterResult : rawEpisode :=
  {| raw_id := js "ep2";
     raw_title_original := Some (js "Later title");
     raw_podcast_title_original := Some (js "Resolved show, again");
     raw_audio := None;
     raw_thumbnail := None;
     raw_description_original := None;
     raw_transcript := None |}.

Definition threeResultsEnv : env :=
  sampleEnv [otherResult; sampleResult; laterResult] 50000 (js "hello world")
    (lines [js "- one"]).

Definition sampleData : spotifyData :=
  {| sd_title := js "Deep Work";
     sd_showName := js "Focus Radio";
     sd_timestamp := 75;
     sd_spotifyUrl := js "https://open.spotify.com/episode/1";
     sd_isPodcast := true |}.

Definition sampleNotion : notionEnv :=
  {| NOTION_DATABASE_ID := Some (js "db1");
     isoNow := js "2024-01-01T00:00:00.000Z";
     pagesCreate := fun _ => HttpOk (js "page1", js "https://notion.so/page1") |}.

Definition sampleSave : saveRequest :=
  {| save_title := JStr (js "Deep Work");
     save_showName := JStr (js "Focus Radio");
     save_transcript := JStr (js "focus is a skill");
     save_summary := SummaryList [js "Focus is a skill"; js "Protect your time"];
     save_spotifyUrl := JUndefined;
     save_thumbnail := JUndefined;
     save_timestampSeconds := Some 75;
     save_manualMode := JBool false |}.

Definition samplePage : page :=
  match buildPage sampleNotion sampleSave with
  | Returned pg => pg
  | Thrown _ =>
      {| page_database_id := []; page_icon := []; page_cover := None;
         page_name := []; page_show := JNull; page_spotify_url := JNull;
         page_timestamp := 0; page_saved := []; page_children := [] |}
  end.

Definition sampleProcessed : response :=
  match (handle goodEnv (toRequest sampleData) ∅).1 with
  | Returned r => r
  | Thrown _ => {| status := 500; payloadOf := Failure [] |}
  end.

(** A check of all whole numbers from 0 up to but not including [n]. *)
Definition allBelow (p : Z -> bool) (n : N) : Z * bool :=
  N.iter n (fun acc => (fst acc + 1, snd acc && p (fst acc))) (0, true).

Fixpoint eqString (a b : jsstring) : bool :=
  match a, b with
  | [], [] => true
  | x :: a', y :: b' => N.eqb x y && eqString a' b'
  | _, _ => false
  end.

(** The quotient by 60 and the whole part of [n], as the doubles give
    them. *)
Definition minutesOk (n : Z) : bool :=
  match Math_floor (fdiv (double_of_Z n) (double_of_Z 60)), Math_floor (double_of_Z n) with
  | Some mins, Some whole => (mins =? n / 60) && (whole =? n)
  | _, _ => false
  end.

(** A number below 60 padded to two characters is its two digits. *)
Definition twoDigitsOk (r : Z) : bool :=
  eqString (padStart2 (numberToString r))
    [(48 + Z.to_N (r / 10))%N; (48 + Z.to_N (r mod 10))%N].

(** * Properties *)

(** ** Lists and strings *)

Lemma filter_none {A} (f : A -> bool) (l : list A) :
  (forall x, In x l -> f x = false) -> List.filter f l = [].
Proof.
  induction l as [|x l IH]; intros H; simpl; [reflexivity|].
  rewrite (H x) by (left; reflexivity).
  apply IH. intros y Hy. apply H. right. exact Hy.
Qed.

Lemma filter_sublist {A} (f : A -> bool) (l : list A) :
  sublist (List.filter f l) l.
Proof.
  induction l as [|x l IH]; simpl.
  - constructor.
  - destruct (f x); [apply sublist_skip | apply sublist_cons]; exact IH.
Qed.

(** A slice is a contiguous part of the list. *)
Lemma slice_contiguous {A} (l : list A) (s e : Z) :
  exists pre post, l = pre ++ slice l s e ++ post.
Proof.
  unfold slice.
  match goal with
  | |- context [take ?n0 (drop ?k0 l)] => set (n := n0); set (k := k0)
  end.
  exists (take k l), (drop n (drop k l)).
  rewrite (take_drop n (drop k l)). rewrite take_drop. reflexivity.
Qed.

(** With indices that are not negative, a slice is the range between them. *)
Lemma slice_range {A} (l : list A) (s e : Z) :
  0 <= s -> 0 <= e ->
  slice l s e = drop (Z.to_nat s) (take (Z.to_nat e) l).
Proof.
  intros Hs He. unfold slice.
  destruct (Z.ltb_spec s 0) as [?|_]; [lia|].
  destruct (Z.ltb_spec e 0) as [?|_]; [lia|].
  set (len := Z.of_nat (length l)).
  assert (Hlen : length l = Z.to_nat len) by (unfold len; lia).
  destruct (Z.le_gt_cases s len) as [Hsl|Hsl].
  - rewrite (Z.min_l s len) by lia.
    destruct (Z.le_gt_cases (Z.min e len) s) as [Hes|Hes].
    + replace (Z.to_nat (Z.min e len - s)) with 0%nat by lia.
      simpl. symmetry. apply drop_ge. rewrite length_take. lia.
    + rewrite take_drop_commute.
      replace (Z.to_nat s + Z.to_nat (Z.min e len - s))%nat
        with (Z.to_nat (Z.min e len)) by lia.
      f_equal.
      destruct (Z.le_gt_cases e len).
      * rewrite Z.min_l by lia. reflexivity.
      * rewrite Z.min_r by lia.
        rewrite !take_ge by lia. reflexivity.
  - rewrite (Z.min_r s len) by lia.
    replace (Z.to_nat (Z.min e len - len)) with 0%nat by lia.
    simpl. symmetry. apply drop_ge. rewrite length_take. lia.
Qed.

(** ** The word index *)

(** The sign of a rounded result is the sign that was asked for. *)
Lemma binary_round_aux_sign (sx : bool) (mx ex : Z) (lx : location) :
  match binary_round_aux 53 1024 sx mx ex lx with
  | S754_finite s _ _ => s = sx
  | _ => True
  end.
Proof.
  unfold binary_round_aux.
  destruct (shr_fexp 53 1024 mx ex lx) as [mrs e1].
  destruct (shr_fexp 53 1024 _ e1 loc_Exact) as [mrs2 e2].
  destruct (shr_m mrs2); [exact I | | exact I].
  destruct (e2 <=? 1024 - 53); [reflexivity | exact I].
Qed.

Lemma double_of_Z_notNegative (z : Z) : 0 <= z -> notNegative (double_of_Z z).
Proof.
  intros Hz. destruct z as [|m|m]; [exact I | | lia].
  unfold double_of_Z, binary_normalize, binary_round.
  destruct (shl_align _ _ _) as [mz ez].
  pose proof (binary_round_aux_sign false (Z.pos mz) ez loc_Exact) as H.
  unfold notNegative. destruct (binary_round_aux _ _ _ _ _ _); auto.
Qed.

Lemma fdiv_notNegative (x : spec_float) (m : positive) (e : Z) :
  notNegative x -> notNegative (fdiv x (S754_finite false m e)).
Proof.
  intros Hx. destruct x as [s|s| |s mx ex]; simpl; try exact I.
  simpl in Hx. subst s. unfold fdiv, SFdiv.
  destruct (SFdiv_core_binary _ _ _ _ _ _) as [[mz ez] lz].
  pose proof (binary_round_aux_sign (xorb false false) mz ez lz) as H.
  unfold notNegative. destruct (binary_round_aux _ _ _ _ _ _); auto.
Qed.

Lemma fmul_notNegative (x : spec_float) (m : positive) (e : Z) :
  notNegative x -> notNegative (fmul x (S754_finite false m e)).
Proof.
  intros Hx. destruct x as [s|s| |s mx ex]; simpl; try exact I.
  simpl in Hx. subst s. unfold fmul, SFmul.
  pose proof (binary_round_aux_sign (xorb false false)
                (Z.pos (mx * m)) (ex + e) loc_Exact) as H.
  unfold notNegative. destruct (binary_round_aux _ _ _ _ _ _); auto.
Qed.

Lemma Math_floor_notNegative (x : spec_float) (i : Z) :
  notNegative x -> Math_floor x = Some i -> 0 <= i.
Proof.
  intros Hx Hi. destruct x as [s|s| |s m e]; simpl in *; try discriminate.
  - inversion Hi. lia.
  - subst s. inversion Hi as [Hi']. clear Hi Hi'.
    destruct (Z.ltb_spec e 0).
    + apply Z.div_pos; [lia | apply Z.pow_pos_nonneg; lia].
    + apply Z.mul_nonneg_nonneg; [lia | apply Z.pow_nonneg; lia].
Qed.

(** A timestamp that is not negative gives a word index that is not negative. *)
Lemma approximateWordIndex_notNegative (t idx : Z) :
  0 <= t -> approximateWordIndex t = Some idx -> 0 <= idx.
Proof.
  intros Ht H. unfold approximateWordIndex in H.
  apply (Math_floor_notNegative _ _) in H; [exact H|].
  assert (H60 : double_of_Z 60 = S754_finite false 8444249301319680 (-47))
    by (vm_compute; reflexivity).
  assert (H150 : double_of_Z 150 = S754_finite false 5277655813324800 (-45))
    by (vm_compute; reflexivity).
  rewrite H60, H150.
  apply fmul_notNegative, fdiv_notNegative, double_of_Z_notNegative, Ht.
Qed.

(** The product is rounded twice, so the index can fall one short of
    floor(5t/2): at 22 seconds it is 54, not 55. *)
Lemma approximateWordIndex_22 : approximateWordIndex 22 = Some 54.
Proof. vm_compute. reflexivity. Qed.

Lemma checkUpTo_spec (n : N) :
  fst (checkUpTo n) = Z.of_N n /\
  (snd (checkUpTo n) = true ->
   forall t, 0 <= t < Z.of_N n -> indexWithinOne t = true).
Proof.
  induction n as [|n [IHf IHs]] using N.peano_ind.
  - split; [reflexivity | intros _ t Ht; lia].
  - unfold checkUpTo in *. rewrite N.iter_succ. simpl. split.
    + rewrite IHf. lia.
    + intros H t Ht. apply andb_true_iff in H. destruct H as [H1 H2].
      destruct (Z.eq_dec t (Z.of_N n)) as [->|Hne].
      * rewrite <- IHf. exact H2.
      * apply IHs; [exact H1 | lia].
Qed.

(** For every whole second of the first four hours of an episode the index
    is floor(5t/2) or one less. *)
Lemma approximateWordIndex_within_one (t : Z) :
  0 <= t < 14400 ->
  exists i, approximateWordIndex t = Some i /\ 5 * t / 2 - 1 <= i <= 5 * t / 2.
Proof.
  intros Ht.
  assert (Hall : snd (checkUpTo 14400) = true) by (vm_compute; reflexivity).
  pose proof (proj2 (checkUpTo_spec 14400) Hall t) as H.
  assert (Hin : 0 <= t < Z.of_N 14400) by lia.
  specialize (H Hin). unfold indexWithinOne in H.
  destruct (approximateWordIndex t) as [i|]; [|discriminate].
  exists i. split; [reflexivity | lia].
Qed.

(** ** TranscriptSegmenter *)

(** C4, as stated, fails: a segment from second 0 to second 100 overlaps the
    window around second 12, and the code drops it. *)
Lemma C4_overlap_counterexample :
  overlapsWindow 12 30 longSegment = true /\
  extractOverlapping [longSegment] 12 30 = Some (js "x") /\
  extractTranscriptSegment (PArray [longSegment]) 12 30 = Some [] /\
  extractTranscriptSegment (PArray [longSegment]) 12 30
    <> extractOverlapping [longSegment] 12 30.
Proof. repeat split; try reflexivity. discriminate. Qed.

Lemma relevant_iff (t w : Z) (seg : segment) :
  relevant t w seg = true <-> t - 5 <= segStart seg /\ segEnd seg <= t + w + 5.
Proof. unfold relevant. rewrite andb_true_iff. lia. Qed.

(** Filtering by a test and by the property it decides give the same list. *)
Lemma filter_decide {A} (f : A -> bool) (P : A -> Prop) `{!forall x, Decision (P x)}
    (l : list A) :
  (forall x, f x = true <-> P x) -> List.filter f l = filter P l.
Proof.
  intros Hf. induction l as [|x l IH]; [reflexivity|].
  cbn [List.filter]. rewrite filter_cons, IH.
  destruct (decide (P x)) as [Hp|Hn].
  - rewrite (proj2 (Hf x) Hp). reflexivity.
  - destruct (f x) eqn:E; [|reflexivity]. exfalso. apply Hn, Hf, E.
Qed.

(** C4, amended: the structured branch keeps exactly the segments that lie
    inside the window, from [timestampSeconds - 5] to
    [timestampSeconds + duration + 5]: the list kept is the list given with
    the segments outside the window left out, so every segment inside is kept
    as often as it occurs and in its original place; the texts of the
    segments kept are joined with single spaces. *)
Theorem C4_segments_inside_window (segs : list segment) (t w : Z) :
  exists kept,
    extractTranscriptSegment (PArray segs) t w
      = Some (join SPACE (List.map segText kept)) /\
    kept = filter (fun seg => t - 5 <= segStart seg /\ segEnd seg <= t + w + 5) segs /\
    sublist kept segs /\
    forall seg, In seg kept <->
                In seg segs /\ t - 5 <= segStart seg /\ segEnd seg <= t + w + 5.
Proof.
  exists (List.filter (relevant t w) segs). split; [reflexivity|].
  split; [apply filter_decide; intros seg; apply relevant_iff|].
  split; [apply filter_sublist|].
  intros seg. rewrite filter_In, relevant_iff. reflexivity.
Qed.

(** A segment that occurs twice inside the window is kept twice. *)
Lemma repeated_segment_kept_twice :
  extractTranscriptSegment
    (PArray [ {| seg_start_time := None; seg_start := Some 10;
                 seg_end_time := None; seg_end := Some 15;
                 seg_text := Some (js "yes"); seg_words := None |};
              {| seg_start_time := None; seg_start := Some 10;
                 seg_end_time := None; seg_end := Some 15;
                 seg_text := Some (js "yes"); seg_words := None |} ]) 12 30
  = Some (js "yes yes").
Proof. reflexivity. Qed.

(** The scenario of the specification: the segment at 10 to 15 is kept, the
    one at 50 to 55 is not. *)
Lemma structured_scenario :
  extractTranscriptSegment
    (PArray [ {| seg_start_time := None; seg_start := Some 10;
                 seg_end_time := None; seg_end := Some 15;
                 seg_text := Some (js "a"); seg_words := None |};
              {| seg_start_time := None; seg_start := Some 50;
                 seg_end_time := None; seg_end := Some 55;
                 seg_text := Some (js "b"); seg_words := None |} ]) 12 30
  = Some (js "a").
Proof. reflexivity. Qed.

(** C7, as stated, fails: the words are the pieces between single spaces, so
    two spaces in a row give an empty word and the output keeps both spaces. *)
Lemma C7_whitespace_counterexample :
  extractTranscriptSegment (PString (js "a  b")) 0 30 = Some (js "a  b") /\
  claimedFlatSegment (js "a  b") 0 = js "a b" /\
  extractTranscriptSegment (PString (js "a  b")) 0 30
    <> Some (claimedFlatSegment (js "a  b") 0).
Proof. repeat split; try reflexivity. discriminate. Qed.

(** A tab or a line break does not separate words. *)
Lemma flat_tab_is_not_a_separator :
  split 32 [97; 9; 98; 32; 99]%N = [[97; 9; 98]; [99]]%N /\
  whitespaceTokens [97; 9; 98; 32; 99]%N = [[97]; [98]; [99]]%N.
Proof. split; reflexivity. Qed.

(** C7, amended: for a timestamp that is not negative, the flat branch
    returns the pieces of [transcript.split(' ')] from index
    max(0, i - 25) to min(count, i + 75), joined by single spaces, where i is
    the floor of the binary64 product; these pieces are a contiguous part of
    the list of pieces. *)
Theorem C7_flat_segment_is_range (s : jsstring) (t w idx : Z) :
  0 <= t ->
  approximateWordIndex t = Some idx ->
  let words := split 32 s in
  let a := Z.to_nat (Z.max 0 (idx - 25)) in
  let b := Z.to_nat (Z.min (Z.of_nat (length words)) (idx + 75)) in
  extractTranscriptSegment (PString s) t w
    = Some (join SPACE (drop a (take b words))) /\
  exists pre post, words = pre ++ drop a (take b words) ++ post.
Proof.
  intros Ht Hidx words a b.
  pose proof (approximateWordIndex_notNegative t idx Ht Hidx) as Hpos.
  assert (Hslice : slice words (Z.max 0 (idx - 25))
                     (Z.min (Z.of_nat (length words)) (idx + 75))
                   = drop a (take b words))
    by (apply slice_range; lia).
  split.
  - unfold extractTranscriptSegment. rewrite Hidx. fold words.
    rewrite Hslice. reflexivity.
  - rewrite <- Hslice. apply slice_contiguous.
Qed.

Lemma C7_flat_segment_is_range_witness :
  extractTranscriptSegment (PString (js "one two three")) 0 30
    = Some (js "one two three").
Proof.
  pose proof (C7_flat_segment_is_range (js "one two three") 0 30 0) as H.
  simpl in H. destruct H as [H _]; [lia | reflexivity |]. exact H.
Defined.

(** Whatever the timestamp, the flat branch returns a contiguous part of the
    pieces of [transcript.split(' ')], joined by single spaces. *)
Lemma flat_segment_contiguous (s : jsstring) (t w : Z) :
  exists pre mid post,
    split 32 s = pre ++ mid ++ post /\
    extractTranscriptSegment (PString s) t w = Some (join SPACE mid).
Proof.
  unfold extractTranscriptSegment.
  destruct (approximateWordIndex t) as [idx|].
  - destruct (slice_contiguous (split 32 s) (Z.max 0 (idx - 25))
                (Z.min (Z.of_nat (length (split 32 s))) (idx + 75)))
      as (pre & post & H).
    eexists pre, _, post. split; [exact H | reflexivity].
  - exists [], [], (split 32 s). split; reflexivity.
Qed.

(** ** Summarizer *)

(** C3: a numbered answer keeps the dot of every marker, because the
    replacement removes one character of the marker only. *)
Theorem C3_numbered_markers_not_stripped :
  parseBullets (lines [js "1. First"; js "2. Second"; js "3. Third"])
    = [js ". First"; js ". Second"; js ". Third"].
Proof. reflexivity. Qed.

(** A marker after leading blanks is kept whole. *)
Lemma indented_marker_not_stripped :
  parseBullets (lines [js "- First"; js "  - Second"; js "* Third"])
    = [js "First"; js "- Second"; js "Third"].
Proof. reflexivity. Qed.

(** The bullet U+2022 is not in the class the source file spells out. *)
Lemma bullet_character_not_recognised :
  isBulletLine (8226%N :: js " First") = false /\
  parseBullets (lines [8226%N :: js " First"; 8226%N :: js " Second"])
    = [lines [8226%N :: js " First"; 8226%N :: js " Second"]].
Proof. split; reflexivity. Qed.

(** Three hyphen lines come back without their markers, in order. *)
Lemma hyphen_bullets_parsed :
  parseBullets (lines [js "- Point one"; js "- Point two"; js "- Point three"])
    = [js "Point one"; js "Point two"; js "Point three"].
Proof. reflexivity. Qed.

(** With no bullet line the whole trimmed answer is the one bullet. *)
Lemma parseBullets_fallback (content : jsstring) :
  (forall line, In line (split 10 content) -> isBulletLine line = false) ->
  parseBullets content = [trim content].
Proof.
  intros H. unfold parseBullets. rewrite (filter_none _ _ H). reflexivity.
Qed.

(** The parser returns one to three bullets, whatever the answer. *)
Lemma parseBullets_length (content : jsstring) :
  (1 <= length (parseBullets content) <= 3)%nat.
Proof.
  unfold parseBullets.
  set (l := List.filter nonEmpty _).
  assert (Hle : (length (take 3 l) <= 3)%nat) by (rewrite length_take; lia).
  destruct (take 3 l) as [|x r]; simpl in *; lia.
Qed.

(** ** Relating the state before and after a stage *)

#[local] Instance during_preorder (f a : bool) (P : event -> Prop) :
  PreOrder (during f a P).
Proof.
  split.
  - intros st. repeat split; try reflexivity.
    exists []. rewrite app_nil_r. split; [reflexivity | constructor].
  - intros x y z (F1 & A1 & e1 & T1 & P1) (F2 & A2 & e2 & T2 & P2).
    split; [intros H; rewrite F2, F1 by exact H; reflexivity|].
    split; [intros H; rewrite A2, A1 by exact H; reflexivity|].
    exists (e1 ++ e2). split.
    + rewrite T2, T1. symmetry. apply app_assoc.
    + apply Forall_app. split; assumption.
Qed.

Section Respects.
Context (R : state -> state -> Prop) `{!PreOrder R}.

Lemma respects_ret {A} (a : A) : respects R (ret a).
Proof. intros st r st' H. inversion H. reflexivity. Qed.

Lemma respects_throw {A} (message : jsstring) : respects R (@throw A message).
Proof. intros st r st' H. inversion H. reflexivity. Qed.

Lemma respects_get : respects R get.
Proof. intros st r st' H. inversion H. reflexivity. Qed.

Lemma respects_bind {A B} (m : M A) (k : A -> M B) :
  respects R m -> (forall a, respects R (k a)) -> respects R (bind m k).
Proof.
  intros Hm Hk st r st' H. unfold bind in H.
  destruct (m st) as [[a|message] st1] eqn:E.
  - transitivity st1; [eapply Hm, E | eapply Hk, H].
  - inversion H; subst. eapply Hm, E.
Qed.

Lemma respects_tryCatch {A} (m : M A) (handler : jsstring -> M A) :
  respects R m -> (forall message, respects R (handler message)) ->
  respects R (tryCatch m handler).
Proof.
  intros Hm Hh st r st' H. unfold tryCatch in H.
  destruct (m st) as [[a|message] st1] eqn:E.
  - inversion H; subst. eapply Hm, E.
  - transitivity st1; [eapply Hm, E | eapply Hh, H].
Qed.

Lemma respects_finally {A} (m : M A) (cleanup : M unit) :
  respects R m -> respects R cleanup -> respects R (finally m cleanup).
Proof.
  intros Hm Hc st r st' H. unfold finally in H.
  destruct (m st) as [r1 st1] eqn:E.
  destruct (cleanup st1) as [rc sc] eqn:Ec. simpl in H.
  inversion H; subst.
  transitivity st1; [eapply Hm, E | eapply Hc, Ec].
Qed.

End Respects.

Lemma during_emit (f a : bool) (P : event -> Prop) (ev : event) (st : state) :
  P ev -> during f a P st (emit ev st).
Proof.
  intros H. repeat split; try reflexivity.
  exists [ev]. split; [reflexivity | repeat constructor; exact H].
Qed.

Lemma during_setFiles (a : bool) (P : event -> Prop) (m : gmap (list N) N) (st : state) :
  during false a P st (setFiles m st).
Proof.
  split; [discriminate|]. split; [reflexivity|].
  exists []. simpl. rewrite app_nil_r. split; [reflexivity | constructor].
Qed.

Lemma httpGet_during {A} (f a : bool) (P : event -> Prop) (ev : event) (r : http A) :
  P ev -> respects (during f a P) (httpGet ev r).
Proof.
  intros H st r' st' E. unfold httpGet in E.
  destruct r; inversion E; subst; apply during_emit, H.
Qed.

Lemma statSize_during (f a : bool) (P : event -> Prop) (path : jsstring) :
  respects (during f a P) (statSize path).
Proof.
  intros st r st' E. unfold statSize in E.
  destruct (files st !! path); inversion E; subst; reflexivity.
Qed.

Lemma logToSupabase_during (f a : bool) (P : event -> Prop)
    (t s : jsval) (ts : Z) (u : jsval) :
  P (EvLog t s ts u) -> respects (during f a P) (logToSupabase t s ts u).
Proof.
  intros H st r st' E. inversion E; subst. apply during_emit, H.
Qed.

Lemma unlink_during (a : bool) (P : event -> Prop) (path : jsstring) :
  respects (during false a P) (unlink path).
Proof.
  intros st r st' E. unfold unlink in E.
  destruct (files st !! path); inversion E; subst;
    [apply during_setFiles | reflexivity].
Qed.

Lemma rename_during (a : bool) (P : event -> Prop) (from to : jsstring) :
  respects (during false a P) (rename from to).
Proof.
  intros st r st' E. unfold rename in E.
  destruct (files st !! from); inversion E; subst;
    [apply during_setFiles | reflexivity].
Qed.

Lemma execAsync_during (a : bool) (P : event -> Prop) (e : env) (c : command) :
  P (EvExec c) -> respects (during false a P) (execAsync e c).
Proof.
  intros H st r st' E. unfold execAsync in E.
  assert (Hst : during false a P st
                  match written (exec e c) with
                  | Some n => setFiles (<[outputOf c := n]> (files (emit (EvExec c) st)))
                                (emit (EvExec c) st)
                  | None => emit (EvExec c) st
                  end).
  { destruct (written (exec e c)).
    - transitivity (emit (EvExec c) st);
        [apply during_emit, H | apply during_setFiles].
    - apply during_emit, H. }
  destruct (exitOf (exec e c)); inversion E; subst; exact Hst.
Qed.

Lemma setAudioPath_during (f : bool) (P : event -> Prop) (p : option jsstring) :
  respects (during f false P) (modify (setAudioPath p)).
Proof.
  intros st r st' E. inversion E; subst.
  split; [reflexivity|]. split; [discriminate|].
  exists []. simpl. rewrite app_nil_r. split; [reflexivity | constructor].
Qed.

Create HintDb respects.
#[local] Hint Resolve httpGet_during statSize_during logToSupabase_during
  unlink_during rename_during execAsync_during setAudioPath_during : respects.

Ltac respects_step :=
  lazymatch goal with
  | |- PreOrder _ => exact _
  | |- respects _ (bind _ _) => apply @respects_bind; [exact _ | | intros ?]
  | |- respects _ (tryCatch _ _) => apply @respects_tryCatch; [exact _ | | intros ?]
  | |- respects _ (finally _ _) => apply @respects_finally; [exact _ | | ]
  | |- respects _ (ret _) => apply @respects_ret; exact _
  | |- respects _ (throw _) => apply @respects_throw; exact _
  | |- respects _ get => apply @respects_get; exact _
  | |- respects _ (if ?b then _ else _) => destruct b
  | |- respects _ (match ?x with _ => _ end) => destruct x
  | |- respects _ _ => solve [auto with respects]
  end.

Ltac respects_auto := repeat respects_step.

Lemma cleanupTempFiles_during (a : bool) (P : event -> Prop) (paths : list jsstring) :
  respects (during false a P) (cleanupTempFiles paths).
Proof. induction paths as [|file rest IH]; cbn [cleanupTempFiles]; respects_auto. Qed.

Lemma searchListenNotes_during (f a : bool) (P : event -> Prop) (e : env)
    (t s : jsval) :
  (forall q, P (EvSearch q)) ->
  respects (during f a P) (searchListenNotes e t s).
Proof. intros H. unfold searchListenNotes. respects_auto. Qed.

Lemma getEpisodeTranscript_during (f a : bool) (P : event -> Prop) (e : env)
    (id : jsstring) :
  (forall i, P (EvEpisode i)) ->
  respects (during f a P) (getEpisodeTranscript e id).
Proof. intros H. unfold getEpisodeTranscript. respects_auto. Qed.

Lemma transcribeWithWhisper_during (f a : bool) (P : event -> Prop) (e : env)
    (path : jsstring) :
  (forall p, P (EvTranscribe p)) ->
  respects (during f a P) (transcribeWithWhisper e path).
Proof. intros H. unfold transcribeWithWhisper. respects_auto. Qed.

Lemma summarizeTranscript_during (f a : bool) (P : event -> Prop) (e : env)
    (transcript : jsstring) (t : jsval) :
  (forall x y, P (EvSummarize x y)) ->
  respects (during f a P) (summarizeTranscript e transcript t).
Proof. intros H. unfold summarizeTranscript. respects_auto. Qed.

Lemma extractAudioSnippet_during (a : bool) (P : event -> Prop) (e : env)
    (audioUrl : jsstring) (ts d : Z) :
  (forall c, outputOf c = fullAudioPath e \/ outputOf c = snippetPath e ->
             P (EvExec c)) ->
  respects (during false a P) (extractAudioSnippet e audioUrl ts d).
Proof.
  intros H. unfold extractAudioSnippet. cbv zeta.
  pose proof (H (Curl audioUrl (fullAudioPath e)) (or_introl eq_refl)).
  pose proof (H (Ffmpeg (Z.max 0 (ts - 5)) (d + 10) (fullAudioPath e) (snippetPath e))
                (or_intror eq_refl)).
  pose proof (cleanupTempFiles_during a P [fullAudioPath e; snippetPath e]).
  respects_auto.
Qed.

#[local] Hint Resolve cleanupTempFiles_during searchListenNotes_during
  getEpisodeTranscript_during transcribeWithWhisper_during
  summarizeTranscript_during extractAudioSnippet_during : respects.

Lemma acquireTranscript_during (P : event -> Prop) (e : env) (ts : Z) (ep : episode) :
  (forall i, P (EvEpisode i)) ->
  (forall c, outputOf c = fullAudioPath e \/ outputOf c = snippetPath e ->
             P (EvExec c)) ->
  (forall p, P (EvTranscribe p)) ->
  respects (during false false P) (acquireTranscript e ts ep).
Proof.
  intros H1 H2 H3. unfold acquireTranscript, existingTranscript, audioFallback.
  respects_auto.
Qed.

Lemma summarizeAndRespond_during (f a : bool) (P : event -> Prop) (e : env)
    (req : request) (ts : Z) (ep : episode) (transcript : option jsstring) :
  (forall x y, P (EvSummarize x y)) ->
  (forall t s n u, P (EvLog t s n u)) ->
  respects (during f a P) (summarizeAndRespond e req ts ep transcript).
Proof. intros H1 H2. unfold summarizeAndRespond. cbv zeta. respects_auto. Qed.

Lemma releaseAudio_during (P : event -> Prop) :
  respects (during false true P) releaseAudio.
Proof. unfold releaseAudio. respects_auto. Qed.

(** A property of all the calls made so far extends over a stage. *)
Lemma during_Forall (f a : bool) (P : event -> Prop) (st st' : state) :
  during f a P st st' -> Forall P (trace st) -> Forall P (trace st').
Proof.
  intros (_ & _ & evs & -> & H) H0. apply Forall_app. split; assumption.
Qed.

(** ** Stepping through a computation *)

Lemma bind_Returned {A B} (m : M A) (k : A -> M B) (st st1 : state) (a : A) :
  m st = (Returned a, st1) -> bind m k st = k a st1.
Proof. intros H. unfold bind. rewrite H. reflexivity. Qed.

Lemma bind_Thrown {A B} (m : M A) (k : A -> M B) (st st1 : state) (message : jsstring) :
  m st = (Thrown message, st1) -> bind m k st = (Thrown message, st1).
Proof. intros H. unfold bind. rewrite H. reflexivity. Qed.

Lemma tryCatch_Returned {A} (m : M A) (h : jsstring -> M A) (st st1 : state) (a : A) :
  m st = (Returned a, st1) -> tryCatch m h st = (Returned a, st1).
Proof. intros H. unfold tryCatch. rewrite H. reflexivity. Qed.

Lemma tryCatch_Thrown {A} (m : M A) (h : jsstring -> M A) (st st1 : state)
    (message : jsstring) :
  m st = (Thrown message, st1) -> tryCatch m h st = h message st1.
Proof. intros H. unfold tryCatch. rewrite H. reflexivity. Qed.

Lemma setFiles_same (st : state) : setFiles (files st) st = st.
Proof. destruct st. reflexivity. Qed.

(** Deleting and ignoring a failure is deleting if the file is there. *)
Lemma unlink_ignoring_failure (path : jsstring) (st : state) :
  tryCatch (unlink path) (fun _ => ret tt) st
    = (Returned tt, setFiles (delete path (files st)) st).
Proof.
  unfold tryCatch, unlink, ret.
  destruct (files st !! path) eqn:E; [reflexivity|].
  rewrite delete_id by exact E. rewrite setFiles_same. reflexivity.
Qed.

(** [cleanupTempFiles] always returns, with the files deleted. *)
Lemma cleanupTempFiles_eq (paths : list jsstring) (st : state) :
  cleanupTempFiles paths st
    = (Returned tt, setFiles (foldl (fun m p => delete p m) (files st) paths) st).
Proof.
  revert st. induction paths as [|file rest IH]; intros st.
  - simpl. rewrite setFiles_same. reflexivity.
  - cbn [cleanupTempFiles foldl].
    rewrite (bind_Returned _ _ _ _ _ (unlink_ignoring_failure file st)).
    rewrite IH. destruct st. reflexivity.
Qed.

Lemma execAsync_exit0 (e : env) (c : command) (st : state) (n : N) :
  exitOf (exec e c) = Exit0 -> written (exec e c) = Some n ->
  execAsync e c st
    = (Returned tt, setFiles (<[outputOf c := n]> (files st)) (emit (EvExec c) st)).
Proof. intros H1 H2. unfold execAsync. rewrite H1, H2. reflexivity. Qed.

Lemma statSize_Some (path : jsstring) (st : state) (n : N) :
  files st !! path = Some n -> statSize path st = (Returned n, st).
Proof. intros H. unfold statSize. rewrite H. reflexivity. Qed.

(** ** Validation *)

(** C9: a request whose title is missing or empty (any value that
    JavaScript takes for false) is answered with status 400 and the message
    "Title is required", and no call leaves the process: the list of calls is
    empty and the state is the initial one. *)
Theorem C9_missing_title_rejected (e : env) (req : request) (fs : gmap (list N) N) :
  truthy (title req) = false ->
  handle e req fs
    = (Returned {| status := 400; payloadOf := Failure (js "Title is required") |},
       initial fs) /\
  trace (snd (handle e req fs)) = [].
Proof.
  intros H. unfold handle, processInsight. rewrite H. split; reflexivity.
Qed.

Lemma C9_missing_title_rejected_witness :
  handle goodEnv untitledRequest ∅
    = (Returned {| status := 400; payloadOf := Failure (js "Title is required") |},
       initial ∅) /\
  trace (snd (handle goodEnv untitledRequest ∅)) = [].
Proof. apply (C9_missing_title_rejected goodEnv untitledRequest ∅). reflexivity. Defined.

Lemma missing_title_is_falsy : truthy JUndefined = false /\ truthy JNull = false /\
                               truthy (JStr []) = false.
Proof. repeat split. Qed.

(** ** Not found *)

Lemma searchListenNotes_none (e : env) (t s : jsval) (st : state) :
  noCandidates (listenNotesSearch e (searchQuery t s)) ->
  searchListenNotes e t s st = (Returned None, emit (EvSearch (searchQuery t s)) st).
Proof.
  intros [H|H]; unfold searchListenNotes, tryCatch, bind, httpGet;
    rewrite H; reflexivity.
Qed.

(** C2: with a title and no candidate from the search, the response has
    status 200 and success true, [manualMode] is true in its data, and the
    data carries no transcript and no summary. *)
Theorem C2_not_found_is_manual_mode (e : env) (req : request) (fs : gmap (list N) N) :
  truthy (title req) = true ->
  noCandidates (listenNotesSearch e
                  (searchQuery (title req) (jsor (showName req) (JStr [])))) ->
  exists d st,
    handle e req fs = (Returned {| status := 200; payloadOf := Success d |}, st) /\
    manualMode d = Some true /\
    transcriptText d = None /\
    summary d = None.
Proof.
  intros Ht Hn. unfold handle, processInsight. rewrite Ht. cbn [negb].
  unfold pipeline, finally, tryCatch, tryBody.
  unfold bind at 1. cbn [modify].
  erewrite bind_Returned by (apply searchListenNotes_none, Hn).
  do 2 eexists. split; [reflexivity|]. repeat split.
Qed.

Lemma C2_not_found_is_manual_mode_witness :
  exists d st,
    handle (sampleEnv [] 0 [] []) (sampleRequest JUndefined) ∅
      = (Returned {| status := 200; payloadOf := Success d |}, st) /\
    manualMode d = Some true /\
    transcriptText d = None /\
    summary d = None.
Proof.
  apply (C2_not_found_is_manual_mode (sampleEnv [] 0 [] []) (sampleRequest JUndefined) ∅).
  - reflexivity.
  - right. reflexivity.
Defined.

(** ** The shape of the responses *)

Ltac destruct_in H :=
  repeat (match type of H with
          | context [match ?x with _ => _ end] => destruct x eqn:?
          | context [if ?b then _ else _] => destruct b eqn:?
          end; try discriminate H).

(** A response returned from inside steps 2 and 3 is the 404 one. *)
Lemma acquireTranscript_early (e : env) (ts : Z) (ep : episode) (st st' : state)
    (early : response) :
  acquireTranscript e ts ep st = (Returned (inl early), st') ->
  early = {| status := 404;
             payloadOf := Failure (js "No audio URL available for this episode") |}.
Proof.
  intros H. unfold acquireTranscript, audioFallback, bind, ret in H.
  destruct_in H; inversion H; reflexivity.
Qed.

(** What the [try] block can return. *)
Lemma tryBody_response (e : env) (req : request) (ts : Z) (st st' : state)
    (r : response) :
  tryBody e req ts st = (Returned r, st') ->
  (exists code message, r = {| status := code; payloadOf := Failure message |}) \/
  r = manualResponse req ts \/
  (exists ep transcript bullets,
      fst (searchListenNotes e (title req) (jsor (showName req) (JStr [])) st)
        = Returned (Some ep) /\
      isBlank transcript = false /\
      r = insightResponse req ts ep transcript bullets).
Proof.
  intros H. unfold tryBody in H. unfold bind at 1 in H.
  destruct (searchListenNotes _ _ _ st) as [[[ep|]|message] st1] eqn:Hs;
    [ | | discriminate H].
  - unfold bind at 1 in H.
    destruct (acquireTranscript e ts ep st1) as [[[early|transcript]|message] st2]
      eqn:Ha; [ | | discriminate H].
    + inversion H; subst. left.
      rewrite (acquireTranscript_early _ _ _ _ _ _ Ha). eauto.
    + unfold summarizeAndRespond in H.
      destruct (isBlank transcript) eqn:Hb.
      * inversion H; subst. left. eauto.
      * cbv zeta in H. unfold bind, logToSupabase, modify, ret in H.
        destruct (summarizeTranscript _ _ _ st2) as [[bullets|message] st3];
          [|discriminate H].
        inversion H; subst. right. right.
        exists ep, transcript, bullets. repeat split. exact Hb.
  - unfold bind, logToSupabase, modify, ret in H. inversion H; subst.
    right. left. reflexivity.
Qed.

(** A successful response of the pipeline comes from the [try] block. *)
Lemma pipeline_success (e : env) (req : request) (ts : Z) (st st' : state)
    (r : response) (d : insight) :
  pipeline e req ts st = (Returned r, st') ->
  payloadOf r = Success d ->
  exists st1, tryBody e req ts (setAudioPath None st) = (Returned r, st1).
Proof.
  intros H Hd. unfold pipeline, bind, modify, finally, tryCatch in H.
  destruct (tryBody e req ts (setAudioPath None st)) as [[r1|message] st1] eqn:Hb.
  - inversion H; subst. eauto.
  - unfold onError, ret in H. inversion H; subst. discriminate Hd.
Qed.

Lemma handle_success (e : env) (req : request) (fs : gmap (list N) N)
    (r : response) (st : state) (d : insight) :
  handle e req fs = (Returned r, st) ->
  payloadOf r = Success d ->
  truthy (title req) = true /\
  exists st1,
    tryBody e req (parseIntOrZero (timestamp req)) (setAudioPath None (initial fs))
      = (Returned r, st1).
Proof.
  intros H Hd. unfold handle, processInsight in H.
  destruct (truthy (title req)); cbn [negb] in H.
  - split; [reflexivity|]. eapply pipeline_success; eassumption.
  - inversion H; subst. discriminate Hd.
Qed.

(** The result of the search does not depend on the state. *)
Lemma searchListenNotes_result (e : env) (t s : jsval) (st st' : state) :
  fst (searchListenNotes e t s st) = fst (searchListenNotes e t s st').
Proof.
  unfold searchListenNotes, tryCatch, bind, httpGet.
  destruct (listenNotesSearch e (searchQuery t s)) as [detail|[[|first rest]|]];
    try reflexivity.
  destruct (truthy s); [|reflexivity].
  destruct s; try reflexivity.
  destruct (List.find _ _); reflexivity.
Qed.

(** ** The timestamp *)

Lemma parseInt_absent : parseInt JUndefined = None.
Proof. reflexivity. Qed.

(** C10: when the timestamp is absent or does not parse as an integer, the
    handler runs the pipeline with [timestampSeconds] 0, and every response
    that carries data (processed or manual mode) reports 0. *)
Theorem C10_timestamp_defaults_to_zero (e : env) (req : request)
    (fs : gmap (list N) N) :
  timestamp req = JUndefined \/ parseInt (timestamp req) = None ->
  (truthy (title req) = true -> handle e req fs = pipeline e req 0 (initial fs)) /\
  (forall r st d,
      handle e req fs = (Returned r, st) ->
      payloadOf r = Success d ->
      timestampSeconds d = 0).
Proof.
  intros H.
  assert (H0 : parseIntOrZero (timestamp req) = 0).
  { unfold parseIntOrZero. destruct H as [H|H].
    - rewrite H, parseInt_absent. reflexivity.
    - rewrite H. reflexivity. }
  split.
  - intros Ht. unfold handle, processInsight. rewrite Ht, H0. reflexivity.
  - intros r st d Hr Hd.
    destruct (handle_success _ _ _ _ _ _ Hr Hd) as (_ & st1 & Hb).
    rewrite H0 in Hb.
    destruct (tryBody_response _ _ _ _ _ _ Hb)
      as [(code & message & ->) | [-> | (ep & tr & bs & _ & _ & ->)]];
      simpl in Hd; [discriminate Hd | |]; inversion Hd; reflexivity.
Qed.

Lemma C10_timestamp_defaults_to_zero_witness :
  handle goodEnv (sampleRequest (JStr (js "soon"))) ∅
    = pipeline goodEnv (sampleRequest (JStr (js "soon"))) 0 (initial ∅).
Proof.
  apply (C10_timestamp_defaults_to_zero goodEnv (sampleRequest (JStr (js "soon"))) ∅).
  - right. reflexivity.
  - reflexivity.
Defined.

(** The timestamp the handler works with, in general. *)
Lemma parseIntOrZero_examples :
  parseIntOrZero (JStr (js "754")) = 754 /\
  parseIntOrZero (JNum 754) = 754 /\
  parseIntOrZero (JStr (js "12:30")) = 12 /\
  parseIntOrZero (JStr (js "")) = 0 /\
  parseIntOrZero JNull = 0.
Proof. repeat split. Qed.

(** ** The assembled result *)

(** C6: a response with processed data (not the manual mode) reports the
    caller's title as [episodeTitle]; its show name is the caller's when the
    caller gave one, and the show of the episode the search resolved only
    otherwise. *)
Theorem C6_original_title_and_show (e : env) (req : request) (fs : gmap (list N) N)
    (r : response) (st : state) (d : insight) :
  handle e req fs = (Returned r, st) ->
  payloadOf r = Success d ->
  manualMode d = None ->
  episodeTitle d = title req /\
  (truthy (showName req) = true -> insightShowName d = showName req) /\
  exists ep,
    resolved e req = Some ep /\
    insightShowName d = jsor (showName req) (ep_showName ep) /\
    (truthy (showName req) = false -> insightShowName d = ep_showName ep).
Proof.
  intros Hr Hd Hm.
  destruct (handle_success _ _ _ _ _ _ Hr Hd) as (_ & st1 & Hb).
  destruct (tryBody_response _ _ _ _ _ _ Hb)
    as [(code & message & ->) | [-> | (ep & tr & bs & Hs & _ & ->)]];
    simpl in Hd; [discriminate Hd | inversion Hd; subst; discriminate Hm |].
  inversion Hd; subst. cbn [episodeTitle insightShowName].
  split; [reflexivity|]. split.
  - intros Hs'. unfold jsor. rewrite Hs'. reflexivity.
  - exists ep. split; [|split].
    + unfold resolved.
      pose proof (searchListenNotes_result e (title req)
                    (jsor (showName req) (JStr [])) (initial ∅)
                    (setAudioPath None (initial fs))) as Heq.
      rewrite Hs in Heq.
      destruct (searchListenNotes _ _ _ (initial ∅)) as [res s0].
      simpl in Heq. rewrite Heq. reflexivity.
    + reflexivity.
    + intros Hs'. unfold jsor. rewrite Hs'. reflexivity.
Qed.

Lemma C6_original_title_and_show_witness :
  exists d,
    payloadOf (insightResponse (sampleRequest (JNum 12)) 12
                 (toEpisode sampleResult (JStr (js "My show")))
                 (Some (js "hello world")) [js "one"; js "two"; js "three"])
      = Success d /\
    episodeTitle d = JStr (js "My title") /\
    insightShowName d = JStr (js "My show").
Proof.
  assert (Hrun : handle goodEnv (sampleRequest (JNum 12)) (∅ : gmap (list N) N)
                 = (Returned (insightResponse (sampleRequest (JNum 12)) 12
                                (toEpisode sampleResult (JStr (js "My show")))
                                (Some (js "hello world"))
                                [js "one"; js "two"; js "three"]),
                    snd (handle goodEnv (sampleRequest (JNum 12))
                           (∅ : gmap (list N) N))))
    by (vm_compute; reflexivity).
  eexists. split; [reflexivity|].
  destruct (C6_original_title_and_show _ _ _ _ _ _ Hrun eq_refl eq_refl)
    as (H1 & H2 & _).
  split; [exact H1 | apply H2; reflexivity].
Defined.

(** ** Audio extraction *)

Lemma statSize_state {path : jsstring} {st st' : state} {r : outcome N} :
  statSize path st = (r, st') -> st' = st.
Proof.
  unfold statSize. destruct (files st !! path); intros H; inversion H; reflexivity.
Qed.

(** C5: when curl exits with success and leaves a file of fewer than 10000
    bytes, [extractAudioSnippet] throws "Failed to extract audio snippet:
    Downloaded file too small", and when the error reaches the caller the
    undersized file is no longer in the temporary directory (nor is any
    snippet). *)
Theorem C5_small_download_fails (e : env) (audioUrl : jsstring) (ts d : Z)
    (st : state) (n : N) :
  exitOf (exec e (Curl audioUrl (fullAudioPath e))) = Exit0 ->
  written (exec e (Curl audioUrl (fullAudioPath e))) = Some n ->
  (n < 10000)%N ->
  exists st',
    extractAudioSnippet e audioUrl ts d st
      = (Thrown (js "Failed to extract audio snippet: Downloaded file too small"), st') /\
    files st' !! fullAudioPath e = None /\
    files st' !! snippetPath e = None.
Proof.
  intros Hexit Hwritten Hsmall.
  unfold extractAudioSnippet. cbv zeta.
  erewrite tryCatch_Thrown; cycle 1.
  { erewrite bind_Returned by (apply execAsync_exit0; eassumption).
    erewrite bind_Returned
      by (apply statSize_Some; cbn [files setFiles outputOf]; apply lookup_insert_eq).
    apply N.ltb_lt in Hsmall. rewrite Hsmall. reflexivity. }
  erewrite bind_Returned by apply cleanupTempFiles_eq.
  eexists. split; [reflexivity|].
  cbn [files setFiles foldl]. split.
  - apply lookup_delete_None. right. apply lookup_delete_eq.
  - apply lookup_delete_eq.
Qed.

Lemma C5_small_download_fails_witness :
  exists st',
    extractAudioSnippet (sampleEnv [sampleResult] 512 [] [])
      (js "http://host/episode.mp3") 12 30 (initial ∅)
      = (Thrown (js "Failed to extract audio snippet: Downloaded file too small"), st') /\
    files st' !! fullAudioPath (sampleEnv [sampleResult] 512 [] []) = None /\
    files st' !! snippetPath (sampleEnv [sampleResult] 512 [] []) = None.
Proof.
  apply (C5_small_download_fails (sampleEnv [sampleResult] 512 [] [])
           (js "http://host/episode.mp3") 12 30 (initial ∅) 512);
    [reflexivity | reflexivity | reflexivity].
Defined.

(** The request that runs into the undersized download is answered 500. *)
Lemma small_download_response :
  fst (handle (sampleEnv [sampleResult] 512 [] []) (sampleRequest (JNum 12)) ∅)
    = Returned {| status := 500;
                  payloadOf := Failure
                    (js "Failed to extract audio snippet: Downloaded file too small") |}.
Proof. vm_compute. reflexivity. Qed.

(** Where [extractAudioSnippet] leaves the temporary directory: the full
    download is gone in every case, and the snippet is gone unless it is the
    path returned. *)
Lemma extractAudioSnippet_files (e : env) (audioUrl : jsstring) (ts d : Z)
    (st st' : state) (r : outcome jsstring) :
  extractAudioSnippet e audioUrl ts d st = (r, st') ->
  files st' !! fullAudioPath e = None /\
  match r with
  | Returned path => path = snippetPath e
  | Thrown _ => files st' !! snippetPath e = None
  end.
Proof.
  unfold extractAudioSnippet. cbv zeta. unfold tryCatch at 1.
  match goal with
  | |- context [match ?body st with _ => _ end] =>
      destruct (body st) as [[path|message] sk] eqn:Hbody
  end.
  - intros H. inversion H; subst. clear H.
    unfold bind at 1 in Hbody.
    destruct (execAsync e _ st) as [[[]|m1] s1]; [|discriminate Hbody].
    unfold bind at 1 in Hbody.
    destruct (statSize (fullAudioPath e) s1) as [[n|m2] s1'] eqn:Hs1;
      [|discriminate Hbody].
    destruct (n <? 10000)%N; [discriminate Hbody|].
    unfold bind at 1 in Hbody.
    destruct (execAsync e _ s1') as [[[]|m3] s2]; [|discriminate Hbody].
    rewrite (bind_Returned _ _ _ _ _ (unlink_ignoring_failure _ s2)) in Hbody.
    unfold bind at 1 in Hbody.
    destruct (statSize (snippetPath e) _) as [[size|m4] s3] eqn:Hs3;
      [|discriminate Hbody].
    destruct (size <? 1000)%N; [discriminate Hbody|].
    inversion Hbody; subst. rewrite (statSize_state Hs3).
    split; [apply lookup_delete_eq | reflexivity].
  - rewrite (bind_Returned _ _ _ _ _ (cleanupTempFiles_eq _ sk)).
    intros H. inversion H; subst. cbn [files setFiles foldl]. split.
    + apply lookup_delete_None. right. apply lookup_delete_eq.
    + apply lookup_delete_eq.
Qed.

(** ** No file is left behind *)

Lemma createdFiles_app (e : env) (a b : list event) :
  createdFiles e (a ++ b) = createdFiles e a ++ createdFiles e b.
Proof. unfold createdFiles. apply flat_map_app. Qed.

Lemma createdFiles_writesOnly (e : env) (paths : list jsstring) (evs : list event) :
  Forall (writesOnly paths) evs ->
  forall p, In p (createdFiles e evs) -> In p paths.
Proof.
  induction 1 as [|ev evs Hev _ IH]; intros p Hp; simpl in Hp; [contradiction|].
  apply in_app_or in Hp. destruct Hp as [Hp|Hp]; [|apply IH, Hp].
  destruct ev; try contradiction.
  destruct (written (exec e c)); simpl in Hp; [|contradiction].
  destruct Hp as [<-|[]]. exact Hev.
Qed.

Lemma createdFiles_none (e : env) (evs : list event) :
  Forall (writesOnly []) evs -> createdFiles e evs = [].
Proof.
  intros H. destruct (createdFiles e evs) as [|p l] eqn:E; [reflexivity|].
  exfalso. apply (createdFiles_writesOnly e [] evs H p). rewrite E. left. reflexivity.
Qed.

(** A stage that starts no subprocess creates nothing. *)
Lemma during_createdFiles (e : env) (f a : bool) (st st' : state) :
  during f a (writesOnly []) st st' ->
  createdFiles e (trace st') = createdFiles e (trace st).
Proof.
  intros (_ & _ & evs & -> & H).
  rewrite createdFiles_app, (createdFiles_none e evs H). apply app_nil_r.
Qed.

Lemma released_nothing_created (e : env) (st : state) :
  createdFiles e (trace st) = [] -> released e st.
Proof. intros H p Hp. rewrite H in Hp. contradiction. Qed.

Lemma released_during (e : env) (st st' : state) :
  released e st -> during true true (writesOnly []) st st' -> released e st'.
Proof.
  intros Hr Hd p Hp.
  rewrite (during_createdFiles e _ _ _ _ Hd) in Hp.
  destruct Hd as (Hf & Ha & _). rewrite Hf, Ha by reflexivity. apply Hr, Hp.
Qed.

Lemma writesOnly_other (paths : list jsstring) :
  (forall q, writesOnly paths (EvSearch q)) /\
  (forall i, writesOnly paths (EvEpisode i)) /\
  (forall p, writesOnly paths (EvTranscribe p)) /\
  (forall x y, writesOnly paths (EvSummarize x y)) /\
  (forall t s n u, writesOnly paths (EvLog t s n u)).
Proof. repeat split. Qed.

Lemma snippetPath_nonEmpty (e : env) : nonEmpty (snippetPath e) = true.
Proof.
  unfold snippetPath, TEMP_DIR. destruct (dirname e); reflexivity.
Qed.

Lemma existingTranscript_during (f a : bool) (P : event -> Prop) (e : env)
    (ts : Z) (ep : episode) :
  (forall i, P (EvEpisode i)) ->
  respects (during f a P) (existingTranscript e ts ep).
Proof. intros H. unfold existingTranscript. respects_auto. Qed.

Lemma exec_writes_listed (e : env) (c : command) :
  outputOf c = fullAudioPath e \/ outputOf c = snippetPath e ->
  writesOnly [fullAudioPath e; snippetPath e] (EvExec c).
Proof. intros [H|H]; simpl; rewrite H; auto. Qed.

(** After step 3 every created file is gone or named by [audioPath]. *)
Lemma audioFallback_released (e : env) (ts : Z) (ep : episode)
    (transcript : option jsstring) (st st' : state)
    (r : outcome (response + option jsstring)) :
  createdFiles e (trace st) = [] ->
  audioPath st = None ->
  audioFallback e ts ep transcript st = (r, st') ->
  released e st'.
Proof.
  intros Hc Ha H. unfold audioFallback in H.
  destruct (negb (optTruthy transcript));
    [|inversion H; subst; apply released_nothing_created, Hc].
  destruct (optTruthy (ep_audioUrl ep));
    [|inversion H; subst; apply released_nothing_created, Hc].
  destruct (ep_audioUrl ep) as [audioUrl|];
    [|inversion H; subst; apply released_nothing_created, Hc].
  unfold bind at 1 in H.
  destruct (extractAudioSnippet e audioUrl ts 30 st) as [[path|message] s2] eqn:He.
  - destruct (extractAudioSnippet_files _ _ _ _ _ _ _ He) as [Hfull ->].
    destruct (extractAudioSnippet_during true _ e audioUrl ts 30
                (exec_writes_listed e) _ _ _ He) as (_ & _ & evs & Ht & Hw).
    unfold bind at 1 in H. cbn [modify] in H. unfold bind at 1 in H.
    destruct (transcribeWithWhisper e (snippetPath e) _) as [rt s4] eqn:Hw4.
    assert (Hd : during true true (writesOnly []) (setAudioPath (Some (snippetPath e)) s2) s4).
    { eapply (transcribeWithWhisper_during true true (writesOnly [])); [|exact Hw4].
      intros p. exact I. }
    assert (Hst' : st' = s4) by (destruct rt; inversion H; reflexivity).
    subst st'. intros p Hp.
    rewrite (during_createdFiles e _ _ _ _ Hd) in Hp. cbn [trace setAudioPath] in Hp.
    rewrite Ht, createdFiles_app, Hc in Hp. simpl in Hp.
    destruct Hd as (Hf & Ha4 & _).
    rewrite Hf, Ha4 by reflexivity. cbn [files audioPath setAudioPath].
    destruct (createdFiles_writesOnly e _ evs Hw p Hp) as [<-|[<-|[]]].
    + left. exact Hfull.
    + right. split; [reflexivity | apply snippetPath_nonEmpty].
  - inversion H; subst.
    destruct (extractAudioSnippet_files _ _ _ _ _ _ _ He) as [Hfull Hsnip].
    destruct (extractAudioSnippet_during true _ e audioUrl ts 30
                (exec_writes_listed e) _ _ _ He) as (_ & _ & evs & Ht & Hw).
    intros p Hp. rewrite Ht, createdFiles_app, Hc in Hp. simpl in Hp.
    left. destruct (createdFiles_writesOnly e _ evs Hw p Hp) as [<-|[<-|[]]];
      assumption.
Qed.

Lemma acquireTranscript_released (e : env) (ts : Z) (ep : episode) (st st' : state)
    (r : outcome (response + option jsstring)) :
  createdFiles e (trace st) = [] ->
  audioPath st = None ->
  acquireTranscript e ts ep st = (r, st') ->
  released e st'.
Proof.
  intros Hc Ha H. unfold acquireTranscript, bind in H.
  destruct (existingTranscript e ts ep st) as [[transcript|message] s1] eqn:H2.
  - pose proof (existingTranscript_during true true (writesOnly []) e ts ep
                  (fun _ => I) _ _ _ H2) as Hd.
    eapply audioFallback_released; [| |exact H].
    + rewrite (during_createdFiles e _ _ _ _ Hd). exact Hc.
    + destruct Hd as (_ & Ha1 & _). rewrite Ha1 by reflexivity. exact Ha.
  - pose proof (existingTranscript_during true true (writesOnly []) e ts ep
                  (fun _ => I) _ _ _ H2) as Hd.
    inversion H; subst. apply released_nothing_created.
    rewrite (during_createdFiles e _ _ _ _ Hd). exact Hc.
Qed.

Lemma tryBody_released (e : env) (req : request) (ts : Z) (st st' : state)
    (r : outcome response) :
  createdFiles e (trace st) = [] ->
  audioPath st = None ->
  tryBody e req ts st = (r, st') ->
  released e st'.
Proof.
  intros Hc Ha H. unfold tryBody in H. unfold bind at 1 in H.
  destruct (searchListenNotes _ _ _ st) as [found s1] eqn:Hs.
  pose proof (searchListenNotes_during true true (writesOnly []) e _ _
                (fun _ => I) _ _ _ Hs) as Hd.
  assert (Hc1 : createdFiles e (trace s1) = [])
    by (rewrite (during_createdFiles e _ _ _ _ Hd); exact Hc).
  assert (Ha1 : audioPath s1 = None)
    by (destruct Hd as (_ & Ha1 & _); rewrite Ha1 by reflexivity; exact Ha).
  destruct found as [[ep|]|message].
  - unfold bind at 1 in H.
    destruct (acquireTranscript e ts ep s1) as [acquired s2] eqn:Hacq.
    pose proof (acquireTranscript_released _ _ _ _ _ _ Hc1 Ha1 Hacq) as Hr.
    destruct acquired as [[early|transcript]|message].
    + inversion H; subst. exact Hr.
    + eapply released_during; [exact Hr|].
      eapply (summarizeAndRespond_during true true (writesOnly []));
        [| |exact H]; intros; exact I.
    + inversion H; subst. exact Hr.
  - unfold bind, logToSupabase, modify, ret in H. inversion H; subst.
    apply released_nothing_created. cbn [trace emit].
    rewrite createdFiles_app, Hc1. reflexivity.
  - inversion H; subst. apply released_nothing_created, Hc1.
Qed.

(** The [finally] block removes what [audioPath] names. *)
Lemma releaseAudio_releases (e : env) (st : state) (p : jsstring) :
  released e st ->
  In p (createdFiles e (trace (snd (releaseAudio st)))) ->
  files (snd (releaseAudio st)) !! p = None.
Proof.
  intros Hr. unfold releaseAudio, bind, get.
  destruct (audioPath st) as [path|] eqn:Hp.
  - destruct (nonEmpty path) eqn:Hn.
    + rewrite cleanupTempFiles_eq. cbn [snd trace files setFiles foldl].
      intros Hin. apply lookup_delete_None.
      destruct (Hr p Hin) as [Hnone|[Heq _]]; [right; exact Hnone|].
      left. congruence.
    + cbn [snd ret]. intros Hin.
      destruct (Hr p Hin) as [Hnone|[Heq Hne]]; [exact Hnone|].
      congruence.
  - cbn [snd ret]. intros Hin.
    destruct (Hr p Hin) as [Hnone|[Heq _]]; [exact Hnone | congruence].
Qed.

(** C1: whatever the outcome of a request, every file that a subprocess of
    the run created (the full download and the trimmed snippet are the only
    ones) is absent from the temporary directory when the handler has
    finished. A deletion is taken to succeed whenever the file exists. *)
Theorem C1_no_audio_file_remains (e : env) (req : request) (fs : gmap (list N) N)
    (p : jsstring) :
  In p (createdFiles e (trace (snd (handle e req fs)))) ->
  files (snd (handle e req fs)) !! p = None.
Proof.
  unfold handle, processInsight.
  destruct (negb (truthy (title req))); [intros []|].
  unfold pipeline, bind, modify, finally.
  destruct (tryCatch _ _ (setAudioPath None (initial fs))) as [r s1] eqn:Hc.
  cbn [snd]. apply releaseAudio_releases.
  unfold tryCatch in Hc.
  destruct (tryBody _ _ _ _) as [[r1|message] s0] eqn:Hb.
  - inversion Hc; subst.
    eapply tryBody_released; [| |exact Hb]; reflexivity.
  - unfold onError, ret in Hc. inversion Hc; subst.
    eapply tryBody_released; [| |exact Hb]; reflexivity.
Qed.

Lemma C1_no_audio_file_remains_witness :
  files (snd (handle goodEnv (sampleRequest (JNum 12)) ∅))
    !! snippetPath goodEnv = None.
Proof.
  apply (C1_no_audio_file_remains goodEnv (sampleRequest (JNum 12)) ∅).
  vm_compute. right. left. reflexivity.
Defined.

(** In that run both files were created, and the directory ends empty. *)
Lemma sample_run_created_files :
  createdFiles goodEnv (trace (snd (handle goodEnv (sampleRequest (JNum 12)) ∅)))
    = [fullAudioPath goodEnv; snippetPath goodEnv] /\
  files (snd (handle goodEnv (sampleRequest (JNum 12)) ∅)) = ∅.
Proof. split; vm_compute; reflexivity. Qed.

(** ** The empty transcript *)

(** C8: when control reaches the check before step 4 with a transcript that
    is empty or only whitespace, the response is the 500 one and no call to
    the language model was made. *)
Theorem C8_blank_transcript_not_summarized (e : env) (req : request)
    (fs : gmap (list N) N) (t : option jsstring) :
  transcriptAtCheck e req fs = Some t ->
  isBlank t = true ->
  exists st,
    handle e req fs
      = (Returned {| status := 500;
                     payloadOf := Failure (js "Failed to get transcript for this segment") |},
         st) /\
    Forall notSummarize (trace st).
Proof.
  intros Hat Hblank. unfold transcriptAtCheck in Hat. unfold handle, processInsight.
  destruct (negb (truthy (title req))); [discriminate Hat|].
  destruct (searchListenNotes _ _ _ _) as [[[ep|]|m1] s1] eqn:Hs;
    try discriminate Hat.
  destruct (acquireTranscript _ _ _ s1) as [[[early|t']|m2] s2] eqn:Ha;
    try discriminate Hat.
  inversion Hat; subst t'. clear Hat.
  unfold pipeline, finally, tryCatch, tryBody.
  unfold bind at 1. cbn [modify].
  rewrite (bind_Returned _ _ _ _ _ Hs).
  rewrite (bind_Returned _ _ _ _ _ Ha).
  unfold summarizeAndRespond. rewrite Hblank. cbn [ret].
  eexists. split; [reflexivity|].
  destruct (releaseAudio s2) as [rr s3] eqn:Hr. cbn [snd].
  eapply during_Forall;
    [eapply (releaseAudio_during notSummarize), Hr|].
  eapply during_Forall;
    [eapply (acquireTranscript_during notSummarize), Ha; intros; exact I|].
  eapply during_Forall;
    [eapply (searchListenNotes_during false false notSummarize), Hs; intros; exact I|].
  constructor.
Qed.

Lemma C8_blank_transcript_not_summarized_witness :
  exists st,
    handle (sampleEnv [sampleResult] 50000 (js "   ") (js "- never asked"))
      (sampleRequest (JNum 12)) ∅
      = (Returned {| status := 500;
                     payloadOf := Failure (js "Failed to get transcript for this segment") |},
         st) /\
    Forall notSummarize (trace st).
Proof.
  apply (C8_blank_transcript_not_summarized
           (sampleEnv [sampleResult] 50000 (js "   ") (js "- never asked"))
           (sampleRequest (JNum 12)) ∅ (Some (js "   "))).
  - vm_compute. reflexivity.
  - reflexivity.
Defined.

(** An empty result of step 2 is not an error: the audio path is taken. *)
Lemma empty_segment_falls_back_to_audio (e : env) (ts : Z) (ep : episode) :
  audioFallback e ts ep (Some [])
    = audioFallback e ts ep None.
Proof. reflexivity. Qed.

(** ** The earlier revision *)

(** There, no candidate is answered with status 404. *)
Lemma rev1_not_found_is_404 (e : env) (req : request) (fs : gmap (list N) N) :
  truthy (title req) = true ->
  noCandidates (listenNotesSearch e
                  (Rev1.searchQuery (title req) (jsor (showName req) (JStr [])))) ->
  fst (Rev1.handle e req fs)
    = Returned {| status := 404;
                  payloadOf := Failure
                    (js "Could not find podcast episode in Listen Notes") |}.
Proof.
  intros Ht Hn. unfold Rev1.handle, Rev1.processInsight. rewrite Ht. cbn [negb].
  unfold Rev1.pipeline, finally, tryCatch, Rev1.tryBody, Rev1.searchListenNotes.
  unfold bind, httpGet. cbn [modify].
  destruct Hn as [H|H]; rewrite H; reflexivity.
Qed.

(** There, the response reports the title and show the search resolved. *)
Lemma rev1_reports_resolved_title :
  exists d st,
    Rev1.handle goodEnv (sampleRequest (JNum 12)) ∅
      = (Returned {| status := 200; payloadOf := Success d |}, st) /\
    episodeTitle d = JStr (js "Resolved title") /\
    insightShowName d = JStr (js "Resolved show").
Proof. do 2 eexists. split; [vm_compute; reflexivity|]. split; reflexivity. Qed.

(** There, no size is checked: a download of 12 bytes is returned as the
    snippet, where the later revision throws. *)
Lemma rev1_accepts_small_download :
  fst (Rev1.extractAudioSnippet tinyEnv (js "http://host/episode.mp3") 12 30 (initial ∅))
    = Returned (snippetPath tinyEnv) /\
  fst (extractAudioSnippet tinyEnv (js "http://host/episode.mp3") 12 30 (initial ∅))
    = Thrown (js "Failed to extract audio snippet: Downloaded file too small").
Proof. split; vm_compute; reflexivity. Qed.

(** * Further properties of the code *)

(** ** The flat branch of the segmenter *)

Lemma split_not_nil (c : N) (s : jsstring) : split c s <> [].
Proof.
  destruct s as [|x r]; simpl; [discriminate|].
  destruct (N.eqb x c); [discriminate|].
  destruct (split c r); discriminate.
Qed.

Lemma join_cons (sep x y : jsstring) (l : list jsstring) :
  join sep (x :: y :: l) = x ++ sep ++ join sep (y :: l).
Proof. reflexivity. Qed.

(** Joining the pieces with the separator gives the string back. *)
Lemma join_split (c : N) (s : jsstring) : join [c] (split c s) = s.
Proof.
  induction s as [|x r IH]; [reflexivity|].
  cbn [split]. pose proof (split_not_nil c r) as Hn.
  destruct (N.eqb_spec x c) as [->|Hne].
  - destruct (split c r) as [|w ws]; [contradiction|].
    rewrite join_cons, IH. reflexivity.
  - destruct (split c r) as [|w ws]; [contradiction|].
    destruct ws as [|w' ws'].
    + simpl in *. rewrite IH. reflexivity.
    + rewrite join_cons. rewrite join_cons in IH. rewrite <- IH. reflexivity.
Qed.

(** The slice the flat branch takes, with indices that are not negative. *)
Lemma flat_segment_slice (s : jsstring) (t w idx : Z) :
  0 <= t ->
  approximateWordIndex t = Some idx ->
  0 <= idx /\
  extractTranscriptSegment (PString s) t w
    = Some (join SPACE
              (drop (Z.to_nat (Z.max 0 (idx - 25)))
                 (take (Z.to_nat (Z.min (Z.of_nat (length (split 32 s))) (idx + 75)))
                    (split 32 s)))).
Proof.
  intros Ht Hidx.
  pose proof (approximateWordIndex_notNegative t idx Ht Hidx) as Hpos.
  split; [exact Hpos|].
  unfold extractTranscriptSegment. rewrite Hidx. cbv zeta.
  rewrite slice_range by lia. reflexivity.
Qed.

(** X1: for a timestamp that is not negative the flat branch returns at most
    a hundred pieces of [transcript.split(' ')], and they are consecutive
    pieces. *)
Theorem flat_segment_at_most_100_pieces (s : jsstring) (t w : Z) :
  0 <= t ->
  exists pre mid post,
    split 32 s = pre ++ mid ++ post /\
    extractTranscriptSegment (PString s) t w = Some (join SPACE mid) /\
    (length mid <= 100)%nat.
Proof.
  intros Ht. destruct (approximateWordIndex t) as [idx|] eqn:Hidx.
  - destruct (flat_segment_slice s t w idx Ht Hidx) as [Hpos Heq].
    set (a := Z.to_nat (Z.max 0 (idx - 25))) in *.
    set (b := Z.to_nat (Z.min (Z.of_nat (length (split 32 s))) (idx + 75))) in *.
    exists (take a (take b (split 32 s))), (drop a (take b (split 32 s))),
      (drop b (split 32 s)).
    split; [|split; [exact Heq|]].
    + rewrite app_assoc, take_drop, take_drop. reflexivity.
    + rewrite length_drop, length_take. unfold a, b. lia.
  - exists [], [], (split 32 s). unfold extractTranscriptSegment. rewrite Hidx.
    repeat split. simpl. lia.
Qed.

Lemma flat_segment_at_most_100_pieces_witness :
  exists pre mid post,
    split 32 (js "one two three") = pre ++ mid ++ post /\
    extractTranscriptSegment (PString (js "one two three")) 754 30
      = Some (join SPACE mid) /\
    (length mid <= 100)%nat.
Proof. apply (flat_segment_at_most_100_pieces (js "one two three") 754 30). lia. Defined.

(** X2: a transcript of few words near the start of the episode comes back
    unchanged: when the word index is at most 25 and the transcript has at
    most index + 75 pieces, the flat branch returns the whole transcript. *)
Theorem flat_short_transcript_unchanged (s : jsstring) (t w idx : Z) :
  0 <= t ->
  approximateWordIndex t = Some idx ->
  idx <= 25 ->
  Z.of_nat (length (split 32 s)) <= idx + 75 ->
  extractTranscriptSegment (PString s) t w = Some s.
Proof.
  intros Ht Hidx H25 Hlen.
  destruct (flat_segment_slice s t w idx Ht Hidx) as [Hpos ->].
  rewrite Z.max_l by lia. rewrite Z.min_l by lia.
  rewrite Nat2Z.id. cbn [Z.to_nat drop]. rewrite take_ge by lia.
  f_equal. apply join_split.
Qed.

Lemma flat_short_transcript_unchanged_witness :
  extractTranscriptSegment (PString (js "so  here we go")) 10 30
    = Some (js "so  here we go").
Proof.
  apply (flat_short_transcript_unchanged (js "so  here we go") 10 30 25);
    [lia | vm_compute; reflexivity | lia | vm_compute; discriminate].
Defined.

(** X3: a negative timestamp is not clamped at the end of the range: when
    index + 75 is negative, [slice] counts it from the end, and the flat
    branch returns the transcript without its last -(index + 75) pieces. *)
Theorem flat_negative_timestamp_drops_tail (s : jsstring) (t w idx : Z) :
  approximateWordIndex t = Some idx ->
  idx + 75 < 0 ->
  extractTranscriptSegment (PString s) t w
    = Some (join SPACE
              (take (length (split 32 s) - Z.to_nat (- (idx + 75)))
                 (split 32 s))).
Proof.
  intros Hidx Hneg. unfold extractTranscriptSegment. rewrite Hidx. cbv zeta.
  unfold slice.
  set (len := Z.of_nat (length (split 32 s))).
  rewrite (Z.max_l 0 (idx - 25)) by lia.
  rewrite (Z.min_r len (idx + 75)) by lia.
  destruct (Z.ltb_spec 0 0) as [?|_]; [lia|].
  destruct (Z.ltb_spec (idx + 75) 0) as [_|?]; [|lia].
  rewrite (Z.min_l 0 len) by lia. cbn [Z.to_nat drop].
  do 3 f_equal. unfold len. lia.
Qed.

Lemma flat_negative_timestamp_drops_tail_witness :
  extractTranscriptSegment (PString (js "a b c d e")) (-31) 30 = Some (js "a b").
Proof.
  apply (flat_negative_timestamp_drops_tail (js "a b c d e") (-31) 30 (-78));
    [vm_compute; reflexivity | lia].
Defined.

(** ** The structured branch of the segmenter *)

(** X4: a segment longer than duration + 10 seconds never fits the window, so
    a transcript made of such segments gives the empty string at every
    timestamp. *)
Theorem structured_long_segments_give_empty (segs : list segment) (t w : Z) :
  (forall seg, In seg segs -> segEnd seg - segStart seg > w + 10) ->
  extractTranscriptSegment (PArray segs) t w = Some [].
Proof.
  intros H. unfold extractTranscriptSegment. rewrite filter_none; [reflexivity|].
  intros seg Hin. specialize (H seg Hin).
  destruct (relevant t w seg) eqn:E; [|reflexivity].
  apply relevant_iff in E. lia.
Qed.

Lemma structured_long_segments_give_empty_witness :
  extractTranscriptSegment (PArray [longSegment]) 50 30 = Some [].
Proof.
  apply (structured_long_segments_give_empty [longSegment] 50 30).
  intros seg [<-|[]]. vm_compute. reflexivity.
Defined.

(** ** Reading the timestamp *)

Lemma digitValue_digit (c : N) :
  digitChar c -> digitValue 10 c = Some (c - 48)%N.
Proof.
  intros [H1 H2]. unfold digitValue.
  assert (E1 : (48 <=? c)%N = true) by (apply N.leb_le; lia).
  assert (E2 : (c <=? 57)%N = true) by (apply N.leb_le; lia).
  rewrite E1, E2. cbn [andb].
  assert (E3 : (c - 48 <? 10)%N = true) by (apply N.ltb_lt; lia).
  rewrite E3. reflexivity.
Qed.

Lemma parseDigits_app (ds rest : jsstring) (a : N) :
  Forall digitChar ds ->
  parseDigits 10 (ds ++ rest) (Some a)
    = parseDigits 10 rest
        (Some (fold_left (fun acc c => acc * 10 + (c - 48))%N ds a)).
Proof.
  intros H. revert a. induction H as [|c ds Hc _ IH]; intros a; [reflexivity|].
  cbn [app parseDigits fold_left]. rewrite (digitValue_digit c Hc). apply IH.
Qed.

(** The digits [digitsFuel] puts in front of the accumulator. *)
Lemma digitsFuel_spec (f : nat) (n : N) (acc : jsstring) :
  (n < 10 ^ N.of_nat (S f))%N ->
  exists c ds,
    digitsFuel (S f) n acc = (c :: ds) ++ acc /\
    Forall digitChar (c :: ds) /\
    forall a, fold_left (fun x d => x * 10 + (d - 48))%N (c :: ds) a
              = (a * 10 ^ N.of_nat (length (c :: ds)) + n)%N.
Proof.
  revert n acc. induction f as [|f IH]; intros n acc Hn.
  - change (10 ^ N.of_nat 1)%N with 10%N in Hn.
    exists (48 + n mod 10)%N, []. cbn [digitsFuel].
    rewrite (proj2 (N.ltb_lt n 10) Hn). split; [reflexivity|].
    rewrite N.mod_small by lia. split.
    + constructor; [unfold digitChar; lia | constructor].
    + intros a. cbn [fold_left length]. change (N.of_nat 1) with 1%N.
      rewrite N.pow_1_r. lia.
  - remember (S f) as fuel eqn:Hfuel.
    cbn [digitsFuel]. destruct (N.ltb_spec n 10) as [Hlt|Hge].
    + exists (48 + n mod 10)%N, []. split; [reflexivity|].
      rewrite N.mod_small by lia. split.
      * constructor; [unfold digitChar; lia | constructor].
      * intros a. cbn [fold_left length]. change (N.of_nat 1) with 1%N.
        rewrite N.pow_1_r. lia.
    + assert (Hf : (n / 10 < 10 ^ N.of_nat fuel)%N).
      { apply N.Div0.div_lt_upper_bound.
        rewrite Nat2N.inj_succ, N.pow_succ_r' in Hn. exact Hn. }
      destruct (IH (n / 10)%N ((48 + n mod 10)%N :: acc) Hf)
        as (c & ds & Heq & Hall & Hval).
      exists c, (ds ++ [(48 + n mod 10)%N]). split; [|split].
      * rewrite Heq. cbn [app]. rewrite <- app_assoc. reflexivity.
      * change (c :: ds ++ [(48 + n mod 10)%N])
          with ((c :: ds) ++ [(48 + n mod 10)%N]).
        apply Forall_app. split; [exact Hall|].
        pose proof (N.mod_lt n 10 ltac:(lia)) as Hmod.
        constructor; [|constructor]. unfold digitChar.
        generalize dependent (n mod 10)%N. intros; lia.
      * intros a.
        change (c :: ds ++ [(48 + n mod 10)%N])
          with ((c :: ds) ++ [(48 + n mod 10)%N]).
        rewrite fold_left_app, Hval. cbn [fold_left].
        rewrite length_app. cbn [length].
        rewrite Nat.add_1_r, !Nat2N.inj_succ, !N.pow_succ_r'.
        pose proof (N.div_mod n 10 ltac:(lia)) as Hdm.
        pose proof (N.mod_lt n 10 ltac:(lia)) as Hmod.
        set (k := (10 ^ N.of_nat (length ds))%N).
        clearbody k. clear - Hdm Hmod.
        generalize dependent (n mod 10)%N. generalize dependent (n / 10)%N.
        intros; lia.
Qed.

Lemma decimal_spec (n : N) :
  exists c ds,
    decimal n = c :: ds /\
    Forall digitChar (c :: ds) /\
    parseDigits 10 (c :: ds) None = Some n.
Proof.
  unfold decimal.
  destruct (digitsFuel_spec (N.to_nat (N.log2 n)) n []) as (c & ds & Heq & Hall & Hval).
  - rewrite Nat2N.inj_succ, N2Nat.id.
    destruct (N.eq_dec n 0%N) as [->|Hn]; [reflexivity|].
    pose proof (N.log2_spec n ltac:(lia)) as [_ Hlt].
    eapply N.lt_le_trans; [exact Hlt|].
    apply N.pow_le_mono_l. lia.
  - exists c, ds. rewrite Heq, app_nil_r. split; [reflexivity|]. split; [exact Hall|].
    inversion Hall as [|? ? Hc Hds]; subst.
    cbn [parseDigits]. rewrite (digitValue_digit c Hc).
    pose proof (parseDigits_app ds [] (c - 48)%N Hds) as Happ.
    rewrite app_nil_r in Happ. rewrite Happ. cbn [parseDigits].
    f_equal. specialize (Hval 0%N). cbn [fold_left] in Hval.
    rewrite !N.mul_0_l, !N.add_0_l in Hval. exact Hval.
Qed.

Lemma digit_not_space (c : N) : digitChar c -> isWhiteSpace c = false.
Proof.
  intros [H1 H2]. unfold isWhiteSpace. cbn [existsb].
  repeat match goal with
         | |- context [N.eqb c ?k] =>
             rewrite (proj2 (N.eqb_neq c k)) by lia
         end.
  cbn [orb]. rewrite (proj2 (N.leb_gt 8192 c)) by lia. reflexivity.
Qed.

Ltac destruct_matches :=
  repeat (match goal with
          | |- context [match ?x with _ => _ end] => destruct x
          end; try reflexivity).

(** The digits of a number, read as [parseInt] reads them. *)
Lemma parseInt_digits (c : N) (ds : jsstring) (n : N) (neg : bool) :
  Forall digitChar (c :: ds) ->
  parseDigits 10 (c :: ds) None = Some n ->
  parseInt (JStr (if neg then 45%N :: c :: ds else c :: ds))
    = Some (if neg then - Z.of_N n else Z.of_N n).
Proof.
  intros Hall Hval. inversion Hall as [|? ? Hc Hds]; subst.
  assert (Hradix : match c :: ds with
                   | 48%N :: 120%N :: r => (16%N, r)
                   | 48%N :: 88%N :: r => (16%N, r)
                   | _ => (10%N, c :: ds)
                   end = (10%N, c :: ds)).
  { clear Hval Hall Hc. destruct ds as [|d ds']; [destruct_matches|].
    inversion Hds as [|? ? [Hd1 Hd2] _]; subst. clear Hds.
    destruct (N.eq_dec d 120%N) as [->|H120]; [lia|].
    destruct (N.eq_dec d 88%N) as [->|H88]; [lia|].
    clear Hd1 Hd2. destruct_matches; congruence. }
  assert (Hsign : match c :: ds with
                  | 45%N :: r => (true, r)
                  | 43%N :: r => (false, r)
                  | _ => (false, c :: ds)
                  end = (false, c :: ds)).
  { destruct Hc as [Hc1 Hc2]. clear Hval Hall Hradix Hds.
    destruct (N.eq_dec c 45%N) as [->|H45]; [lia|].
    destruct (N.eq_dec c 43%N) as [->|H43]; [lia|].
    clear Hc1 Hc2. destruct_matches; congruence. }
  unfold parseInt. cbn [ToString].
  destruct neg.
  - unfold trimStart. cbn [dropWhile].
    change (isWhiteSpace 45) with false. cbv iota.
    rewrite Hradix, Hval. reflexivity.
  - unfold trimStart. cbn [dropWhile]. rewrite (digit_not_space c Hc).
    rewrite Hsign, Hradix, Hval. reflexivity.
Qed.

(** *** Whole numbers as doubles *)

Lemma iter_xO_value (p k : positive) :
  Z.pos (Pos.iter xO p k) = Z.pos p * 2 ^ Z.pos k.
Proof.
  induction k as [|k IH] using Pos.peano_ind.
  - cbn [Pos.iter]. rewrite (Pos2Z.inj_xO p). change (2 ^ 1) with 2. lia.
  - rewrite Pos.iter_succ, Pos2Z.inj_xO, IH, Pos2Z.inj_succ, Z.pow_succ_r by lia. lia.
Qed.

Lemma iter_xO_digits (p k : positive) :
  digits2_pos (Pos.iter xO p k) = (digits2_pos p + k)%positive.
Proof.
  induction k as [|k IH] using Pos.peano_ind.
  - cbn [Pos.iter digits2_pos]. lia.
  - rewrite Pos.iter_succ. cbn [digits2_pos]. rewrite IH. lia.
Qed.

Lemma digits2_lower (p : positive) : 2 ^ (Z.pos (digits2_pos p) - 1) <= Z.pos p.
Proof.
  induction p as [p IH|p IH|]; cbn [digits2_pos]; rewrite ?Pos2Z.inj_succ.
  - pose proof (Pos2Z.is_pos (digits2_pos p)) as Hpos.
    replace (Z.succ (Z.pos (digits2_pos p)) - 1) with (Z.succ (Z.pos (digits2_pos p) - 1)) by lia.
    rewrite Z.pow_succ_r by lia. rewrite (Pos2Z.inj_xI p).
    generalize dependent (2 ^ (Z.pos (digits2_pos p) - 1)). intros; lia.
  - pose proof (Pos2Z.is_pos (digits2_pos p)) as Hpos.
    replace (Z.succ (Z.pos (digits2_pos p)) - 1) with (Z.succ (Z.pos (digits2_pos p) - 1)) by lia.
    rewrite Z.pow_succ_r by lia. rewrite (Pos2Z.inj_xO p).
    generalize dependent (2 ^ (Z.pos (digits2_pos p) - 1)). intros; lia.
  - reflexivity.
Qed.

Lemma digits2_at_most_53 (p : positive) :
  Z.pos p < 2 ^ 53 -> Z.pos (digits2_pos p) <= 53.
Proof.
  intros Hp. destruct (Z.le_gt_cases (Z.pos (digits2_pos p)) 53) as [H|H]; [exact H|].
  exfalso. pose proof (digits2_lower p) as Hl.
  assert (2 ^ 53 <= 2 ^ (Z.pos (digits2_pos p) - 1)) by (apply Z.pow_le_mono_r; lia).
  lia.
Qed.

Lemma binary_round_aux_exact (s : bool) (m : positive) (e : Z) :
  Z.pos (digits2_pos m) = 53 -> -1074 <= e <= 971 ->
  binary_round_aux 53 1024 s (Z.pos m) e loc_Exact = S754_finite s m e.
Proof.
  intros Hd He.
  assert (Hs : shr_fexp 53 1024 (Z.pos m) e loc_Exact
               = ({| shr_m := Z.pos m; shr_r := false; shr_s := false |}, e)).
  { unfold shr_fexp. cbn [Zdigits2]. rewrite Hd.
    replace (fexp 53 1024 (53 + e) - e) with 0 by (unfold fexp, emin; lia).
    reflexivity. }
  unfold binary_round_aux. rewrite Hs. cbn [shr_m loc_of_shr_record round_nearest_even].
  rewrite Hs. cbn [shr_m].
  rewrite (proj2 (Z.leb_le e (1024 - 53))) by lia. reflexivity.
Qed.

Lemma binary_round_exact (s : bool) (p : positive) :
  Z.pos p < 2 ^ 53 ->
  exists m e,
    binary_round 53 1024 s p 0 = S754_finite s m e /\
    e <= 0 /\ Z.pos m = Z.pos p * 2 ^ (- e).
Proof.
  intros Hp. pose proof (digits2_at_most_53 p Hp) as Hd.
  assert (Hd1 : 1 <= Z.pos (digits2_pos p)) by lia.
  unfold binary_round.
  replace (fexp 53 1024 (Z.pos (digits2_pos p) + 0)) with (Z.pos (digits2_pos p) - 53)
    by (unfold fexp, emin; lia).
  unfold shl_align.
  destruct (Z.pos (digits2_pos p) - 53 - 0) as [|k|k] eqn:E; [|lia|].
  - exists p, 0. split; [|split; [lia | rewrite Z.mul_1_r; reflexivity]].
    apply binary_round_aux_exact; lia.
  - exists (Pos.iter xO p k), (Z.pos (digits2_pos p) - 53).
    split; [|split; [lia|]].
    + apply binary_round_aux_exact; [|lia].
      rewrite iter_xO_digits, Pos2Z.inj_add. lia.
    + rewrite iter_xO_value. f_equal. f_equal. lia.
Qed.

(** Up to 2^53 a double holds every whole number exactly. *)
Lemma double_holds_whole_number (z : Z) :
  Z.abs z <= 2 ^ 53 -> Math_floor (double_of_Z z) = Some z.
Proof.
  intros Hz.
  destruct (Z.eq_dec (Z.abs z) (2 ^ 53)) as [Heq|Hne].
  - destruct (Z.abs_eq_or_opp z) as [Ha|Ha]; rewrite Ha in Heq.
    + subst z. vm_compute. reflexivity.
    + assert (z = - 2 ^ 53) by lia. subst z. vm_compute. reflexivity.
  - destruct z as [|p|p]; [reflexivity| |].
    + destruct (binary_round_exact false p) as (m & e & Hr & He & Hm); [lia|].
      unfold double_of_Z, binary_normalize. rewrite Hr. cbn [Math_floor]. f_equal.
      destruct (Z.ltb_spec e 0) as [Hlt|Hge].
      * rewrite Hm. apply Z.div_mul. apply Z.pow_nonzero; lia.
      * assert (e = 0) by lia. subst e. rewrite Hm. cbn. lia.
    + destruct (binary_round_exact true p) as (m & e & Hr & He & Hm); [lia|].
      unfold double_of_Z, binary_normalize. rewrite Hr. cbn [Math_floor]. f_equal.
      replace (Z.neg m) with (- Z.pos p * 2 ^ (- e)) by lia.
      destruct (Z.ltb_spec e 0) as [Hlt|Hge].
      * apply Z.div_mul. apply Z.pow_nonzero; lia.
      * assert (e = 0) by lia. subst e. cbn. lia.
Qed.

(** X5: a whole number up to 2^53 in magnitude is held exactly by a double,
    and sent as the timestamp it is read back as it is: [parseInt(String(z))]
    is z, for a JSON number and for the string of its digits alike. Up to
    2^53 [String] prints all the digits of the number, so the integers here
    are the numbers of the code; beyond, the code rounds. *)
Theorem parseInt_of_whole_number (z : Z) :
  Z.abs z <= 2 ^ 53 ->
  Math_floor (double_of_Z z) = Some z /\
  parseInt (JNum z) = Some z /\
  parseInt (JStr (numberToString z)) = Some z /\
  parseIntOrZero (JNum z) = z.
Proof.
  intros Hz. split; [apply double_holds_whole_number, Hz|].
  assert (H : parseInt (JStr (numberToString z)) = Some z).
  { destruct z as [|p|p].
    - reflexivity.
    - destruct (decimal_spec (Npos p)) as (c & ds & Heq & Hall & Hval).
      cbn [numberToString]. rewrite Heq.
      apply (parseInt_digits c ds (Npos p) false Hall Hval).
    - destruct (decimal_spec (Npos p)) as (c & ds & Heq & Hall & Hval).
      cbn [numberToString]. rewrite Heq.
      apply (parseInt_digits c ds (Npos p) true Hall Hval). }
  assert (H' : parseInt (JNum z) = Some z) by exact H.
  repeat split; try assumption.
  unfold parseIntOrZero. rewrite H'. reflexivity.
Qed.

Lemma parseInt_of_whole_number_witness :
  Math_floor (double_of_Z 754) = Some 754 /\
  parseInt (JNum 754) = Some 754 /\
  parseInt (JStr (numberToString 754)) = Some 754 /\
  parseIntOrZero (JNum 754) = 754.
Proof. apply (parseInt_of_whole_number 754). vm_compute. discriminate. Defined.

(** ** The episode resolver *)

Lemma find_first {A} (f : A -> bool) (l : list A) (x : A) :
  List.find f l = Some x ->
  exists before after,
    l = before ++ x :: after /\
    Forall (fun y => f y = false) before /\
    f x = true.
Proof.
  induction l as [|y l IH]; [discriminate|].
  cbn [List.find]. destruct (f y) eqn:E.
  - intros H. inversion H; subst. exists [], l. repeat split; [constructor | exact E].
  - intros H. destruct (IH H) as (before & after & -> & Hb & Hx).
    exists (y :: before), after. repeat split; [constructor; assumption | exact Hx].
Qed.

Lemma find_nowhere {A} (f : A -> bool) (l : list A) :
  List.find f l = None -> Forall (fun y => f y = false) l.
Proof.
  intros H. apply List.Forall_forall. intros y Hy. exact (find_none f l H y Hy).
Qed.

(** X6: with candidates from the search, [searchListenNotes] answers with
    the first candidate whose show matches the given show name (either name
    containing the other, the case of the letters A to Z aside), and with the
    first candidate of all when the name is empty or no candidate matches.
    The names are taken to be ASCII, where [toLowerCase] changes the letters
    A to Z only. *)
Theorem searchListenNotes_picks_candidate (e : env) (t : jsval) (s : jsstring)
    (st : state) (first : rawEpisode) (rest : list rawEpisode) :
  ascii s = true ->
  forallb (fun r => ascii (strOr (raw_podcast_title_original r) [])) (first :: rest)
    = true ->
  listenNotesSearch e (searchQuery t (JStr s)) = HttpOk (Some (first :: rest)) ->
  exists before r after,
    first :: rest = before ++ r :: after /\
    fst (searchListenNotes e t (JStr s) st) = Returned (Some (toEpisode r (JStr s))) /\
    Forall (fun r' => showMatches (toLowerCase s) r' = false) before /\
    (s <> [] /\ showMatches (toLowerCase s) r = true \/
     before = [] /\
     (s = [] \/
      Forall (fun r' => showMatches (toLowerCase s) r' = false) (first :: rest))).
Proof.
  intros _ _ H. unfold searchListenNotes, tryCatch, bind, httpGet. rewrite H.
  cbn [truthy]. destruct s as [|c s'].
  - exists [], first, rest. split; [reflexivity|]. split; [reflexivity|].
    split; [constructor|]. right. split; [reflexivity|]. left. reflexivity.
  - destruct (List.find (showMatches (toLowerCase (c :: s'))) (first :: rest))
      as [m|] eqn:Hfind.
    + destruct (find_first _ _ _ Hfind) as (before & after & Heq & Hb & Hm).
      exists before, m, after. split; [exact Heq|]. split; [reflexivity|].
      split; [exact Hb|]. left. split; [discriminate | exact Hm].
    + exists [], first, rest. split; [reflexivity|]. split; [reflexivity|].
      split; [constructor|]. right. split; [reflexivity|]. right.
      apply find_nowhere, Hfind.
Qed.

Lemma searchListenNotes_picks_candidate_witness :
  exists before r after,
    [otherResult; sampleResult; laterResult] = before ++ r :: after /\
    fst (searchListenNotes threeResultsEnv (JStr (js "My title"))
           (JStr (js "resolved")) (initial ∅))
      = Returned (Some (toEpisode r (JStr (js "resolved")))) /\
    Forall (fun r' => showMatches (toLowerCase (js "resolved")) r' = false) before /\
    (js "resolved" <> [] /\ showMatches (toLowerCase (js "resolved")) r = true \/
     before = [] /\
     (js "resolved" = [] \/
      Forall (fun r' => showMatches (toLowerCase (js "resolved")) r' = false)
        [otherResult; sampleResult; laterResult])).
Proof.
  apply (searchListenNotes_picks_candidate threeResultsEnv (JStr (js "My title"))
           (js "resolved") (initial ∅) otherResult [sampleResult; laterResult]);
    reflexivity.
Defined.

(** X7: a search that fails, for whatever reason, is reported with the one
    message "Failed to search for podcast episode", and the handler answers
    500 with that message after this single call. *)
Theorem search_failure_is_500 (e : env) (req : request) (fs : gmap (list N) N)
    (detail : jsstring) :
  truthy (title req) = true ->
  listenNotesSearch e (searchQuery (title req) (jsor (showName req) (JStr [])))
    = HttpError detail ->
  handle e req fs
    = (Returned {| status := 500;
                   payloadOf := Failure (js "Failed to search for podcast episode") |},
       emit (EvSearch (searchQuery (title req) (jsor (showName req) (JStr []))))
         (initial fs)).
Proof.
  intros Ht He. unfold handle, processInsight. rewrite Ht. cbn [negb].
  unfold pipeline, finally, tryCatch, tryBody, searchListenNotes, tryCatch.
  unfold bind, httpGet. rewrite He. reflexivity.
Qed.

Lemma search_failure_is_500_witness :
  fst (handle {| dirname := js "/srv"; now := 1%N;
                 exec := fun _ => {| exitOf := Exit0; written := None |};
                 listenNotesSearch := fun _ => HttpError (js "timeout");
                 listenNotesEpisode := fun _ => HttpOk None;
                 whisper := fun _ => HttpOk [];
                 chatCompletion := fun _ _ => HttpOk [] |}
         (sampleRequest (JNum 12)) ∅)
    = Returned {| status := 500;
                  payloadOf := Failure (js "Failed to search for podcast episode") |}.
Proof.
  erewrite search_failure_is_500; reflexivity.
Defined.


(** ** Temporary files *)

Lemma foldl_delete_lookup (paths : list jsstring) (m : gmap (list N) N) (p : jsstring) :
  foldl (fun acc q => delete q acc) m paths !! p
    = if bool_decide (p ∈ paths) then None else m !! p.
Proof.
  revert m. induction paths as [|q paths IH]; intros m; [reflexivity|].
  cbn [foldl]. rewrite IH.
  destruct (decide (p = q)) as [->|Hne].
  - rewrite lookup_delete_eq.
    rewrite (bool_decide_eq_true_2 (q ∈ q :: paths)) by (left).
    destruct (bool_decide (q ∈ paths)); reflexivity.
  - rewrite lookup_delete_ne by congruence.
    destruct (decide (p ∈ paths)) as [Hin|Hnin].
    + rewrite !bool_decide_eq_true_2; [reflexivity | right; exact Hin | exact Hin].
    + rewrite !bool_decide_eq_false_2; [reflexivity | | exact Hnin].
      intros Hc. apply elem_of_cons in Hc. destruct Hc; [congruence | contradiction].
Qed.

(** X9: [cleanupTempFiles] never throws, whether or not the files exist;
    afterwards every listed path is absent, every other path is as before,
    and no call has left the process. *)
Theorem cleanupTempFiles_removes (paths : list jsstring) (st : state) :
  exists st',
    cleanupTempFiles paths st = (Returned tt, st') /\
    (forall p, In p paths -> files st' !! p = None) /\
    (forall p, ~ In p paths -> files st' !! p = files st !! p) /\
    trace st' = trace st /\
    audioPath st' = audioPath st.
Proof.
  eexists. split; [apply cleanupTempFiles_eq|].
  cbn [files trace audioPath setFiles]. repeat split.
  - intros p Hin. rewrite foldl_delete_lookup.
    rewrite bool_decide_eq_true_2; [reflexivity|]. apply list_elem_of_In, Hin.
  - intros p Hnin. rewrite foldl_delete_lookup.
    rewrite bool_decide_eq_false_2; [reflexivity|].
    intros Hc. apply Hnin, list_elem_of_In, Hc.
Qed.

(** X10: when [extractAudioSnippet] returns, the path is the snippet path, the
    file at that path exists and has at least 1000 bytes, and the full
    download is gone. *)
Theorem extractAudioSnippet_returns_checked_file (e : env) (audioUrl : jsstring)
    (ts d : Z) (st st' : state) (path : jsstring) :
  extractAudioSnippet e audioUrl ts d st = (Returned path, st') ->
  path = snippetPath e /\
  (exists size, files st' !! path = Some size /\ (1000 <= size)%N) /\
  files st' !! fullAudioPath e = None.
Proof.
  intros H.
  destruct (extractAudioSnippet_files _ _ _ _ _ _ _ H) as [Hfull Hpath].
  split; [exact Hpath|]. split; [|exact Hfull]. subst path.
  unfold extractAudioSnippet in H. cbv zeta in H. unfold tryCatch at 1 in H.
  match type of H with
  | context [match ?body st with _ => _ end] =>
      destruct (body st) as [[path|message] sk] eqn:Hbody
  end.
  - inversion H; subst. clear H.
    unfold bind at 1 in Hbody.
    destruct (execAsync e _ st) as [[[]|m1] s1]; [|discriminate Hbody].
    unfold bind at 1 in Hbody.
    destruct (statSize (fullAudioPath e) s1) as [[n|m2] s1'] eqn:Hs1;
      [|discriminate Hbody].
    destruct (n <? 10000)%N; [discriminate Hbody|].
    unfold bind at 1 in Hbody.
    destruct (execAsync e _ s1') as [[[]|m3] s2]; [|discriminate Hbody].
    rewrite (bind_Returned _ _ _ _ _ (unlink_ignoring_failure _ s2)) in Hbody.
    unfold bind at 1 in Hbody.
    destruct (statSize (snippetPath e) _) as [[size|m4] s3] eqn:Hs3;
      [|discriminate Hbody].
    destruct (N.ltb_spec size 1000) as [Hlt|Hge]; [discriminate Hbody|].
    inversion Hbody; subst. exists size. split; [|exact Hge].
    unfold statSize in Hs3.
    destruct (files _ !! snippetPath e) as [k|] eqn:Hk; inversion Hs3; subst.
    exact Hk.
  - rewrite (bind_Returned _ _ _ _ _ (cleanupTempFiles_eq _ sk)) in H.
    discriminate H.
Qed.

Lemma extractAudioSnippet_returns_checked_file_witness :
  exists size,
    files (snd (extractAudioSnippet goodEnv (js "http://host/episode.mp3") 12 30
                  (initial ∅)))
      !! snippetPath goodEnv = Some size /\ (1000 <= size)%N.
Proof.
  destruct (extractAudioSnippet_returns_checked_file goodEnv
              (js "http://host/episode.mp3") 12 30 (initial ∅)
              (snd (extractAudioSnippet goodEnv (js "http://host/episode.mp3") 12 30
                      (initial ∅)))
              (snippetPath goodEnv))
    as (_ & H & _); [vm_compute; reflexivity | exact H].
Defined.

(** X11: [transcribeWithWhisper] looks at the file first: when there is no
    file at the path it throws "Failed to transcribe audio: " followed by the
    message of the failed [stat], without calling the transcription
    service. *)
Theorem transcribeWithWhisper_missing_file (e : env) (path : jsstring) (st : state) :
  files st !! path = None ->
  transcribeWithWhisper e path st
    = (Thrown (js "Failed to transcribe audio: "
                 ++ js "ENOENT: no such file or directory, stat '" ++ path ++ js "'"),
       st).
Proof.
  intros H. unfold transcribeWithWhisper, tryCatch, bind, statSize.
  rewrite H. reflexivity.
Qed.

Lemma transcribeWithWhisper_missing_file_witness :
  transcribeWithWhisper goodEnv (js "/srv/temp/gone.mp3") (initial ∅)
    = (Thrown (js "Failed to transcribe audio: ENOENT: no such file or directory, stat '/srv/temp/gone.mp3'"),
       initial ∅).
Proof.
  apply (transcribeWithWhisper_missing_file goodEnv (js "/srv/temp/gone.mp3") (initial ∅)).
  reflexivity.
Defined.

(** ** The order of the calls *)

Lemma inOrder_nil (lo hi : nat) : inOrder lo hi [].
Proof. split; constructor. Qed.

Lemma inOrder_one (lo hi : nat) (ev : event) :
  (lo <= stageNumber ev < hi)%nat -> inOrder lo hi [ev].
Proof.
  intros H. split.
  - repeat constructor.
  - repeat constructor; lia.
Qed.

Lemma inOrder_app (lo mid hi : nat) (l1 l2 : list event) :
  (lo <= mid <= hi)%nat ->
  inOrder lo mid l1 -> inOrder mid hi l2 -> inOrder lo hi (l1 ++ l2).
Proof.
  intros Hm [S1 B1] [S2 B2]. split.
  - rewrite map_app.
    induction l1 as [|x l1 IH]; [exact S2|].
    cbn [List.map app] in *.
    inversion S1 as [|? ? S1' F1]; subst. inversion B1 as [|? ? Hx B1']; subst.
    constructor; [apply IH; assumption|].
    apply Forall_app. split; [exact F1|].
    apply List.Forall_forall. intros y Hy. apply in_map_iff in Hy.
    destruct Hy as (ev & <- & Hev).
    rewrite List.Forall_forall in B2. specialize (B2 ev Hev). lia.
  - apply Forall_app. split.
    + eapply List.Forall_impl; [|exact B1]. cbv beta. intros ev Hev. lia.
    + eapply List.Forall_impl; [|exact B2]. cbv beta. intros ev Hev. lia.
Qed.

Lemma emitsInOrder_ret (lo hi : nat) {A} (a : A) : emitsInOrder lo hi (ret a).
Proof.
  intros st r st' H. inversion H; subst. exists [].
  rewrite app_nil_r. split; [reflexivity | apply inOrder_nil].
Qed.

Lemma emitsInOrder_throw (lo hi : nat) {A} (message : jsstring) :
  emitsInOrder lo hi (@throw A message).
Proof.
  intros st r st' H. inversion H; subst. exists [].
  rewrite app_nil_r. split; [reflexivity | apply inOrder_nil].
Qed.

Lemma emitsInOrder_weaken (lo hi lo' hi' : nat) {A} (m : M A) :
  (lo' <= lo)%nat -> (hi <= hi')%nat ->
  emitsInOrder lo hi m -> emitsInOrder lo' hi' m.
Proof.
  intros H1 H2 Hm st r st' H. destruct (Hm _ _ _ H) as (evs & Ht & S & B).
  exists evs. split; [exact Ht|]. split; [exact S|].
  eapply List.Forall_impl; [|exact B]. cbv beta. intros ev Hev. lia.
Qed.

Lemma emitsInOrder_bind (lo mid hi : nat) {A B} (m : M A) (k : A -> M B) :
  (lo <= mid <= hi)%nat ->
  emitsInOrder lo mid m -> (forall a, emitsInOrder mid hi (k a)) ->
  emitsInOrder lo hi (bind m k).
Proof.
  intros Hb Hm Hk st r st' H. unfold bind in H.
  destruct (m st) as [[a|message] s1] eqn:E.
  - destruct (Hm _ _ _ E) as (e1 & T1 & O1).
    destruct (Hk a _ _ _ H) as (e2 & T2 & O2).
    exists (e1 ++ e2). split.
    + rewrite T2, T1. symmetry. apply app_assoc.
    + eapply inOrder_app; eassumption.
  - inversion H; subst.
    exact (emitsInOrder_weaken lo mid lo hi m ltac:(lia) ltac:(lia) Hm _ _ _ E).
Qed.

Lemma emitsInOrder_tryCatch (lo mid hi : nat) {A} (m : M A) (h : jsstring -> M A) :
  (lo <= mid <= hi)%nat ->
  emitsInOrder lo mid m -> (forall message, emitsInOrder mid hi (h message)) ->
  emitsInOrder lo hi (tryCatch m h).
Proof.
  intros Hb Hm Hh st r st' H. unfold tryCatch in H.
  destruct (m st) as [[a|message] s1] eqn:E.
  - inversion H; subst.
    exact (emitsInOrder_weaken lo mid lo hi m ltac:(lia) ltac:(lia) Hm _ _ _ E).
  - destruct (Hm _ _ _ E) as (e1 & T1 & O1).
    destruct (Hh message _ _ _ H) as (e2 & T2 & O2).
    exists (e1 ++ e2). split.
    + rewrite T2, T1. symmetry. apply app_assoc.
    + eapply inOrder_app; eassumption.
Qed.

Lemma emitsInOrder_finally (lo mid hi : nat) {A} (m : M A) (cleanup : M unit) :
  (lo <= mid <= hi)%nat ->
  emitsInOrder lo mid m -> emitsInOrder mid hi cleanup ->
  emitsInOrder lo hi (finally m cleanup).
Proof.
  intros Hb Hm Hc st r st' H. unfold finally in H.
  destruct (m st) as [r1 s1] eqn:E.
  destruct (cleanup s1) as [rc sc] eqn:Ec. cbn [snd] in H. inversion H; subst.
  destruct (Hm _ _ _ E) as (e1 & T1 & O1).
  destruct (Hc _ _ _ Ec) as (e2 & T2 & O2).
  exists (e1 ++ e2). split.
  - rewrite T2, T1. symmetry. apply app_assoc.
  - eapply inOrder_app; eassumption.
Qed.

(** A computation that makes no call. *)
Lemma emitsInOrder_silent (lo hi : nat) {A} (m : M A) :
  respects (during false false noEvent) m -> emitsInOrder lo hi m.
Proof.
  intros Hm st r st' H. destruct (Hm _ _ _ H) as (_ & _ & evs & Ht & Hf).
  destruct evs as [|ev evs].
  - exists []. split; [exact Ht | apply inOrder_nil].
  - inversion Hf as [|? ? Hev _]. destruct Hev.
Qed.

Lemma during_silent_trace (f a : bool) (st st' : state) :
  during f a noEvent st st' -> trace st' = trace st.
Proof.
  intros (_ & _ & evs & Ht & Hf). destruct evs as [|ev evs].
  - rewrite Ht. apply app_nil_r.
  - inversion Hf as [|? ? Hev _]. destruct Hev.
Qed.

Lemma emitsInOrder_httpGet (lo hi : nat) {A} (ev : event) (r : http A) :
  (lo <= stageNumber ev < hi)%nat -> emitsInOrder lo hi (httpGet ev r).
Proof.
  intros Hb st r' st' H. unfold httpGet in H.
  exists [ev]. split; [destruct r; inversion H; reflexivity | apply inOrder_one, Hb].
Qed.

Lemma emitsInOrder_execAsync (lo hi : nat) (e : env) (c : command) :
  (lo <= stageNumber (EvExec c) < hi)%nat -> emitsInOrder lo hi (execAsync e c).
Proof.
  intros Hb st r st' H. unfold execAsync in H.
  exists [EvExec c]. split; [|apply inOrder_one, Hb].
  destruct (exitOf (exec e c)), (written (exec e c)); inversion H; reflexivity.
Qed.

Lemma emitsInOrder_log (lo hi : nat) (t s : jsval) (n : Z) (u : jsval) :
  (lo <= 6 < hi)%nat -> emitsInOrder lo hi (logToSupabase t s n u).
Proof.
  intros Hb st r st' H. inversion H; subst.
  exists [EvLog t s n u]. split; [reflexivity | apply inOrder_one, Hb].
Qed.

Ltac order_leaf :=
  repeat lazymatch goal with
         | |- emitsInOrder _ _ (ret _) => apply emitsInOrder_ret
         | |- emitsInOrder _ _ (throw _) => apply emitsInOrder_throw
         | |- emitsInOrder _ _ (if ?b then _ else _) => destruct b
         | |- emitsInOrder _ _ (match ?x with _ => _ end) => destruct x
         | |- emitsInOrder _ _ _ =>
             apply emitsInOrder_silent; solve [respects_auto]
         end.

Lemma searchListenNotes_order (e : env) (t s : jsval) :
  emitsInOrder 0 1 (searchListenNotes e t s).
Proof.
  unfold searchListenNotes.
  apply (emitsInOrder_tryCatch 0 1 1); [lia| |intros; order_leaf].
  apply (emitsInOrder_bind 0 1 1);
    [lia | apply emitsInOrder_httpGet; simpl; lia | intros; order_leaf].
Qed.

Lemma existingTranscript_order (e : env) (ts : Z) (ep : episode) :
  emitsInOrder 1 2 (existingTranscript e ts ep).
Proof.
  unfold existingTranscript, getEpisodeTranscript.
  destruct (ep_hasTranscript ep); [|order_leaf].
  apply (emitsInOrder_bind 1 2 2); [lia | | intros; order_leaf].
  apply (emitsInOrder_tryCatch 1 2 2); [lia| |intros; order_leaf].
  apply (emitsInOrder_bind 1 2 2);
    [lia | apply emitsInOrder_httpGet; simpl; lia | intros; order_leaf].
Qed.

Lemma extractAudioSnippet_order (e : env) (audioUrl : jsstring) (ts d : Z) :
  emitsInOrder 2 4 (extractAudioSnippet e audioUrl ts d).
Proof.
  unfold extractAudioSnippet. cbv zeta.
  apply (emitsInOrder_tryCatch 2 4 4); [lia| |intros; order_leaf].
  apply (emitsInOrder_bind 2 3 4);
    [lia | apply emitsInOrder_execAsync; simpl; lia | intros _].
  apply (emitsInOrder_bind 3 3 4); [lia | order_leaf | intros n].
  destruct (n <? 10000)%N; [order_leaf|].
  apply (emitsInOrder_bind 3 4 4);
    [lia | apply emitsInOrder_execAsync; simpl; lia | intros _].
  order_leaf.
Qed.

Lemma transcribeWithWhisper_order (e : env) (path : jsstring) :
  emitsInOrder 4 5 (transcribeWithWhisper e path).
Proof.
  unfold transcribeWithWhisper.
  apply (emitsInOrder_tryCatch 4 5 5); [lia| |intros; order_leaf].
  apply (emitsInOrder_bind 4 4 5);
    [lia | order_leaf | intros; apply emitsInOrder_httpGet; simpl; lia].
Qed.

Lemma acquireTranscript_order (e : env) (ts : Z) (ep : episode) :
  emitsInOrder 1 5 (acquireTranscript e ts ep).
Proof.
  unfold acquireTranscript.
  apply (emitsInOrder_bind 1 2 5);
    [lia | apply existingTranscript_order | intros transcript].
  unfold audioFallback.
  destruct (negb (optTruthy transcript)); [|order_leaf].
  destruct (optTruthy (ep_audioUrl ep)); [|order_leaf].
  destruct (ep_audioUrl ep) as [audioUrl|]; [|order_leaf].
  apply (emitsInOrder_bind 2 4 5);
    [lia | apply extractAudioSnippet_order | intros path].
  apply (emitsInOrder_bind 4 4 5); [lia | order_leaf | intros _].
  apply (emitsInOrder_bind 4 5 5);
    [lia | apply transcribeWithWhisper_order | intros; order_leaf].
Qed.

Lemma summarizeAndRespond_order (e : env) (req : request) (ts : Z) (ep : episode)
    (transcript : option jsstring) :
  emitsInOrder 5 7 (summarizeAndRespond e req ts ep transcript).
Proof.
  unfold summarizeAndRespond. destruct (isBlank transcript); [order_leaf|].
  cbv zeta. apply (emitsInOrder_bind 5 6 7); [lia| |intros bullets].
  - unfold summarizeTranscript.
    apply (emitsInOrder_tryCatch 5 6 6); [lia| |intros; order_leaf].
    apply (emitsInOrder_bind 5 6 6);
      [lia | apply emitsInOrder_httpGet; simpl; lia | intros; order_leaf].
  - apply (emitsInOrder_bind 6 7 7);
      [lia | apply emitsInOrder_log; lia | intros; order_leaf].
Qed.

Lemma tryBody_order (e : env) (req : request) (ts : Z) :
  emitsInOrder 0 7 (tryBody e req ts).
Proof.
  unfold tryBody.
  apply (emitsInOrder_bind 0 1 7);
    [lia | apply searchListenNotes_order | intros found].
  destruct found as [ep|].
  - apply (emitsInOrder_bind 1 5 7);
      [lia | apply acquireTranscript_order | intros r].
    destruct r as [early|transcript]; [order_leaf|].
    apply summarizeAndRespond_order.
  - apply (emitsInOrder_bind 1 7 7);
      [lia | apply emitsInOrder_log; lia | intros; order_leaf].
Qed.

(** X12: the calls of a request are made in the order of the pipeline and
    each kind at most once: search, transcript lookup, download, trimming,
    transcription, summarization, log. *)
Theorem calls_in_pipeline_order (e : env) (req : request) (fs : gmap (list N) N) :
  StronglySorted lt (List.map stageNumber (trace (snd (handle e req fs)))).
Proof.
  assert (H : emitsInOrder 0 7 (processInsight e req)).
  { unfold processInsight. destruct (negb (truthy (title req))); [order_leaf|].
    unfold pipeline.
    apply (emitsInOrder_bind 0 0 7); [lia | order_leaf | intros _].
    apply (emitsInOrder_finally 0 7 7); [lia | | unfold releaseAudio; order_leaf].
    apply (emitsInOrder_tryCatch 0 7 7);
      [lia | apply tryBody_order | intros; unfold onError; order_leaf]. }
  unfold handle. destruct (processInsight e req (initial fs)) as [r st] eqn:E.
  destruct (H _ _ _ E) as (evs & Ht & S & _).
  cbn [snd]. rewrite Ht. exact S.
Qed.

(** ** The responses *)

Lemma summarizeTranscript_bullets (e : env) (text : jsstring) (t : jsval)
    (st st' : state) (bullets : list jsstring) :
  summarizeTranscript e text t st = (Returned bullets, st') ->
  exists content, chatCompletion e text t = HttpOk content /\
                  bullets = parseBullets content.
Proof.
  unfold summarizeTranscript, tryCatch, bind, httpGet.
  destruct (chatCompletion e text t) as [detail|content]; intros H.
  - discriminate H.
  - inversion H. eauto.
Qed.

(** The four responses the [try] block returns. *)
Lemma tryBody_cases (e : env) (req : request) (ts : Z) (st st' : state)
    (r : response) :
  tryBody e req ts st = (Returned r, st') ->
  r = {| status := 404;
         payloadOf := Failure (js "No audio URL available for this episode") |} \/
  r = {| status := 500;
         payloadOf := Failure (js "Failed to get transcript for this segment") |} \/
  r = manualResponse req ts \/
  (exists ep text content,
      isBlank (Some text) = false /\
      chatCompletion e text (title req) = HttpOk content /\
      r = insightResponse req ts ep (Some text) (parseBullets content)).
Proof.
  intros H. unfold tryBody in H. unfold bind at 1 in H.
  destruct (searchListenNotes _ _ _ st) as [[[ep|]|message] st1] eqn:Hs;
    [ | | discriminate H].
  - unfold bind at 1 in H.
    destruct (acquireTranscript e ts ep st1) as [[[early|transcript]|message] st2]
      eqn:Ha; [ | | discriminate H].
    + inversion H; subst. left.
      apply (acquireTranscript_early _ _ _ _ _ _ Ha).
    + unfold summarizeAndRespond in H.
      destruct (isBlank transcript) eqn:Hb.
      * inversion H; subst. right. left. reflexivity.
      * cbv zeta in H. unfold bind at 1 in H.
        destruct (summarizeTranscript _ _ _ st2) as [[bullets|message] st3] eqn:Hsum;
          [|discriminate H].
        unfold bind, logToSupabase, modify, ret in H. inversion H; subst.
        destruct transcript as [text|]; [|discriminate Hb].
        destruct (summarizeTranscript_bullets _ _ _ _ _ _ Hsum) as (content & Hc & ->).
        right. right. right. exists ep, text, content. repeat split; assumption.
  - unfold bind, logToSupabase, modify, ret in H. inversion H; subst.
    right. right. left. reflexivity.
Qed.

(** X13: every request whose four fields are missing or scalar JSON values
    (null, a boolean, a number, a string) is answered: the handler does not
    throw, the status is 200, 400, 404 or 500, and it is 200 exactly when the
    body says success. A field that is an array or an object is not covered:
    [parseInt(timestamp)] is evaluated before the [try], and a conversion
    that throws there leaves the handler. *)
Theorem handler_always_responds (e : env) (req : request) (fs : gmap (list N) N) :
  exists r st,
    handle e req fs = (Returned r, st) /\
    (status r = 200 /\ success r = true \/
     (status r = 400 \/ status r = 404 \/ status r = 500) /\ success r = false).
Proof.
  unfold handle, processInsight.
  destruct (negb (truthy (title req))).
  - do 2 eexists. split; [reflexivity|]. right. split; [left|]; reflexivity.
  - unfold pipeline, bind, modify, finally, tryCatch.
    destruct (tryBody e req _ _) as [[r|message] s1] eqn:Hb.
    + do 2 eexists. split; [reflexivity|].
      destruct (tryBody_cases _ _ _ _ _ _ Hb)
        as [-> | [-> | [-> | (ep & text & content & _ & _ & ->)]]].
      * right. split; [right; left|]; reflexivity.
      * right. split; [right; right|]; reflexivity.
      * left. split; reflexivity.
      * left. split; reflexivity.
    + do 2 eexists. split; [reflexivity|].
      right. split; [right; right|]; reflexivity.
Qed.

(** X14: a response with processed data (not the manual mode) has status 200,
    a transcript that is not blank, and as its summary the one to three
    bullets parsed from the model's answer to that transcript. *)
Theorem processed_result_is_complete (e : env) (req : request) (fs : gmap (list N) N)
    (r : response) (st : state) (d : insight) :
  handle e req fs = (Returned r, st) ->
  payloadOf r = Success d ->
  manualMode d = None ->
  status r = 200 /\
  exists text content,
    transcriptText d = Some text /\
    trim text <> [] /\
    chatCompletion e text (title req) = HttpOk content /\
    summary d = Some (parseBullets content) /\
    (1 <= length (parseBullets content) <= 3)%nat.
Proof.
  intros Hr Hd Hm.
  destruct (handle_success _ _ _ _ _ _ Hr Hd) as (_ & st1 & Hb).
  destruct (tryBody_cases _ _ _ _ _ _ Hb)
    as [-> | [-> | [-> | (ep & text & content & Hblank & Hc & ->)]]];
    simpl in Hd; try discriminate Hd.
  - inversion Hd; subst. discriminate Hm.
  - inversion Hd; subst. split; [reflexivity|].
    exists text, content. cbn [transcriptText summary].
    repeat split; try assumption; try apply parseBullets_length.
    intros Ht. unfold isBlank in Hblank. rewrite Ht in Hblank.
    rewrite orb_true_r in Hblank. discriminate Hblank.
Qed.

Lemma processed_result_is_complete_witness :
  exists text content,
    trim text <> [] /\
    chatCompletion goodEnv text (JStr (js "My title")) = HttpOk content /\
    (1 <= length (parseBullets content) <= 3)%nat.
Proof.
  assert (Hrun : handle goodEnv (sampleRequest (JNum 12)) (∅ : gmap (list N) N)
                 = (Returned (insightResponse (sampleRequest (JNum 12)) 12
                                (toEpisode sampleResult (JStr (js "My show")))
                                (Some (js "hello world"))
                                [js "one"; js "two"; js "three"]),
                    snd (handle goodEnv (sampleRequest (JNum 12))
                           (∅ : gmap (list N) N))))
    by (vm_compute; reflexivity).
  destruct (processed_result_is_complete _ _ _ _ _ _ Hrun eq_refl eq_refl)
    as (_ & text & content & _ & Ht & Hc & _ & Hl).
  exists text, content. repeat split; try assumption; apply Hl.
Defined.

(** ** The audit log *)

Lemma notLog_other :
  (forall q, notLog (EvSearch q)) /\
  (forall i, notLog (EvEpisode i)) /\
  (forall c, notLog (EvExec c)) /\
  (forall p, notLog (EvTranscribe p)) /\
  (forall x y, notLog (EvSummarize x y)).
Proof. repeat split. Qed.

Lemma tryBody_log (e : env) (req : request) (ts : Z) (st st' : state)
    (res : outcome response) :
  tryBody e req ts st = (res, st') ->
  exists evs,
    Forall notLog evs /\
    ((exists r, res = Returned r /\ success r = true /\
                trace st' = trace st ++ evs
                              ++ [EvLog (title req) (showName req) ts (spotifyUrl req)]) \/
     ((forall r, res = Returned r -> success r = false) /\
      trace st' = trace st ++ evs)).
Proof.
  intros H. unfold tryBody in H. unfold bind at 1 in H.
  destruct (searchListenNotes _ _ _ st) as [found s1] eqn:Hs.
  destruct (searchListenNotes_during false false notLog e _ _ (fun _ => I) _ _ _ Hs)
    as (_ & _ & e1 & T1 & F1).
  destruct found as [[ep|]|message].
  - unfold bind at 1 in H.
    destruct (acquireTranscript e ts ep s1) as [acquired s2] eqn:Ha.
    destruct (acquireTranscript_during notLog e ts ep (fun _ => I) (fun _ _ => I)
                (fun _ => I) _ _ _ Ha) as (_ & _ & e2 & T2 & F2).
    assert (F12 : Forall notLog (e1 ++ e2)) by (apply Forall_app; split; assumption).
    assert (T12 : trace s2 = trace st ++ e1 ++ e2)
      by (rewrite T2, T1; symmetry; apply app_assoc).
    destruct acquired as [[early|transcript]|message].
    + inversion H; subst. exists (e1 ++ e2). split; [exact F12|]. right.
      split; [|exact T12]. intros r Hr. inversion Hr; subst.
      rewrite (acquireTranscript_early _ _ _ _ _ _ Ha). reflexivity.
    + unfold summarizeAndRespond in H. destruct (isBlank transcript).
      * inversion H; subst. exists (e1 ++ e2). split; [exact F12|]. right.
        split; [|exact T12]. intros r Hr. inversion Hr; subst. reflexivity.
      * cbv zeta in H. unfold bind at 1 in H.
        destruct (summarizeTranscript _ _ _ s2) as [summarized s3] eqn:Hsum.
        destruct (summarizeTranscript_during false false notLog e _ _
                    (fun _ _ => I) _ _ _ Hsum) as (_ & _ & e3 & T3 & F3).
        exists ((e1 ++ e2) ++ e3).
        split; [apply Forall_app; split; assumption|].
        destruct summarized as [bullets|message].
        -- unfold bind, logToSupabase, modify, ret in H. inversion H; subst.
           left. eexists. split; [reflexivity|]. split; [reflexivity|].
           cbn [trace emit]. rewrite T3, T12. rewrite <- !app_assoc. reflexivity.
        -- inversion H; subst. right. split; [intros r Hr; discriminate Hr|].
           rewrite T3, T12. rewrite <- !app_assoc. reflexivity.
    + inversion H; subst. exists (e1 ++ e2). split; [exact F12|]. right.
      split; [intros r Hr; discriminate Hr | exact T12].
  - unfold bind, logToSupabase, modify, ret in H. inversion H; subst.
    exists e1. split; [exact F1|]. left. eexists. split; [reflexivity|].
    split; [reflexivity|]. cbn [trace emit]. rewrite T1.
    rewrite <- app_assoc. reflexivity.
  - inversion H; subst. exists e1. split; [exact F1|]. right.
    split; [intros r Hr; discriminate Hr | exact T1].
Qed.

(** X15: the audit log is written exactly when the response carries data
    (processed or manual mode): then it is the last call of the run, made
    once, with the request's title, show name and URL and the parsed
    timestamp; a failed request is not logged. *)
Theorem audit_log_exactly_on_success (e : env) (req : request) (fs : gmap (list N) N) :
  exists r st,
    handle e req fs = (Returned r, st) /\
    if success r
    then exists evs,
        trace st = evs ++ [EvLog (title req) (showName req)
                             (parseIntOrZero (timestamp req)) (spotifyUrl req)] /\
        Forall notLog evs
    else Forall notLog (trace st).
Proof.
  unfold handle, processInsight.
  destruct (negb (truthy (title req))).
  - do 2 eexists. split; [reflexivity|]. cbn [success payloadOf]. constructor.
  - unfold pipeline, bind, modify, finally, tryCatch.
    destruct (tryBody e req _ _) as [res s1] eqn:Hb.
    destruct (tryBody_log _ _ _ _ _ _ Hb) as (evs & Hf & Hcase).
    cbn [trace setAudioPath initial app] in Hcase.
    destruct res as [r|message].
    + exists r. eexists. split; [reflexivity|]. cbn [snd].
      destruct (releaseAudio s1) as [rr s2] eqn:Hrel. cbn [snd].
      rewrite (during_silent_trace _ _ _ _
                 (releaseAudio_during noEvent _ _ _ Hrel)).
      destruct Hcase as [(r' & Hr' & Hs & Ht) | [Hs Ht]].
      * inversion Hr'; subst r'. rewrite Hs. exists evs. split; assumption.
      * rewrite (Hs r eq_refl), Ht. exact Hf.
    + do 2 eexists. split; [reflexivity|]. cbn [success payloadOf onError ret snd].
      destruct (releaseAudio s1) as [rr s2] eqn:Hrel. cbn [snd].
      rewrite (during_silent_trace _ _ _ _
                 (releaseAudio_during noEvent _ _ _ Hrel)).
      destruct Hcase as [(r' & Hr' & _) | [_ Ht]]; [discriminate Hr'|].
      rewrite Ht. exact Hf.
Qed.

(** ** The two ways to a transcript *)

(** The search makes its one call, whatever it returns. *)
Lemma searchListenNotes_state (e : env) (t s : jsval) (st : state) :
  snd (searchListenNotes e t s st) = emit (EvSearch (searchQuery t s)) st.
Proof.
  unfold searchListenNotes, tryCatch, bind, httpGet.
  destruct (listenNotesSearch e (searchQuery t s)) as [detail|[[|first rest]|]];
    try reflexivity.
  destruct (truthy s); [|reflexivity].
  destruct s; try reflexivity.
  destruct (List.find _ _); reflexivity.
Qed.

Lemma searchListenNotes_resolved (e : env) (req : request) (ep : episode) (st : state) :
  resolved e req = Some ep ->
  searchListenNotes e (title req) (jsor (showName req) (JStr [])) st
    = (Returned (Some ep),
       emit (EvSearch (searchQuery (title req) (jsor (showName req) (JStr [])))) st).
Proof.
  intros H. unfold resolved in H.
  pose proof (searchListenNotes_result e (title req) (jsor (showName req) (JStr []))
                (initial ∅) st) as Hres.
  pose proof (searchListenNotes_state e (title req) (jsor (showName req) (JStr [])) st)
    as Hst.
  destruct (searchListenNotes _ _ _ (initial ∅)) as [[found|message] s0];
    [|discriminate H].
  subst found.
  destruct (searchListenNotes _ _ _ st) as [res s1].
  cbn [fst snd] in *. subst. reflexivity.
Qed.

(** X16: when the episode found has a transcript and the segment cut from it
    is not empty, no audio is downloaded, trimmed or transcribed, and the
    temporary directory is left as it was. *)
Theorem embedded_transcript_skips_audio (e : env) (req : request)
    (fs : gmap (list N) N) (ep : episode) (p : payload) (c : N) (s : jsstring) :
  truthy (title req) = true ->
  resolved e req = Some ep ->
  ep_hasTranscript ep = true ->
  listenNotesEpisode e (ep_id ep) = HttpOk (Some p) ->
  payloadTruthy (Some p) = true ->
  extractTranscriptSegment p (parseIntOrZero (timestamp req)) 30 = Some (c :: s) ->
  files (snd (handle e req fs)) = fs /\
  Forall notAudio (trace (snd (handle e req fs))).
Proof.
  intros Ht Hres Hhas Hep Htruthy Hseg.
  assert (Hrun : exists res s3,
             handle e req fs = (res, s3) /\ files s3 = fs /\
             Forall notAudio (trace s3));
    [|destruct Hrun as (res & s3 & -> & H1 & H2); split; assumption].
  unfold handle, processInsight. rewrite Ht. cbn [negb].
  unfold pipeline, finally. unfold bind at 1. cbn [modify].
  set (st0 := setAudioPath None (initial fs)).
  set (ts := parseIntOrZero (timestamp req)) in *.
  assert (Hacq : forall st,
             acquireTranscript e ts ep st
             = (Returned (inr (Some (c :: s))), emit (EvEpisode (ep_id ep)) st)).
  { intros st. unfold acquireTranscript, existingTranscript. rewrite Hhas.
    unfold getEpisodeTranscript, tryCatch, bind, httpGet.
    rewrite Hep, Htruthy. cbn [ret]. rewrite Hseg. reflexivity. }
  unfold tryCatch, tryBody.
  rewrite (bind_Returned _ _ _ _ _ (searchListenNotes_resolved e req ep st0 Hres)).
  rewrite (bind_Returned _ _ _ _ _ (Hacq _)).
  match goal with
  | |- context [summarizeAndRespond e req ts ep ?t ?st] =>
      destruct (summarizeAndRespond e req ts ep t st) as [res s3] eqn:Hsum
  end.
  destruct (summarizeAndRespond_during true true notAudio e req ts ep _
              (fun _ _ => I) (fun _ _ _ _ => I) _ _ _ Hsum)
    as (Hf & Ha & evs & Htr & Hall).
  assert (Hend : snd (releaseAudio s3) = s3).
  { unfold releaseAudio, bind, get.
    rewrite (Ha eq_refl). reflexivity. }
  destruct res as [r|message]; cbn [onError ret]; rewrite Hend;
    do 2 eexists; (split; [reflexivity|]);
    (split; [rewrite (Hf eq_refl); reflexivity|]);
    rewrite Htr; (apply Forall_app; split; [|exact Hall]);
    repeat constructor.
Qed.

Lemma embedded_transcript_skips_audio_witness :
  files (snd (handle
                {| dirname := js "/srv"; now := 1%N;
                   exec := fun _ => {| exitOf := Exit0; written := Some 50000%N |};
                   listenNotesSearch := fun _ =>
                     HttpOk (Some [ {| raw_id := js "ep1";
                                       raw_title_original := None;
                                       raw_podcast_title_original := None;
                                       raw_audio := Some (js "http://host/a.mp3");
                                       raw_thumbnail := None;
                                       raw_description_original := None;
                                       raw_transcript := Some (PString (js "x")) |} ]);
                   listenNotesEpisode := fun _ => HttpOk (Some (PString (js "a b c")));
                   whisper := fun _ => HttpOk (js "unused");
                   chatCompletion := fun _ _ => HttpOk (js "- one") |}
                (sampleRequest (JNum 0)) ∅)) = ∅.
Proof.
  eapply embedded_transcript_skips_audio;
    [reflexivity | vm_compute; reflexivity | reflexivity | reflexivity
    | reflexivity | vm_compute; reflexivity].
Defined.

(** X17: an episode found without a transcript and without an audio URL is
    answered 404 "No audio URL available for this episode"; the search is the
    only call made and the temporary directory is left as it was. *)
Theorem no_audio_url_is_404 (e : env) (req : request) (fs : gmap (list N) N)
    (ep : episode) :
  truthy (title req) = true ->
  resolved e req = Some ep ->
  ep_hasTranscript ep = false ->
  optTruthy (ep_audioUrl ep) = false ->
  handle e req fs
    = (Returned {| status := 404;
                   payloadOf := Failure (js "No audio URL available for this episode") |},
       emit (EvSearch (searchQuery (title req) (jsor (showName req) (JStr []))))
         (initial fs)).
Proof.
  intros Ht Hres Hhas Haudio.
  unfold handle, processInsight. rewrite Ht. cbn [negb].
  unfold pipeline, finally. unfold bind at 1. cbn [modify].
  unfold tryCatch, tryBody.
  rewrite (bind_Returned _ _ _ _ _ (searchListenNotes_resolved e req ep _ Hres)).
  unfold acquireTranscript, existingTranscript, audioFallback.
  rewrite Hhas, Haudio. reflexivity.
Qed.

Lemma no_audio_url_is_404_witness :
  fst (handle
         {| dirname := js "/srv"; now := 1%N;
            exec := fun _ => {| exitOf := Exit0; written := Some 50000%N |};
            listenNotesSearch := fun _ =>
              HttpOk (Some [ {| raw_id := js "ep1";
                                raw_title_original := None;
                                raw_podcast_title_original := None;
                                raw_audio := None;
                                raw_thumbnail := None;
                                raw_description_original := None;
                                raw_transcript := None |} ]);
            listenNotesEpisode := fun _ => HttpOk None;
            whisper := fun _ => HttpOk (js "unused");
            chatCompletion := fun _ _ => HttpOk (js "- one") |}
         (sampleRequest (JNum 0)) ∅)
    = Returned {| status := 404;
                  payloadOf := Failure (js "No audio URL available for this episode") |}.
Proof.
  erewrite no_audio_url_is_404;
    [reflexivity | reflexivity | vm_compute; reflexivity | reflexivity | reflexivity].
Defined.

(** X18: every response that carries data reports [parseInt(timestamp) || 0];
    in particular a whole number up to 2^53 in magnitude sent as the
    timestamp is reported as it is (up to there a double holds every whole
    number exactly; beyond, the code rounds). *)
Theorem response_echoes_timestamp (e : env) (req : request) (fs : gmap (list N) N)
    (r : response) (st : state) (d : insight) :
  handle e req fs = (Returned r, st) ->
  payloadOf r = Success d ->
  timestampSeconds d = parseIntOrZero (timestamp req) /\
  (forall z, timestamp req = JNum z -> Z.abs z <= 2 ^ 53 -> timestampSeconds d = z).
Proof.
  intros Hr Hd.
  destruct (handle_success _ _ _ _ _ _ Hr Hd) as (_ & st1 & Hb).
  assert (H : timestampSeconds d = parseIntOrZero (timestamp req)).
  { destruct (tryBody_cases _ _ _ _ _ _ Hb)
      as [-> | [-> | [-> | (ep & text & content & _ & _ & ->)]]];
      simpl in Hd; try discriminate Hd; inversion Hd; reflexivity. }
  split; [exact H|].
  intros z Hz Hsmall. rewrite H, Hz.
  destruct z as [|p|p].
  - reflexivity.
  - destruct (decimal_spec (Npos p)) as (c & ds & Heq & Hall & Hval).
    unfold parseIntOrZero.
    change (parseInt (JNum (Z.pos p))) with (parseInt (JStr (decimal (Npos p)))).
    rewrite Heq, (parseInt_digits c ds (Npos p) false Hall Hval). reflexivity.
  - destruct (decimal_spec (Npos p)) as (c & ds & Heq & Hall & Hval).
    unfold parseIntOrZero.
    change (parseInt (JNum (Z.neg p)))
      with (parseInt (JStr (45%N :: decimal (Npos p)))).
    rewrite Heq, (parseInt_digits c ds (Npos p) true Hall Hval). reflexivity.
Qed.

Lemma response_echoes_timestamp_witness :
  timestampSeconds
    {| episodeTitle := JStr (js "My title");
       insightShowName := JStr (js "My show");
       thumbnail := Some (js "http://host/cover.png");
       transcriptText := Some (js "hello world");
       summary := Some [js "one"; js "two"; js "three"];
       timestampSeconds := 12;
       manualMode := None;
       note := None |} = parseIntOrZero (JNum 12).
Proof.
  assert (Hrun : handle goodEnv (sampleRequest (JNum 12)) (∅ : gmap (list N) N)
                 = (Returned (insightResponse (sampleRequest (JNum 12)) 12
                                (toEpisode sampleResult (JStr (js "My show")))
                                (Some (js "hello world"))
                                [js "one"; js "two"; js "three"]),
                    snd (handle goodEnv (sampleRequest (JNum 12))
                           (∅ : gmap (list N) N))))
    by (vm_compute; reflexivity).
  apply (proj1 (response_echoes_timestamp _ _ _ _ _ _ Hrun eq_refl)).
Defined.

(** ** Saving to Notion *)

Lemma saveToNotion_sent (ne : notionEnv) (req : saveRequest) (pg : page) :
  In pg (saveToNotion ne req).2 ->
  truthy (save_title req) = true /\ buildPage ne req = Returned pg.
Proof.
  unfold saveToNotion. destruct (truthy (save_title req)); cbn [negb].
  - destruct (buildPage ne req) as [pg'|message].
    + destruct (pagesCreate ne pg') as [detail|[id url]]; cbn [snd];
        intros [<-|[]]; split; reflexivity.
    + intros [].
  - intros [].
Qed.

Lemma pageChildren_shape (req : saveRequest) (children : list block) :
  pageChildren req = Returned children ->
  exists h p c,
    children
      = (if hasSummary (save_summary req)
         then [Heading2 KEY_TAKEAWAYS;
               Paragraph (default [] (summaryText (save_summary req)));
               Divider]
         else [])
        ++ [Heading2 h; Paragraph p; Callout HEADPHONES c] /\
    (truthy (save_transcript req) = false /\
       h = YOUR_NOTES /\ p = NOTES_PLACEHOLDER \/
     exists s, save_transcript req = JStr s /\ s <> [] /\
       h = TRANSCRIPT_HEADING /\ p = take 2000 s).
Proof.
  unfold pageChildren. destruct (truthy (save_transcript req)) eqn:Ht.
  - destruct (save_transcript req) as [| | | |s]; cbn [substring0];
      try discriminate.
    intros H. inversion H; subst. do 3 eexists. split; [reflexivity|].
    right. exists s. repeat split. intros ->. discriminate Ht.
  - intros H. inversion H; subst. do 3 eexists. split; [reflexivity|].
    left. repeat split.
Qed.

Lemma buildPage_Returned (ne : notionEnv) (req : saveRequest) (pg : page) :
  buildPage ne req = Returned pg ->
  (exists id, NOTION_DATABASE_ID ne = Some id /\ id <> [] /\ page_database_id pg = id) /\
  (exists t, save_title req = JStr t /\ page_name pg = take 100 t) /\
  pageChildren req = Returned (page_children pg).
Proof.
  unfold buildPage. destruct (NOTION_DATABASE_ID ne) as [[|c id]|]; try discriminate.
  destruct (pageChildren req) as [children|message]; try discriminate.
  destruct (save_title req) as [| | | |t]; cbn [substring0]; try discriminate.
  intros H. inversion H; subst. cbn. split; [|split].
  - exists (c :: id). repeat split. discriminate.
  - exists t. split; reflexivity.
  - reflexivity.
Qed.

(** X19: for a body whose fields are missing or scalar JSON values (the
    summary: missing, a string or a list of strings), Notion is called
    exactly when the title is a text that is not empty, a database is
    configured, and the transcript is a text or counts as false; in every
    other case nothing is sent. A field that is an array or an object is not
    covered: its conversion to a string may throw and end the request with
    nothing sent. *)
Theorem notion_called_only_for_valid_request (ne : notionEnv) (req : saveRequest) :
  (saveToNotion ne req).2 <> [] <->
  (exists t, save_title req = JStr t /\ t <> []) /\
  (exists id, NOTION_DATABASE_ID ne = Some id /\ id <> []) /\
  (truthy (save_transcript req) = true -> exists s, save_transcript req = JStr s).
Proof.
  split.
  - intros Hne. destruct ((saveToNotion ne req).2) as [|pg rest] eqn:Hs;
      [contradiction|].
    destruct (saveToNotion_sent ne req pg) as [Ht Hb]; [rewrite Hs; left; reflexivity|].
    destruct (buildPage_Returned _ _ _ Hb) as ((id & Hid & Hne' & _) & (t & Htitle & _) & Hc).
    split; [|split].
    + exists t. split; [exact Htitle|]. intros ->. rewrite Htitle in Ht. discriminate Ht.
    + exists id. split; assumption.
    + intros Htr. destruct (pageChildren_shape _ _ Hc) as (h & p & c & _ & [[Hf _]|(s & Hs' & _)]).
      * rewrite Hf in Htr. discriminate Htr.
      * exists s. exact Hs'.
  - intros ((t & Htitle & Ht) & (id & Hid & Hidne) & Htr).
    unfold saveToNotion, buildPage. rewrite Htitle, Hid.
    destruct t as [|c t]; [contradiction|]. destruct id as [|c' id]; [contradiction|].
    cbn [truthy negb substring0].
    assert (Hc : exists children, pageChildren req = Returned children).
    { unfold pageChildren. destruct (truthy (save_transcript req)) eqn:E.
      - destruct (Htr eq_refl) as (s & ->). cbn [substring0]. eexists. reflexivity.
      - eexists. reflexivity. }
    destruct Hc as (children & ->).
    match goal with |- context [pagesCreate ne ?pg] => destruct (pagesCreate ne pg) as [d|[i u]] end;
      cbn [snd]; discriminate.
Qed.

(** X20: /save-to-notion answers 200 with the identifier and address Notion
    returned for the one page sent, 400 for a missing title with nothing
    sent, or 500 with a message that is never empty. *)
Theorem save_response_cases (ne : notionEnv) (req : saveRequest) :
  let r := (saveToNotion ne req).1 in
  let sent := (saveToNotion ne req).2 in
  (saveStatus r = 200 /\
     exists pg id url, sent = [pg] /\ pagesCreate ne pg = HttpOk (id, url) /\
       saveBodyOf r = Saved id url) \/
  (saveStatus r = 400 /\ truthy (save_title req) = false /\ sent = [] /\
     saveBodyOf r = SaveFailure (js "Title is required")) \/
  (saveStatus r = 500 /\ truthy (save_title req) = true /\ (length sent <= 1)%nat /\
     exists message, saveBodyOf r = SaveFailure message /\ message <> []).
Proof.
  assert (Herr : forall m, exists message,
             saveBodyOf (saveError m) = SaveFailure message /\ message <> []).
  { intros [|c m]; eexists; (split; [reflexivity | discriminate]). }
  cbv zeta. unfold saveToNotion. destruct (truthy (save_title req)); cbn [negb].
  - destruct (buildPage ne req) as [pg|message].
    + destruct (pagesCreate ne pg) as [detail|[id url]] eqn:Hp.
      * right. right. cbn [fst snd]. repeat split; [cbn; lia | apply Herr].
      * left. split; [reflexivity|]. exists pg, id, url. repeat split. exact Hp.
    + right. right. cbn [fst snd]. repeat split; [cbn; lia | apply Herr].
  - right. left. repeat split.
Qed.

(** X21: the page sent to Notion is named by the first 100 code units of the
    title; its blocks are the three summary blocks (only when there is a
    summary), a heading, one paragraph of at most 2000 code units and the
    source callout last; the paragraph is the first 2000 code units of the
    transcript, or the notes placeholder when there is no transcript. *)
Theorem page_is_bounded_and_shaped (ne : notionEnv) (req : saveRequest) (pg : page) :
  In pg (saveToNotion ne req).2 ->
  (exists t, save_title req = JStr t /\ page_name pg = take 100 t) /\
  (length (page_name pg) <= 100)%nat /\
  exists h p c,
    page_children pg
      = (if hasSummary (save_summary req)
         then [Heading2 KEY_TAKEAWAYS;
               Paragraph (default [] (summaryText (save_summary req)));
               Divider]
         else [])
        ++ [Heading2 h; Paragraph p; Callout HEADPHONES c] /\
    (length p <= 2000)%nat /\
    (truthy (save_transcript req) = false /\
       h = YOUR_NOTES /\ p = NOTES_PLACEHOLDER \/
     exists s, save_transcript req = JStr s /\ s <> [] /\
       h = TRANSCRIPT_HEADING /\ p = take 2000 s).
Proof.
  intros Hin. destruct (saveToNotion_sent _ _ _ Hin) as [_ Hb].
  destruct (buildPage_Returned _ _ _ Hb) as (_ & (t & Htitle & Hname) & Hc).
  split; [exists t; split; assumption|].
  split; [rewrite Hname, length_take; lia|].
  destruct (pageChildren_shape _ _ Hc) as (h & p & c & Heq & Hcases).
  exists h, p, c. split; [exact Heq|]. split; [|exact Hcases].
  destruct Hcases as [(_ & _ & ->)|(s & _ & _ & _ & ->)].
  - vm_compute. lia.
  - rewrite length_take. lia.
Qed.

Lemma page_is_bounded_and_shaped_witness :
  (exists t, save_title sampleSave = JStr t /\ page_name samplePage = take 100 t) /\
  (length (page_name samplePage) <= 100)%nat /\
  exists h p c,
    page_children samplePage
      = (if hasSummary (save_summary sampleSave)
         then [Heading2 KEY_TAKEAWAYS;
               Paragraph (default [] (summaryText (save_summary sampleSave)));
               Divider]
         else [])
        ++ [Heading2 h; Paragraph p; Callout HEADPHONES c] /\
    (length p <= 2000)%nat /\
    (truthy (save_transcript sampleSave) = false /\
       h = YOUR_NOTES /\ p = NOTES_PLACEHOLDER \/
     exists s, save_transcript sampleSave = JStr s /\ s <> [] /\
       h = TRANSCRIPT_HEADING /\ p = take 2000 s).
Proof.
  apply (page_is_bounded_and_shaped sampleNotion sampleSave samplePage).
  vm_compute. left. reflexivity.
Defined.

Lemma split_single (c : N) (x : jsstring) :
  ~ In c x -> split c x = [x].
Proof.
  induction x as [|y x IH]; [reflexivity|].
  intros Hn. cbn [split].
  destruct (N.eqb_spec y c) as [->|Hne]; [exfalso; apply Hn; left; reflexivity|].
  rewrite IH; [reflexivity|]. intros Hin. apply Hn. right. exact Hin.
Qed.

Lemma split_app_sep (c : N) (x rest : jsstring) :
  ~ In c x -> split c (x ++ c :: rest) = x :: split c rest.
Proof.
  induction x as [|y x IH]; intros Hn.
  - cbn [app split]. rewrite N.eqb_refl. reflexivity.
  - cbn [app split].
    destruct (N.eqb_spec y c) as [->|Hne]; [exfalso; apply Hn; left; reflexivity|].
    rewrite IH; [reflexivity|]. intros Hin. apply Hn. right. exact Hin.
Qed.

Lemma split_join (c : N) (l : list jsstring) :
  l <> [] -> Forall (fun x => ~ In c x) l -> split c (join [c] l) = l.
Proof.
  intros Hne Hall. induction Hall as [|x l Hx Hall IH]; [contradiction|].
  destruct l as [|y l].
  - cbn [join]. apply split_single, Hx.
  - rewrite join_cons. cbn [app]. rewrite (split_app_sep c x _ Hx).
    f_equal. apply IH. discriminate.
Qed.

(** X22: a summary given as a list of bullets without line breaks is written
    as one paragraph with one line per bullet, each after the bullet prefix:
    splitting the paragraph at the line breaks gives the bullets back. *)
Theorem summary_paragraph_has_one_line_per_bullet (l : list jsstring) :
  l <> [] ->
  Forall (fun bullet => ~ In 10%N bullet) l ->
  exists text,
    summaryText (SummaryList l) = Some text /\
    split 10 text = List.map (fun bullet => BULLET_PREFIX ++ bullet) l.
Proof.
  intros Hne Hall. eexists. split; [reflexivity|].
  apply split_join.
  - destruct l; [contradiction | discriminate].
  - apply List.Forall_map. eapply List.Forall_impl; [|exact Hall].
    intros bullet Hb Hin. apply in_app_or in Hin. destruct Hin as [Hin|Hin].
    + vm_compute in Hin. intuition discriminate.
    + exact (Hb Hin).
Qed.

Lemma summary_paragraph_has_one_line_per_bullet_witness :
  exists text,
    summaryText (SummaryList [js "Focus is a skill"; js "Protect your time"]) = Some text /\
    split 10 text
      = List.map (fun bullet => BULLET_PREFIX ++ bullet)
          [js "Focus is a skill"; js "Protect your time"].
Proof.
  apply (summary_paragraph_has_one_line_per_bullet
           [js "Focus is a skill"; js "Protect your time"]).
  - discriminate.
  - repeat constructor; vm_compute; intuition discriminate.
Defined.

(** ** The extension *)

Lemma remember_take {A} (x : A) (l : list A) : remember x l = take 10 (x :: l).
Proof.
  unfold remember. cbv zeta. destruct (10 <? length (x :: l))%nat eqn:E.
  - apply Nat.ltb_lt in E. unfold slice. cbn [Z.ltb Z.compare].
    replace (Z.min 0 (Z.of_nat (length (x :: l)))) with 0 by lia.
    replace (Z.min 10 (Z.of_nat (length (x :: l)))) with 10 by lia.
    reflexivity.
  - apply Nat.ltb_ge in E. symmetry. apply take_ge. exact E.
Qed.

Lemma afterCalls_snoc (calls : list (jsstring * spotifyData * response))
    (call : jsstring * spotifyData * response) :
  afterCalls (calls ++ [call])
    = snd (handleProcessInsight call.1.1 call.1.2 call.2 (afterCalls calls)).
Proof. unfold afterCalls. rewrite foldl_app. reflexivity. Qed.

(** X23: after any series of calls, [recentInsights] holds the entries of the
    calls whose response was ok, the newest first, and only the ten newest
    of them. *)
Theorem recentInsights_are_the_latest_ten
    (calls : list (jsstring * spotifyData * response)) :
  afterCalls calls
    = take 10 (rev (List.map (fun call => entryOf call.1.1 call.1.2 call.2)
                      (List.filter (fun call => responseOk call.2) calls))) /\
  (length (afterCalls calls) <= 10)%nat.
Proof.
  assert (H : afterCalls calls
    = take 10 (rev (List.map (fun call => entryOf call.1.1 call.1.2 call.2)
                      (List.filter (fun call => responseOk call.2) calls)))).
  { induction calls as [|call calls IH] using rev_ind; [reflexivity|].
    rewrite afterCalls_snoc, IH, List.filter_app, List.map_app, rev_app_distr.
    unfold handleProcessInsight. cbn [List.filter].
    destruct (responseOk call.2); cbn [snd List.map rev app].
    - rewrite remember_take. cbn [take]. f_equal.
      rewrite take_take. reflexivity.
    - reflexivity. }
  split; [exact H|]. rewrite H, length_take. lia.
Qed.

Lemma failure_message_not_empty (e : env) (req : request) (fs : gmap (list N) N)
    (r : response) (st : state) :
  handle e req fs = (Returned r, st) ->
  (status r = 200 /\ success r = true) \/
  (status r <> 200 /\ responseOk r = false /\
   exists c message, payloadOf r = Failure (c :: message)).
Proof.
  unfold handle, processInsight.
  destruct (negb (truthy (title req))).
  - intros H. inversion H; subst. right. split; [discriminate|].
    split; [reflexivity|]. do 2 eexists. reflexivity.
  - unfold pipeline, bind, modify, finally, tryCatch.
    destruct (tryBody e req _ _) as [[r'|message] s1] eqn:Hb.
    + intros H. inversion H; subst.
      destruct (tryBody_cases _ _ _ _ _ _ Hb)
        as [-> | [-> | [-> | (ep & text & content & _ & _ & ->)]]].
      * right. split; [discriminate|]. split; [reflexivity|].
        do 2 eexists. reflexivity.
      * right. split; [discriminate|]. split; [reflexivity|].
        do 2 eexists. reflexivity.
      * left. split; reflexivity.
      * left. split; reflexivity.
    + intros H. unfold onError, ret in H. inversion H; subst.
      right. split; [discriminate|]. split; [reflexivity|].
      destruct message as [|c message]; do 2 eexists; reflexivity.
Qed.

(** X24: the background worker remembers a request exactly when the server
    processed it: on success the entry goes to the front of the list, and on
    any failure the worker rejects with the server's own message and leaves
    the list as it was. *)
Theorem only_processed_insights_are_remembered (e : env) (data : spotifyData)
    (fs : gmap (list N) N) (isoNow : jsstring) (recent : list recentInsight) :
  exists r st,
    handle e (toRequest data) fs = (Returned r, st) /\
    (success r = true /\
       handleProcessInsight isoNow data r recent
         = (Returned (payloadOf r), take 10 (entryOf isoNow data r :: recent)) \/
     exists message,
       payloadOf r = Failure message /\ message <> [] /\
       handleProcessInsight isoNow data r recent = (Thrown message, recent)).
Proof.
  destruct (handle e (toRequest data) fs) as [[r|message] st] eqn:Hr.
  - exists r, st. split; [reflexivity|].
    destruct (failure_message_not_empty _ _ _ _ _ Hr)
      as [[Hs Hok]|(Hs & Hok & c & message & Hm)].
    + left. split; [exact Hok|]. unfold handleProcessInsight, responseOk.
      rewrite Hs. cbn. rewrite remember_take. reflexivity.
    + right. exists (c :: message). split; [exact Hm|]. split; [discriminate|].
      unfold handleProcessInsight. rewrite Hok, Hm. reflexivity.
  - exfalso. unfold handle, processInsight in Hr.
    destruct (negb (truthy (title (toRequest data)))); [discriminate Hr|].
    unfold pipeline, bind, modify, finally, tryCatch in Hr.
    destruct (tryBody e _ _ _) as [[r'|m] s1]; discriminate Hr.
Qed.

Lemma parseIntOrZero_whole (z : Z) : parseIntOrZero (JNum z) = z.
Proof.
  unfold parseIntOrZero. destruct z as [|p|p].
  - reflexivity.
  - destruct (decimal_spec (Npos p)) as (c & ds & Heq & Hall & Hval).
    change (parseInt (JNum (Z.pos p))) with (parseInt (JStr (decimal (Npos p)))).
    rewrite Heq, (parseInt_digits c ds (Npos p) false Hall Hval). reflexivity.
  - destruct (decimal_spec (Npos p)) as (c & ds & Heq & Hall & Hval).
    change (parseInt (JNum (Z.neg p)))
      with (parseInt (JStr (45%N :: decimal (Npos p)))).
    rewrite Heq, (parseInt_digits c ds (Npos p) true Hall Hval). reflexivity.
Qed.

(** X25: what the server processed can be saved: when /process-insight
    succeeded for the data of the content script and a Notion database is
    configured, the popup's save request passes the checks of
    /save-to-notion, and exactly one page is handed to Notion, named by the
    first 100 code units of the playing title, with the playback position
    (a whole number of seconds up to 2^53, which a double holds exactly) as
    its timestamp, and with the address and the show as given when they are
    not empty. *)
Theorem processed_insight_reaches_notion (e : env) (data : spotifyData)
    (fs : gmap (list N) N) (ne : notionEnv) (r : response) (st : state) :
  handle e (toRequest data) fs = (Returned r, st) ->
  success r = true ->
  Z.abs (sd_timestamp data) <= 2 ^ 53 ->
  (exists c id, NOTION_DATABASE_ID ne = Some (c :: id)) ->
  exists pg,
    (handleSaveInsight ne data r).2 = [pg] /\
    page_name pg = take 100 (sd_title data) /\
    page_timestamp pg = sd_timestamp data /\
    (sd_spotifyUrl data <> [] -> page_spotify_url pg = JStr (sd_spotifyUrl data)) /\
    (sd_showName data <> [] -> page_show pg = JStr (sd_showName data)).
Proof.
  intros Hr Hs _ (c & id & Hid).
  destruct r as [code [message|d]]; [discriminate Hs|].
  destruct (handle_success _ _ _ _ _ _ Hr eq_refl) as (Htitle & st1 & Hb).
  assert (Hok : responseOk {| status := code; payloadOf := Success d |} = true).
  { destruct (tryBody_cases _ _ _ _ _ _ Hb)
      as [H | [H | [H | (ep & text & content & _ & _ & H)]]];
      inversion H; reflexivity. }
  assert (Hd : episodeTitle d = JStr (sd_title data) /\
               insightShowName d
                 = jsor (JStr (sd_showName data)) (insightShowName d) /\
               timestampSeconds d = sd_timestamp data).
  { destruct (tryBody_cases _ _ _ _ _ _ Hb)
      as [H | [H | [H | (ep & text & content & _ & _ & H)]]];
      inversion H; subst; cbn [episodeTitle insightShowName timestampSeconds
                                 toRequest title showName timestamp];
      (split; [reflexivity|]); (split; [|apply parseIntOrZero_whole]);
      unfold jsor; cbn [truthy]; destruct (sd_showName data); reflexivity. }
  destruct Hd as (Het & Hshow & Hts).
  cbn [toRequest title truthy] in Htitle.
  destruct (sd_title data) as [|t0 t] eqn:Et; [discriminate Htitle|].
  unfold handleSaveInsight. rewrite Hok. cbn [payloadOf].
  unfold saveToNotion, buildPage, pageChildren.
  cbn [saveRequestOf save_title save_showName save_transcript save_summary
       save_spotifyUrl save_thumbnail save_timestampSeconds save_manualMode].
  rewrite Het, Hid, Et. cbn [jsor truthy negb substring0].
  assert (Hpage : forall o : option jsstring,
             truthy (textValue o) = true -> exists s, textValue o = JStr s).
  { intros [s|] H; [exists s; reflexivity | discriminate H]. }
  destruct (truthy (textValue (transcriptText d))) eqn:Etr.
  - destruct (Hpage _ Etr) as (s & ->). cbn [substring0].
    match goal with |- context [pagesCreate ne ?pg] =>
      exists pg; destruct (pagesCreate ne pg) as [detail|[i u]] end.
    all: cbn.
    all: rewrite Hts.
    all: split; [reflexivity|].
    all: split; [reflexivity|].
    all: split; [destruct (sd_timestamp data =? 0) eqn:E;
                 [apply Z.eqb_eq in E; rewrite E|]; reflexivity|].
    all: split; [intros Hne; destruct (sd_spotifyUrl data);
                   [contradiction | reflexivity]|].
    all: intros Hne; rewrite Hshow; destruct (sd_showName data);
           [contradiction | reflexivity].
  - match goal with |- context [pagesCreate ne ?pg] =>
      exists pg; destruct (pagesCreate ne pg) as [detail|[i u]] end.
    all: cbn.
    all: rewrite Hts.
    all: split; [reflexivity|].
    all: split; [reflexivity|].
    all: split; [destruct (sd_timestamp data =? 0) eqn:E;
                 [apply Z.eqb_eq in E; rewrite E|]; reflexivity|].
    all: split; [intros Hne; destruct (sd_spotifyUrl data);
                   [contradiction | reflexivity]|].
    all: intros Hne; rewrite Hshow; destruct (sd_showName data);
           [contradiction | reflexivity].
Qed.

Lemma processed_insight_reaches_notion_witness :
  exists pg,
    (handleSaveInsight sampleNotion sampleData sampleProcessed).2 = [pg] /\
    page_name pg = take 100 (sd_title sampleData) /\
    page_timestamp pg = sd_timestamp sampleData /\
    (sd_spotifyUrl sampleData <> [] ->
     page_spotify_url pg = JStr (sd_spotifyUrl sampleData)) /\
    (sd_showName sampleData <> [] -> page_show pg = JStr (sd_showName sampleData)).
Proof.
  assert (Hrun : handle goodEnv (toRequest sampleData) (∅ : gmap (list N) N)
                 = (Returned sampleProcessed,
                    snd (handle goodEnv (toRequest sampleData)
                           (∅ : gmap (list N) N))))
    by (vm_compute; reflexivity).
  apply (processed_insight_reaches_notion goodEnv sampleData ∅ sampleNotion
           sampleProcessed _ Hrun).
  - vm_compute. reflexivity.
  - vm_compute. discriminate.
  - do 2 eexists. vm_compute. reflexivity.
Defined.

(** ** Reading the playback position *)

Lemma exact_small (z : Z) : Z.abs z <= 2 ^ 53 -> exactNumber z = Whole z.
Proof. intros H. unfold exactNumber. rewrite (proj2 (Z.leb_le _ _) H). reflexivity. Qed.

Lemma digitsOnly_digits (s : jsstring) (v : N) :
  digitsOnly 10 s = Some v ->
  s <> [] /\ Forall digitChar s /\ parseDigits 10 s None = Some v.
Proof.
  unfold digitsOnly.
  destruct (forallb _ s) eqn:Hall; [|discriminate].
  intros Hv. split; [intros ->; discriminate Hv|]. split; [|exact Hv].
  rewrite forallb_forall in Hall. apply List.Forall_forall. intros c Hc.
  specialize (Hall c Hc). unfold digitValue in Hall. unfold digitChar.
  destruct ((48 <=? c) && (c <=? 57))%N eqn:E1.
  - apply andb_true_iff in E1. destruct E1 as [H1 H2].
    apply N.leb_le in H1, H2. lia.
  - destruct ((97 <=? c) && (c <=? 122))%N eqn:E2.
    + apply andb_true_iff in E2. destruct E2 as [H1 H2]. apply N.leb_le in H1, H2.
      rewrite (proj2 (N.ltb_ge (c - 87) 10)) in Hall by lia. discriminate Hall.
    + destruct ((65 <=? c) && (c <=? 90))%N eqn:E3; [|discriminate Hall].
      apply andb_true_iff in E3. destruct E3 as [H1 H2]. apply N.leb_le in H1, H2.
      rewrite (proj2 (N.ltb_ge (c - 55) 10)) in Hall by lia. discriminate Hall.
Qed.

Lemma digit_isDigit (c : N) : digitChar c -> isDigit c = true.
Proof.
  intros [H1 H2]. unfold isDigit.
  rewrite (proj2 (N.leb_le 48 c) H1), (proj2 (N.leb_le c 57) H2). reflexivity.
Qed.

Lemma takeWhile_digits (s : jsstring) :
  Forall digitChar s -> takeWhile isDigit s = s /\ dropWhile isDigit s = [].
Proof.
  induction 1 as [|c s Hc _ [IH1 IH2]]; [split; reflexivity|].
  cbn [takeWhile dropWhile]. rewrite (digit_isDigit c Hc), IH1, IH2.
  split; reflexivity.
Qed.

Lemma trim_digits (s : jsstring) : Forall digitChar s -> trim s = s.
Proof.
  intros Hall.
  assert (Hd : forall l, Forall digitChar l -> dropWhile isWhiteSpace l = l).
  { intros [|c l] H; [reflexivity|]. inversion H; subst.
    cbn [dropWhile]. rewrite digit_not_space by assumption. reflexivity. }
  unfold trim, trimEnd, trimStart. rewrite (Hd s Hall).
  rewrite Hd by (apply List.Forall_rev; exact Hall).
  apply rev_involutive.
Qed.

(** [Number] of a text of decimal digits is their value. *)
Lemma Number_digits (s : jsstring) (v : N) :
  digitsOnly 10 s = Some v -> Z.of_N v <= 2 ^ 53 -> Number_ s = Whole (Z.of_N v).
Proof.
  intros Hs Hv. destruct (digitsOnly_digits s v Hs) as (Hne & Hall & Hval).
  unfold Number_. rewrite (trim_digits s Hall).
  destruct s as [|c ds]; [contradiction|].
  inversion Hall as [|? ? Hc Hds]; subst.
  transitivity (decimalLiteral (c :: ds)).
  - clear Hs Hval Hall Hne. destruct ds as [|d ds']; [destruct_matches|].
    inversion Hds as [|? ? [Hd1 Hd2] _]; subst. clear Hds.
    destruct (N.eq_dec d 120%N) as [->|H120]; [lia|].
    destruct (N.eq_dec d 88%N) as [->|H88]; [lia|].
    destruct (N.eq_dec d 111%N) as [->|H111]; [lia|].
    destruct (N.eq_dec d 79%N) as [->|H79]; [lia|].
    destruct (N.eq_dec d 98%N) as [->|H98]; [lia|].
    destruct (N.eq_dec d 66%N) as [->|H66]; [lia|].
    clear Hd1 Hd2 Hc. destruct_matches; congruence.
  - unfold decimalLiteral.
    assert (Hsign : match c :: ds with
                    | 45%N :: r => (true, r)
                    | 43%N :: r => (false, r)
                    | _ => (false, c :: ds)
                    end = (false, c :: ds)).
    { destruct Hc as [Hc1 Hc2]. clear Hval Hall Hds Hs Hne.
      destruct (N.eq_dec c 45%N) as [->|H45]; [lia|].
      destruct (N.eq_dec c 43%N) as [->|H43]; [lia|].
      clear Hc1 Hc2. destruct_matches; congruence. }
    rewrite Hsign.
    rewrite bool_decide_eq_false_2.
    + destruct (takeWhile_digits _ Hall) as [-> ->].
      rewrite Hval. apply exact_small. lia.
    + intros H. inversion H; subst. destruct Hc. lia.
Qed.

Lemma colon_not_digit (s : jsstring) : Forall digitChar s -> ~ In 58%N s.
Proof.
  intros Hall Hin. rewrite List.Forall_forall in Hall.
  destruct (Hall _ Hin). lia.
Qed.

Lemma parseTimestamp_text (t : jsstring) :
  t <> [] ->
  parseTimestamp (Some t)
  = match List.map Number_ (split 58 t) with
    | [h0; m0; sec] => plus (plus (times h0 3600) (times m0 60)) sec
    | [m0; sec] => plus (times m0 60) sec
    | [sec] => sec
    | _ => Whole 0
    end.
Proof. destruct t as [|c t]; [contradiction | reflexivity]. Qed.

Lemma exact_in_range (z : Z) : 0 <= z <= 2 ^ 53 -> exactNumber z = Whole z.
Proof. intros Hz. apply exact_small. lia. Qed.

(** Minutes and seconds. *)
Lemma parseTimestamp_minutes_seconds (m s : jsstring) (vm vs : N) :
  digitsOnly 10 m = Some vm ->
  digitsOnly 10 s = Some vs ->
  60 * Z.of_N vm + Z.of_N vs <= 2 ^ 53 ->
  parseTimestamp (Some (m ++ js ":" ++ s)) = Whole (60 * Z.of_N vm + Z.of_N vs).
Proof.
  intros Hm Hs Hbound.
  destruct (digitsOnly_digits _ _ Hm) as (Hmne & Hmall & _).
  destruct (digitsOnly_digits _ _ Hs) as (Hsne & Hsall & _).
  pose proof (colon_not_digit _ Hmall) as Hmc.
  pose proof (colon_not_digit _ Hsall) as Hsc.
  assert (H53 : 0 < 2 ^ 53) by reflexivity.
  assert (Nm : Number_ m = Whole (Z.of_N vm)) by (apply Number_digits; [assumption | lia]).
  assert (Ns : Number_ s = Whole (Z.of_N vs)) by (apply Number_digits; [assumption | lia]).
  rewrite parseTimestamp_text by (destruct m; [contradiction | discriminate]).
  change (js ":") with [58%N]. cbn [app].
  rewrite (split_app_sep 58 m s Hmc), (split_single 58 s Hsc).
  cbn [List.map]. rewrite Nm, Ns. cbn [times plus].
  rewrite exact_in_range by lia. cbn [plus]. rewrite exact_in_range by lia.
  f_equal. lia.
Qed.

(** X26: a position shown as digits, or as groups of digits joined by colons,
    is read as seconds, as minutes and seconds, or as hours, minutes and
    seconds. *)
Theorem parseTimestamp_reads_hours_minutes_seconds (h m s : jsstring) (vh vm vs : N) :
  digitsOnly 10 h = Some vh ->
  digitsOnly 10 m = Some vm ->
  digitsOnly 10 s = Some vs ->
  3600 * Z.of_N vh + 60 * Z.of_N vm + Z.of_N vs <= 2 ^ 53 ->
  parseTimestamp (Some s) = Whole (Z.of_N vs) /\
  parseTimestamp (Some (m ++ js ":" ++ s)) = Whole (60 * Z.of_N vm + Z.of_N vs) /\
  parseTimestamp (Some (h ++ js ":" ++ m ++ js ":" ++ s))
    = Whole (3600 * Z.of_N vh + 60 * Z.of_N vm + Z.of_N vs).
Proof.
  intros Hh Hm Hs Hbound.
  destruct (digitsOnly_digits _ _ Hh) as (Hhne & Hhall & _).
  destruct (digitsOnly_digits _ _ Hm) as (Hmne & Hmall & _).
  destruct (digitsOnly_digits _ _ Hs) as (Hsne & Hsall & _).
  pose proof (colon_not_digit _ Hhall) as Hhc.
  pose proof (colon_not_digit _ Hmall) as Hmc.
  pose proof (colon_not_digit _ Hsall) as Hsc.
  assert (H53 : 0 < 2 ^ 53) by reflexivity.
  assert (Nh : Number_ h = Whole (Z.of_N vh)) by (apply Number_digits; [assumption | lia]).
  assert (Nm : Number_ m = Whole (Z.of_N vm)) by (apply Number_digits; [assumption | lia]).
  assert (Ns : Number_ s = Whole (Z.of_N vs)) by (apply Number_digits; [assumption | lia]).
  split; [|split].
  - rewrite parseTimestamp_text by assumption. rewrite (split_single 58 s Hsc).
    cbn [List.map]. exact Ns.
  - apply parseTimestamp_minutes_seconds; [assumption | assumption | lia].
  - rewrite parseTimestamp_text by (destruct h; [contradiction | discriminate]).
    change (js ":") with [58%N]. cbn [app].
    rewrite (split_app_sep 58 h _ Hhc), (split_app_sep 58 m s Hmc),
      (split_single 58 s Hsc).
    cbn [List.map]. rewrite Nh, Nm, Ns. cbn [times plus].
    rewrite (exact_in_range (Z.of_N vh * 3600)) by lia.
    rewrite (exact_in_range (Z.of_N vm * 60)) by lia. cbn [plus].
    rewrite exact_in_range by lia. cbn [plus]. rewrite exact_in_range by lia.
    f_equal. lia.
Qed.

Lemma parseTimestamp_reads_hours_minutes_seconds_witness :
  parseTimestamp (Some (js "45")) = Whole 45 /\
  parseTimestamp (Some (js "23:45")) = Whole 1425 /\
  parseTimestamp (Some (js "1:23:45")) = Whole 5025.
Proof.
  apply (parseTimestamp_reads_hours_minutes_seconds
           (js "1") (js "23") (js "45") 1 23 45);
    vm_compute; first [reflexivity | discriminate].
Defined.

(** ** Clock texts *)

Lemma allBelow_spec (p : Z -> bool) (n : N) :
  fst (allBelow p n) = Z.of_N n /\
  (snd (allBelow p n) = true -> forall t, 0 <= t < Z.of_N n -> p t = true).
Proof.
  induction n as [|n [IHf IHs]] using N.peano_ind.
  - split; [reflexivity | intros _ t Ht; lia].
  - unfold allBelow in *. rewrite N.iter_succ. cbn [fst snd]. split.
    + rewrite IHf. lia.
    + intros H t Ht. apply andb_true_iff in H. destruct H as [H1 H2].
      destruct (Z.eq_dec t (Z.of_N n)) as [->|Hne].
      * rewrite <- IHf. exact H2.
      * apply IHs; [exact H1 | lia].
Qed.

Lemma eqString_eq (a b : jsstring) : eqString a b = true -> a = b.
Proof.
  revert b. induction a as [|x a IH]; intros [|y b] H; try discriminate H.
  - reflexivity.
  - cbn [eqString] in H. apply andb_true_iff in H. destruct H as [H1 H2].
    apply N.eqb_eq in H1. subst. f_equal. apply IH, H2.
Qed.

(** The division of the doubles gives the right minute for every second of
    the first four hours. *)
Lemma minutes_checked (n : Z) :
  0 <= n < 14400 ->
  Math_floor (fdiv (double_of_Z n) (double_of_Z 60)) = Some (n / 60) /\
  Math_floor (double_of_Z n) = Some n.
Proof.
  intros Hn.
  assert (Hall : snd (allBelow minutesOk 14400) = true) by (vm_compute; reflexivity).
  pose proof (proj2 (allBelow_spec minutesOk 14400) Hall n ltac:(lia)) as H.
  unfold minutesOk in H.
  destruct (Math_floor (fdiv _ _)) as [mins|]; [|discriminate H].
  destruct (Math_floor (double_of_Z n)) as [whole|]; [|discriminate H].
  apply andb_true_iff in H. destruct H as [H1 H2].
  apply Z.eqb_eq in H1, H2. subst. split; reflexivity.
Qed.

Lemma two_digits (r : Z) :
  0 <= r < 60 ->
  padStart2 (numberToString r)
    = [(48 + Z.to_N (r / 10))%N; (48 + Z.to_N (r mod 10))%N].
Proof.
  intros Hr.
  assert (Hall : snd (allBelow twoDigitsOk 60) = true) by (vm_compute; reflexivity).
  apply eqString_eq.
  apply (proj2 (allBelow_spec twoDigitsOk 60) Hall r). lia.
Qed.

Lemma formatTime_parts (n : Z) :
  0 <= n < 14400 ->
  formatTime (Some n)
    = numberToString (n / 60) ++ js ":" ++ padStart2 (numberToString (n mod 60)) /\
  formatTimestamp n
    = padStart2 (numberToString (n / 60)) ++ js ":"
        ++ padStart2 (numberToString (n mod 60)).
Proof.
  intros Hn. destruct (minutes_checked n Hn) as [Hm Hw].
  unfold formatTime, formatTimestamp. cbv zeta. rewrite Hm, Hw.
  rewrite Z.rem_mod_nonneg by lia. split; reflexivity.
Qed.

Lemma digitsOnly_intro (s : jsstring) (v : N) :
  Forall digitChar s -> parseDigits 10 s None = Some v -> digitsOnly 10 s = Some v.
Proof.
  intros Hall Hv. unfold digitsOnly.
  assert (E : forallb (fun c => match digitValue 10 c with
                                | Some _ => true
                                | None => false
                                end) s = true).
  { apply forallb_forall. intros c Hc. rewrite List.Forall_forall in Hall.
    rewrite (digitValue_digit c (Hall c Hc)). reflexivity. }
  rewrite E. exact Hv.
Qed.

Lemma digitsOnly_numberToString (z : Z) :
  0 <= z -> digitsOnly 10 (numberToString z) = Some (Z.to_N z).
Proof.
  intros Hz. destruct z as [|p|p]; [reflexivity | | lia].
  destruct (decimal_spec (Npos p)) as (c & ds & Heq & Hall & Hval).
  cbn [numberToString Z.to_N]. rewrite Heq. apply digitsOnly_intro; assumption.
Qed.

Lemma digitsOnly_padStart2 (s : jsstring) (v : N) :
  digitsOnly 10 s = Some v -> digitsOnly 10 (padStart2 s) = Some v.
Proof.
  intros H. destruct s as [|a [|b r]].
  - discriminate H.
  - destruct (digitsOnly_digits _ _ H) as (_ & Hall & Hval).
    inversion Hall as [|? ? Ha _]; subst.
    cbn [parseDigits] in Hval. rewrite (digitValue_digit a Ha) in Hval.
    change (padStart2 [a]) with [48%N; a]. apply digitsOnly_intro.
    + constructor; [unfold digitChar; lia | exact Hall].
    + cbn [parseDigits]. change (digitValue 10 48) with (Some 0%N).
      cbv iota. rewrite (digitValue_digit a Ha).
      inversion Hval; subst. f_equal; lia.
  - exact H.
Qed.

(** X27: for every whole second of the first four hours, [formatTime] gives
    the minutes, a colon and the seconds in two digits, and the popup's
    [formatTimestamp] the same with the minutes padded to two characters:
    the division of the doubles never gives a wrong minute. *)
Theorem formatTime_minutes_and_seconds (n : Z) :
  0 <= n < 14400 ->
  formatTime (Some n)
    = numberToString (n / 60) ++ js ":"
        ++ [(48 + Z.to_N ((n mod 60) / 10))%N; (48 + Z.to_N ((n mod 60) mod 10))%N] /\
  formatTimestamp n
    = padStart2 (numberToString (n / 60)) ++ js ":"
        ++ [(48 + Z.to_N ((n mod 60) / 10))%N; (48 + Z.to_N ((n mod 60) mod 10))%N].
Proof.
  intros Hn. destruct (formatTime_parts n Hn) as [-> ->].
  rewrite (two_digits (n mod 60)) by (apply Z.mod_pos_bound; lia).
  split; reflexivity.
Qed.

Lemma formatTime_minutes_and_seconds_witness :
  formatTime (Some 75) = js "1:15" /\ formatTimestamp 75 = js "01:15".
Proof. apply (formatTime_minutes_and_seconds 75). lia. Defined.

(** X28: the content script reads back what the popup and the server print:
    for every whole second of the first four hours,
    [parseTimestamp(formatTimestamp(n))] and [parseTimestamp(formatTime(n))]
    are n. *)
Theorem parseTimestamp_reads_clock_text (n : Z) :
  0 <= n < 14400 ->
  parseTimestamp (Some (formatTimestamp n)) = Whole n /\
  parseTimestamp (Some (formatTime (Some n))) = Whole n.
Proof.
  intros Hn. destruct (formatTime_parts n Hn) as [-> ->].
  assert (Hq : 0 <= n / 60) by (apply Z.div_pos; lia).
  assert (Hr : 0 <= n mod 60 < 60) by (apply Z.mod_pos_bound; lia).
  assert (Hsum : 60 * Z.of_N (Z.to_N (n / 60)) + Z.of_N (Z.to_N (n mod 60)) = n).
  { rewrite !Z2N.id by lia. symmetry. apply Z.div_mod. lia. }
  assert (H53 : 14400 <= 2 ^ 53) by (intros H; discriminate H).
  pose proof (digitsOnly_numberToString (n / 60) Hq) as Hm.
  pose proof (digitsOnly_numberToString (n mod 60) (proj1 Hr)) as Hs.
  split.
  - rewrite (parseTimestamp_minutes_seconds _ _ _ _
               (digitsOnly_padStart2 _ _ Hm) (digitsOnly_padStart2 _ _ Hs))
      by (rewrite Hsum; lia).
    rewrite Hsum. reflexivity.
  - rewrite (parseTimestamp_minutes_seconds _ _ _ _
               Hm (digitsOnly_padStart2 _ _ Hs))
      by (rewrite Hsum; lia).
    rewrite Hsum. reflexivity.
Qed.

Lemma parseTimestamp_reads_clock_text_witness :
  parseTimestamp (Some (formatTimestamp 75)) = Whole 75 /\
  parseTimestamp (Some (formatTime (Some 75))) = Whole 75.
Proof. apply (parseTimestamp_reads_clock_text 75). lia. Defined.

(** ** The bullets of a summary *)

Lemma In_take {A} (n : nat) (l : list A) (x : A) : In x (take n l) -> In x l.
Proof.
  revert l. induction n as [|n IH]; intros [|y l] H; try contradiction.
  cbn [take] in H. destruct H as [->|H]; [left; reflexivity | right; apply IH, H].
Qed.

Lemma In_dropWhile {A} (p : A -> bool) (l : list A) (x : A) :
  In x (dropWhile p l) -> In x l.
Proof.
  induction l as [|y l IH]; [intros []|].
  cbn [dropWhile]. destruct (p y); [intros H; right; apply IH, H | intros H; exact H].
Qed.

Lemma In_trim (s : jsstring) (x : N) : In x (trim s) -> In x s.
Proof.
  unfold trim, trimEnd, trimStart. intros H.
  apply in_rev in H. apply In_dropWhile in H. apply in_rev in H.
  apply In_dropWhile in H. exact H.
Qed.

Lemma In_stripMarker (line : jsstring) (x : N) :
  In x (stripMarker line) -> In x line.
Proof.
  destruct line as [|c r]; [intros []|]. cbn [stripMarker].
  destruct (isBulletMarker c || isDigit c || N.eqb c 46).
  - intros H. right. apply In_dropWhile in H. exact H.
  - intros H. exact H.
Qed.

Lemma split_pieces (c : N) (s : jsstring) :
  Forall (fun piece => ~ In c piece) (split c s).
Proof.
  induction s as [|x r IH]; [repeat constructor; intros []|].
  cbn [split]. destruct (N.eqb_spec x c) as [->|Hne].
  - constructor; [intros [] | exact IH].
  - destruct (split c r) as [|w ws]; [repeat constructor; intros [H|[]]; congruence|].
    inversion IH as [|? ? Hw Hws]; subst. constructor; [|exact Hws].
    intros [H|H]; [congruence | exact (Hw H)].
Qed.

Lemma omap_bulletOf (l : list jsstring) :
  omap bulletOf l
  = List.filter nonEmpty
      (List.map (fun line => trim (stripMarker line)) (List.filter isBulletLine l)).
Proof.
  induction l as [|line l IH]; [reflexivity|].
  cbn [omap list_omap List.filter]. fold (omap bulletOf l). rewrite IH.
  unfold bulletOf. destruct (isBulletLine line); [|reflexivity].
  cbn [List.map List.filter]. cbv zeta.
  destruct (nonEmpty (trim (stripMarker line))); reflexivity.
Qed.

Lemma bulletOf_Some (line bullet : jsstring) :
  bulletOf line = Some bullet ->
  isBulletLine line = true /\ bullet = trim (stripMarker line) /\ bullet <> [].
Proof.
  unfold bulletOf. destruct (isBulletLine line); [|discriminate]. cbv zeta.
  destruct (nonEmpty (trim (stripMarker line))) eqn:E; [|discriminate].
  intros H. inversion H; subst. repeat split.
  intros E'. rewrite E' in E. discriminate E.
Qed.

(** X29: the summary is the first three of the bullets that the lines of the
    answer give, in their order, each of them not empty, free of line breaks
    and what the marker replacement and the trimming leave of a bullet line;
    and it is the whole answer, trimmed, exactly when no line gives a
    bullet. *)
Theorem bullets_come_from_bullet_lines (content : jsstring) :
  let bullets := omap bulletOf (split 10 content) in
  (bullets = [] -> parseBullets content = [trim content]) /\
  (bullets <> [] -> parseBullets content = take 3 bullets) /\
  (1 <= length (parseBullets content) <= 3)%nat /\
  Forall (fun bullet =>
            bullet <> [] /\ ~ In 10%N bullet /\
            exists line,
              In line (split 10 content) /\ isBulletLine line = true /\
              bullet = trim (stripMarker line))
         bullets.
Proof.
  cbv zeta.
  assert (Hparse : parseBullets content
                   = match take 3 (omap bulletOf (split 10 content)) with
                     | [] => [trim content]
                     | b :: bs => b :: bs
                     end).
  { unfold parseBullets. cbv zeta. rewrite omap_bulletOf.
    destruct (take 3 _); reflexivity. }
  split; [|split; [|split]].
  - intros E. rewrite Hparse, E. reflexivity.
  - intros E. rewrite Hparse.
    destruct (omap bulletOf (split 10 content)) as [|b bs]; [contradiction|].
    reflexivity.
  - rewrite Hparse.
    assert (Hl : (length (take 3 (omap bulletOf (split 10 content))) <= 3)%nat)
      by (rewrite length_take; lia).
    destruct (take 3 (omap bulletOf (split 10 content))); cbn [length] in *; lia.
  - apply List.Forall_forall. intros bullet Hin.
    apply list_elem_of_In, list_elem_of_omap in Hin.
    destruct Hin as (line & Hline & Hb). apply list_elem_of_In in Hline.
    destruct (bulletOf_Some _ _ Hb) as (Hbl & -> & Hne).
    split; [exact Hne|]. split.
    + intros H10. apply In_trim, In_stripMarker in H10.
      pose proof (split_pieces 10 content) as Hp.
      rewrite List.Forall_forall in Hp. exact (Hp line Hline H10).
    + exists line. repeat split; assumption.
Qed.
